(** * ImageDataAnnotator: a shallow embedding of the core modules

    The development follows the Python sources
      - [src/core/excel_reader.py]   (spreadsheet rows keyed by position),
      - [src/core/image_processor.py] (panel layout, text wrapping, stamp),
      - [src/utils/checkpoint.py]    (resume bookkeeping),
      - [src/core/worker.py]         (batch worker, pause / cancel, progress).

    Conventions.  A Python [int] is a [Z]; a Python [float] is a primitive
    binary64 float; a Python [str] is the list of its code points; a [dict]
    with string keys is a [gmap]; an exception is the [Raise] case of
    [result]; a signal emission or a drawing call is an entry appended to
    a log. *)

From Stdlib Require Import ZArith List Lia Bool Floats Ascii String.
From Equations Require Import Equations.
From stdpp Require Import gmap list.

Open Scope Z_scope.

(** ** Python strings *)

Module PyStr.

(** A string is the sequence of its Unicode code points. *)
Definition str := list N.

(** An ASCII literal. *)
Definition lit (s : String.string) : str :=
  map (fun a => N_of_ascii a) (String.list_ascii_of_string s).

Definition SPACE : N := 32%N.
Definition NEWLINE : N := 10%N.
Definition DOT : N := 46%N.
Definition HYPHEN : N := 45%N.
Definition SLASH : N := 47%N.

(** [str.isspace] on one code point: the code points Python 3 treats as
    white space. *)
Definition py_isspace (c : N) : bool :=
  ((9 <=? c) && (c <=? 13) || (28 <=? c) && (c <=? 32)
   || (c =? 133) || (c =? 160) || (c =? 5760)
   || (8192 <=? c) && (c <=? 8202)
   || (c =? 8232) || (c =? 8233) || (c =? 8239) || (c =? 8287)
   || (c =? 12288))%N.

(** [s.split(sep)] for a one-character separator: the pieces between the
    separators, empty pieces kept; [cur] is the piece being read. *)
Fixpoint split_on_aux (sep : N) (cur : str) (s : str) : list str :=
  match s with
  | [] => [cur]
  | c :: s' =>
      if (c =? sep)%N then cur :: split_on_aux sep [] s'
      else split_on_aux sep (cur ++ [c]) s'
  end.

Definition py_split_on (sep : N) (s : str) : list str := split_on_aux sep [] s.

(** [s.split()]: maximal runs of non-white-space characters. *)
Fixpoint split_ws_aux (cur : str) (s : str) : list str :=
  match s with
  | [] => match cur with [] => [] | _ => [cur] end
  | c :: s' =>
      if py_isspace c
      then match cur with
           | [] => split_ws_aux [] s'
           | _ => cur :: split_ws_aux [] s'
           end
      else split_ws_aux (cur ++ [c]) s'
  end.

Definition py_split (s : str) : list str := split_ws_aux [] s.

(** [" ".join(words)]. *)
Fixpoint join_words (words : list str) : str :=
  match words with
  | [] => []
  | [w] => w
  | w :: rest => w ++ [SPACE] ++ join_words rest
  end.

(** A word: not empty, and free of white space. *)
Definition is_word (w : str) : Prop :=
  w <> [] /\ forallb (fun c => negb (py_isspace c)) w = true.

(** [s.strip()]. *)
Fixpoint lstrip (s : str) : str :=
  match s with
  | c :: s' => if py_isspace c then lstrip s' else s
  | [] => []
  end.

Definition rstrip (s : str) : str := rev (lstrip (rev s)).

Definition py_strip (s : str) : str := rstrip (lstrip s).

(** [s.replace(a, b)] for one-character [a] and [b]. *)
Definition py_replace (a b : N) (s : str) : str :=
  map (fun c => if (c =? a)%N then b else c) s.

(** [s.upper()] restricted to ASCII: the letters a-z are mapped to A-Z and
    every other code point is left as it is (the case mapping of the other
    scripts is not modelled). *)
Definition upper_char (c : N) : N :=
  if ((97 <=? c) && (c <=? 122))%N then (c - 32)%N else c.

Definition py_upper (s : str) : str := map upper_char s.

(** [ord] and [chr] on the modelled code points. *)
Definition ord (c : N) : Z := Z.of_N c.
Definition chr (z : Z) : N := Z.to_N z.

Definition is_upper_AZ (c : N) : bool := ((65 <=? c) && (c <=? 90))%N.

End PyStr.

Import PyStr.

(** ** Exceptions *)

(** A computation that may raise: [Raise msg] carries [str(e)]. *)
Inductive result (A : Type) : Type :=
| Ok (a : A)
| Raise (msg : str).
Arguments Ok {A} a.
Arguments Raise {A} msg.

Definition bind {A B} (m : result A) (k : A -> result B) : result B :=
  match m with
  | Ok a => k a
  | Raise e => Raise e
  end.

Notation "'let*' x := m 'in' k" := (bind m (fun x => k))
  (at level 10, x pattern, m at level 100, k at level 200).

(** ** excel_reader.py: column letters *)

Module ExcelColumns.

(** The loop of [get_column_letter]:
    [while index >= 0: result = chr(index % 26 + ord('A')) + result;
                        index = index // 26 - 1]. *)
Equations? column_letter_loop (index : Z) (result : str) : str
  by wf (Z.to_nat (index + 1)) lt :=
  column_letter_loop index result with Z_lt_dec index 0 := {
    | left _ => result
    | right _ =>
        column_letter_loop (index / 26 - 1)
                           (chr (index mod 26 + ord 65%N) :: result) }.
Proof.
  assert (index / 26 <= index) by (apply Z.div_le_upper_bound; lia).
  lia.
Qed.

Definition get_column_letter (index : Z) : str := column_letter_loop index [].

(** [get_column_index]: a left fold over [letter.upper()]. *)
Definition get_column_index (letter : str) : Z :=
  fold_left (fun result char => result * 26 + (ord char - ord 65%N + 1))
            (py_upper letter) 0
  - 1.

End ExcelColumns.

(** ** excel_reader.py: rows keyed by position *)

Module Excel.

(** The final component's stem as [pathlib] computes it from the name:
    the part before the last dot, unless that dot is the first or the last
    character of the name (or there is none). *)
Fixpoint rfind_dot (name : str) (i : nat) (found : option nat) : option nat :=
  match name with
  | [] => found
  | c :: rest =>
      rfind_dot rest (S i) (if (c =? DOT)%N then Some i else found)
  end.

Definition stem_of_name (name : str) : str :=
  match rfind_dot name 0 None with
  | Some i =>
      if ((0 <? i)%nat && (i <? length name - 1)%nat)%bool
      then take i name else name
  | None => name
  end.

(** The final component of a POSIX path: the last piece between slashes
    that is neither empty nor a single dot. *)
Definition posix_name (path : str) : str :=
  match rev (filter (fun p => p <> [] /\ p <> [DOT]) (py_split_on SLASH path)) with
  | p :: _ => p
  | [] => []
  end.

Section Reader.

(** A cell value other than [None], with Python's [str()] of it. *)
Variable value : Type.
Variable py_str : value -> str.
(** [Path(filename).name]: the final component, as the platform's path
    flavour splits it. *)
Variable path_name : str -> str.

(** One spreadsheet row: the cells from column 1 on; [None] is an empty
    cell. *)
Definition row := list (option value).

Record ExcelReader := {
  sheet : list row;                       (* rows from row 1 on *)
  data : gmap str (gmap str str);          (* self.data *)
  _loaded : bool
}.

Definition DATA_START_ROW : nat := 11.

Definition DEFAULT_COLUMNS : list (str * Z) :=
  [(lit "position", 0); (lit "supplier", 19); (lit "kpp", 21);
   (lit "inn", 22); (lit "hyperlink", 23)].

(** [sheet.cell(row, column).value] within one row: a column below 1 is
    refused by the worksheet; a cell past the row's end is empty. *)
Definition cell_value (r : row) (column : Z) : result (option value) :=
  if column <? 1 then Raise (lit "Row or column values must be at least 1")
  else Ok (match r !! Z.to_nat (column - 1) with
           | Some v => v
           | None => None
           end).

(** [columns[name]] on the ordered column mapping. *)
Fixpoint columns_get (columns : list (str * Z)) (name : str) : result Z :=
  match columns with
  | [] => Raise ([39%N] ++ name ++ [39%N])      (* KeyError: the key, quoted *)
  | (k, v) :: rest =>
      if decide (k = name) then Ok v else columns_get rest name
  end.

Definition _normalize_position (position : str) : str :=
  let position := py_strip position in
  let position := py_replace DOT HYPHEN position in
  position.

(** The inner loop over [columns.items()], filling [row_data]. *)
Fixpoint read_fields (columns : list (str * Z)) (r : row)
    (row_data : gmap str str) : result (gmap str str) :=
  match columns with
  | [] => Ok row_data
  | (field_name, col_index) :: rest =>
      if decide (field_name = lit "position") then read_fields rest r row_data
      else
        let* cell := cell_value r (col_index + 1) in
        read_fields rest r
          (<[field_name := match cell with
                           | Some v => py_str v
                           | None => []
                           end]> row_data)
  end.

(** The [while True] loop of [parse] from the current row on.  The rows
    of a sheet are finitely many and a cell below the last row is empty,
    so the loop is a recursion on the remaining rows.  The result pairs
    the dictionary as the loop left it with the exception, if any. *)
Fixpoint parse_rows (columns : list (str * Z)) (rows : list row)
    (d : gmap str (gmap str str)) : gmap str (gmap str str) * result unit :=
  match columns_get columns (lit "position") with
  | Raise e => (d, Raise e)
  | Ok pos_col =>
      match rows with
      | [] => (d, Ok tt)
      | r :: rest =>
          match cell_value r (pos_col + 1) with
          | Raise e => (d, Raise e)
          | Ok None => (d, Ok tt)
          | Ok (Some position_value) =>
              match py_strip (py_str position_value) with
              | [] => (d, Ok tt)
              | _ :: _ =>
                  let position_key := _normalize_position (py_str position_value) in
                  match read_fields columns r ∅ with
                  | Raise e => (d, Raise e)
                  | Ok row_data => parse_rows columns rest (<[position_key := row_data]> d)
                  end
              end
          end
      end
  end.

Inductive parse_message :=
| NotLoaded                 (* "Excel файл не загружен" *)
| Loaded (count : nat)      (* f"Загружено {len(self.data)} записей" *)
| ParseError (e : str).     (* f"Ошибка парсинга: {str(e)}" *)

(** [column_mapping or self.DEFAULT_COLUMNS]: [None] and the empty mapping
    give the default columns. *)
Definition columns_or_default (column_mapping : option (list (str * Z)))
    : list (str * Z) :=
  match column_mapping with
  | Some (c :: cs) => c :: cs
  | _ => DEFAULT_COLUMNS
  end.

Definition parse (column_mapping : option (list (str * Z))) (rd : ExcelReader)
    : ExcelReader * (bool * parse_message) :=
  if negb (_loaded rd) then (rd, (false, NotLoaded))
  else
    let columns := columns_or_default column_mapping in
    let '(d, outcome) :=
      parse_rows columns (drop (DATA_START_ROW - 1) (sheet rd)) (data rd) in
    let rd' := {| sheet := sheet rd; data := d; _loaded := _loaded rd |} in
    match outcome with
    | Ok _ => (rd', (true, Loaded (size d)))
    | Raise e => (rd', (false, ParseError e))
    end.

Definition get_data_for_file (rd : ExcelReader) (filename : str)
    : option (gmap str str) :=
  let position_key := stem_of_name (path_name filename) in
  data rd !! position_key.

(** The key of a row in the specification's words: its position cell converted to
    a string, stripped, with every dot replaced by a hyphen. *)
Definition row_key (pos_col : Z) (r : row) : option str :=
  match r !! Z.to_nat pos_col with
  | Some (Some v) =>
      match py_strip (py_str v) with
      | [] => None
      | _ => Some (py_replace DOT HYPHEN (py_strip (py_str v)))
      end
  | _ => None
  end.

(** The rows [parse] reads: from the first data row up to the first row
    whose position is empty or blank. *)
Fixpoint data_rows (pos_col : Z) (rows : list row) : list row :=
  match rows with
  | [] => []
  | r :: rest =>
      match row_key pos_col r with
      | Some _ => r :: data_rows pos_col rest
      | None => []
      end
  end.

(** What [parse] does with one of those rows. *)
Definition store_row (columns : list (str * Z)) (pos_col : Z)
    (d : gmap str (gmap str str)) (r : row) : gmap str (gmap str str) :=
  match row_key pos_col r, read_fields columns r ∅ with
  | Some key, Ok row_data => <[key := row_data]> d
  | _, _ => d
  end.

End Reader.

End Excel.

(** ** checkpoint.py *)

Module Checkpoint.

(** One entry of [failed_files]. *)
Record failed_entry := {
  file : str;
  error : str;
  timestamp : str
}.

(** [self.data]: a dictionary in which each of the keys written by
    [create_session] may be present or absent. *)
Record CheckpointData := {
  session_id : option str;
  started_at : option str;
  paused_at : option (option str);       (* present with value None at first *)
  total_files : option Z;
  all_files : option (list str);
  processed_files : option (list str);
  failed_files : option (list failed_entry);
  settings_hash : option str
}.

(** The empty dictionary [{}]. *)
Definition empty_data : CheckpointData :=
  {| session_id := None; started_at := None; paused_at := None;
     total_files := None; all_files := None; processed_files := None;
     failed_files := None; settings_hash := None |}.

Definition present {A} (o : option A) : bool :=
  match o with Some _ => true | None => false end.

(** [not self.data]: the dictionary has no key. *)
Definition is_empty (d : CheckpointData) : bool :=
  negb (present (session_id d) || present (started_at d) || present (paused_at d)
        || present (total_files d) || present (all_files d)
        || present (processed_files d) || present (failed_files d)
        || present (settings_hash d)).

Definition create_session (sid now : str) (files : list str) (hash : str)
    : CheckpointData :=
  {| session_id := Some sid; started_at := Some now; paused_at := Some None;
     total_files := Some (Z.of_nat (length files)); all_files := Some files;
     processed_files := Some []; failed_files := Some [];
     settings_hash := Some hash |}.

Definition get_pending_files (d : CheckpointData) : list str :=
  if is_empty d then []
  else
    let processed : gset str := list_to_set (default [] (processed_files d)) in
    let failed : gset str := list_to_set (map file (default [] (failed_files d))) in
    let all_files := default [] (all_files d) in
    filter (fun f => (f ∉ processed) /\ (f ∉ failed)) all_files.

Definition set_processed (l : list str) (d : CheckpointData) : CheckpointData :=
  {| session_id := session_id d; started_at := started_at d;
     paused_at := paused_at d; total_files := total_files d;
     all_files := all_files d; processed_files := Some l;
     failed_files := failed_files d; settings_hash := settings_hash d |}.

Definition set_failed (l : list failed_entry) (d : CheckpointData) : CheckpointData :=
  {| session_id := session_id d; started_at := started_at d;
     paused_at := paused_at d; total_files := total_files d;
     all_files := all_files d; processed_files := processed_files d;
     failed_files := Some l; settings_hash := settings_hash d |}.

Definition mark_processed (filename : str) (d : CheckpointData) : CheckpointData :=
  let d := match processed_files d with
           | None => set_processed [] d
           | Some _ => d
           end in
  set_processed (default [] (processed_files d) ++ [filename]) d.

Definition mark_failed (filename err now : str) (d : CheckpointData) : CheckpointData :=
  let d := match failed_files d with
           | None => set_failed [] d
           | Some _ => d
           end in
  set_failed (default [] (failed_files d)
              ++ [{| file := filename; error := err; timestamp := now |}]) d.

Definition save_progress (now : str) (d : CheckpointData) : CheckpointData :=
  {| session_id := session_id d; started_at := started_at d;
     paused_at := Some (Some now); total_files := total_files d;
     all_files := all_files d; processed_files := processed_files d;
     failed_files := failed_files d; settings_hash := settings_hash d |}.

Definition clear (d : CheckpointData) : CheckpointData := empty_data.

(** The calls that record progress within one session. *)
Inductive update :=
| MarkProcessed (filename : str)
| MarkFailed (filename err now : str)
| SaveProgress (now : str).

Definition apply_update (d : CheckpointData) (u : update) : CheckpointData :=
  match u with
  | MarkProcessed f => mark_processed f d
  | MarkFailed f e t => mark_failed f e t d
  | SaveProgress t => save_progress t d
  end.

End Checkpoint.

(** ** Python numbers *)

Module PyNum.

(** [float(n)] for an [int] [n]: the nearest binary64 value.  (Python
    refuses integers beyond the binary64 range; pixel sizes and file counts
    are far below it.) *)
Definition float_of_Z (n : Z) : float :=
  SF2Prim (binary_normalize prec emax n 0 false).

(** [int(x)] for a [float] [x]: truncation towards zero; infinities and
    NaN are refused. *)
Definition py_int (x : float) : result Z :=
  match Prim2SF x with
  | S754_zero _ => Ok 0
  | S754_finite s m e =>
      let mag := if 0 <=? e then Z.shiftl (Z.pos m) e
                 else Z.shiftr (Z.pos m) (- e) in
      Ok (if s then - mag else mag)
  | S754_infinity _ => Raise (lit "cannot convert float infinity to integer")
  | S754_nan => Raise (lit "cannot convert float NaN to integer")
  end.

(** [a / b] on two [int]s: a [float], or [ZeroDivisionError].  (The
    quotient of the two converted operands; this is Python's correctly
    rounded quotient whenever both are below 2^53 in magnitude.) *)
Definition py_truediv (a b : Z) : result float :=
  if b =? 0 then Raise (lit "division by zero")
  else Ok (PrimFloat.div (float_of_Z a) (float_of_Z b)).

(** A value that is an [int] or a [float]. *)
Inductive pynum :=
| PyInt (n : Z)
| PyFloat (x : float).

Definition to_float (v : pynum) : float :=
  match v with
  | PyInt n => float_of_Z n
  | PyFloat x => x
  end.

(** [v > 0]. *)
Definition is_positive (v : pynum) : bool :=
  match v with
  | PyInt n => 0 <? n
  | PyFloat x => PrimFloat.ltb 0%float x
  end.

End PyNum.

(** ** image_processor.py *)

Module ImageProcessor.
Import PyNum.

(** What the code reads of a PIL image: its size. *)
Record Image := { width : Z; height : Z }.

(** A loaded font: [getbbox] answers [(left, top, right, bottom)] or
    raises ([None]); [size] is the font's size attribute. *)
Record Font := {
  getbbox : str -> option (Z * Z * Z * Z);
  size : Z
}.

(** The keys of [element_offsets] the code looks up:
    "inn", "kpp", "text_<i>" and "stamp". *)
Inductive element := ElInn | ElKpp | ElText (i : nat) | ElStamp.

(** [self.settings], each [get] already resolved to its default. *)
Record Settings := {
  panel_width : Z;
  position : str;
  background_color : str;
  font_size : Z;
  text_color : str;
  output_format : str;           (* settings["format"].lower() *)
  inn_enabled : bool;            (* excel_fields["inn"]["enabled"] *)
  kpp_enabled : bool;
  supplier_enabled : bool;
  hyperlink_enabled : bool;
  stamp_enabled : bool;
  stamp_scale : float;
  element_offsets : element -> Z * Z
}.

(** The calls made on the canvas and the file system, in order; [Warning]
    is the out-of-bounds message of the fixed-text loop. *)
Inductive draw_op :=
| NewImage (w h : Z) (color : str)
| PasteOriginal (x y : Z)
| DrawText (x y : Z) (text : str)
| DrawLine (x0 y0 x1 y1 : Z)
| Warning (y bound : Z)
| ResizeStamp (w h : Z)
| PasteStamp (w h x y : Z)
| MkdirParent (path : str)
| ConvertRGB
| SavePdf (path : str)
| SaveJpeg (path : str)
| SavePng (path : str).

(** The imaging library and the file system: which calls succeed. *)
Record Env := {
  image_open : str -> result Image;      (* Image.open, convert('RGBA') *)
  get_font : Z -> result Font;           (* self._get_font(size) *)
  perform : draw_op -> result unit       (* any other call *)
}.

(** Computations of [process_image]: the calls made so far, and a value
    or an exception. *)
Definition M (A : Type) : Type := list draw_op * result A.

Definition mret {A} (a : A) : M A := ([], Ok a).

Definition mbind {A B} (m : M A) (k : A -> M B) : M B :=
  match m with
  | (l, Ok a) => let '(l', r) := k a in (l ++ l', r)
  | (l, Raise e) => (l, Raise e)
  end.

Notation "'let+' x := m 'in' k" := (mbind m (fun x => k))
  (at level 10, x pattern, m at level 100, k at level 200).

Definition lift {A} (r : result A) : M A := ([], r).

(** One call: logged when it succeeds. *)
Definition call (env : Env) (op : draw_op) : M unit :=
  match perform env op with
  | Ok _ => ([op], Ok tt)
  | Raise e => ([], Raise e)
  end.

(** A [print]: cannot fail. *)
Definition say (op : draw_op) : M unit := ([op], Ok tt).

(** *** _wrap_text *)

(** The measured width of [test_line], with the fallback of the [except]
    branch. *)
Definition line_width (font : Font) (test_line : str) : Z :=
  match getbbox font test_line with
  | Some (x0, _, x1, _) => x1 - x0
  | None => Z.of_nat (length test_line) * (size font / 2)
  end.

(** One turn of the loop over [words[1:]]; the state is
    [(lines, current_line)]. *)
Definition wrap_step (font : Font) (max_width : Z)
    (st : list str * str) (word : str) : list str * str :=
  let '(lines, current_line) := st in
  let test_line := current_line ++ [SPACE] ++ word in
  if line_width font test_line <=? max_width
  then (lines, test_line)
  else (lines ++ [current_line], word).

(** One turn of the loop over the paragraphs. *)
Definition wrap_paragraph (font : Font) (max_width : Z)
    (lines : list str) (paragraph : str) : list str :=
  match py_split paragraph with
  | [] => lines ++ [[]]
  | w0 :: rest =>
      let '(lines, current_line) :=
        fold_left (wrap_step font max_width) rest (lines, w0) in
      lines ++ [current_line]
  end.

Definition _wrap_text (text : str) (font : Font) (max_width : Z) : list str :=
  fold_left (wrap_paragraph font max_width) (py_split_on NEWLINE text) [].

(** What one paragraph contributes to the lines. *)
Definition paragraph_lines (font : Font) (max_width : Z) (paragraph : str)
    : list str :=
  wrap_paragraph font max_width [] paragraph.

(** A group of words that fits on a line: of two or more words only when
    their joined line measures at most [max_width]. *)
Definition fits (font : Font) (max_width : Z) (g : list str) : Prop :=
  g <> [] /\ Forall is_word g /\
  ((2 <= length g)%nat -> line_width font (join_words g) <= max_width).

(** *** The stamp's size *)

(** Lines 279-291: the size the stamp is resized to. *)
Definition stamp_draw_size (s : Settings) (stamp : Image) : result (Z * Z) :=
  let* stamp_width := py_int (PrimFloat.mul (float_of_Z (width stamp)) (stamp_scale s)) in
  let* stamp_height := py_int (PrimFloat.mul (float_of_Z (height stamp)) (stamp_scale s)) in
  if panel_width s - 20 <? stamp_width then
    let* ratio := py_truediv (panel_width s - 20) stamp_width in
    let stamp_width := panel_width s - 20 in
    let* stamp_height := py_int (PrimFloat.mul (float_of_Z stamp_height) ratio) in
    Ok (stamp_width, stamp_height)
  else Ok (stamp_width, stamp_height).

(** Lines 139-148 and 191-200: the height reserved for the stamp in the
    sizing pass, against the available width [avail]. *)
Definition stamp_reserve (s : Settings) (stamp_image : option Image) (avail : Z)
    : result Z :=
  match stamp_image with
  | Some stamp =>
      if stamp_enabled s then
        let* stamp_width := py_int (PrimFloat.mul (float_of_Z (width stamp)) (stamp_scale s)) in
        let* stamp_height := py_int (PrimFloat.mul (float_of_Z (height stamp)) (stamp_scale s)) in
        let* stamp_height :=
          if avail <? stamp_width then
            let* ratio := py_truediv avail stamp_width in
            py_int (PrimFloat.mul (float_of_Z stamp_height) ratio)
          else Ok stamp_height in
        Ok (stamp_height + 40)
      else Ok 0
  | None => Ok 0
  end.

(** *** The sizing pass *)

(** [excel_data.get(key)] as a condition: present and not empty. *)
Definition has_field (excel_data : gmap str str) (key : str) : bool :=
  match excel_data !! key with
  | Some (_ :: _) => true
  | _ => false
  end.

(** [excel_data[key]]. *)
Definition field (excel_data : gmap str str) (key : str) : str :=
  default [] (excel_data !! key).

(** "Поставщик:\n", "Ссылка: ", "ИНН: ", "КПП: ". *)
Definition SUPPLIER_LABEL : str :=
  [1055; 1086; 1089; 1090; 1072; 1074; 1097; 1080; 1082; 58; 10]%N.
Definition LINK_LABEL : str := [1057; 1089; 1099; 1083; 1082; 1072; 58; 32]%N.
Definition INN_LABEL : str := [1048; 1053; 1053; 58; 32]%N.
Definition KPP_LABEL : str := [1050; 1055; 1055; 58; 32]%N.

Definition lines_height (font : Font) (avail line_height : Z) (text : str) : Z :=
  Z.of_nat (length (_wrap_text text font avail)) * line_height.

(** The loop over [fixed_texts] of the sizing pass. *)
Definition fixed_texts_height (font : Font) (avail line_height : Z)
    (fixed_texts : list str) (h : Z) : Z :=
  fold_left (fun h text =>
               match text with
               | [] => h
               | _ => h + lines_height font avail line_height text
               end) fixed_texts h.

(** The height both branches accumulate, from the initial 20 to the
    stamp; [avail] is [panel_width - 20] on the left and
    [original.width - 20] at the bottom. *)
Definition content_height (s : Settings) (font : Font) (stamp_image : option Image)
    (excel_data : gmap str str) (fixed_texts : list str) (avail : Z) : result Z :=
  let line_height := font_size s + 8 in
  let h := 20 in
  let h := if inn_enabled s && has_field excel_data (lit "inn")
           then h + line_height else h in
  let h := if kpp_enabled s && has_field excel_data (lit "kpp")
           then h + line_height else h in
  let h := if supplier_enabled s && has_field excel_data (lit "supplier")
           then h + lines_height font avail line_height
                      (SUPPLIER_LABEL ++ field excel_data (lit "supplier"))
           else h in
  let h := if hyperlink_enabled s && has_field excel_data (lit "hyperlink")
           then h + lines_height font avail line_height
                      (LINK_LABEL ++ field excel_data (lit "hyperlink"))
           else h in
  let h := h + 25 in
  let h := fixed_texts_height font avail line_height fixed_texts h in
  let* reserve := stamp_reserve s stamp_image avail in
  Ok (h + reserve).

(** [required_height] of the left branch (lines 107-148). *)
Definition required_height (s : Settings) (font : Font) (stamp_image : option Image)
    (excel_data : gmap str str) (fixed_texts : list str) : result Z :=
  content_height s font stamp_image excel_data fixed_texts (panel_width s - 20).

(** [panel_height] of the bottom branch (lines 159-203). *)
Definition panel_height (s : Settings) (font : Font) (stamp_image : option Image)
    (original : Image) (excel_data : gmap str str) (fixed_texts : list str)
    : result Z :=
  let* h := content_height s font stamp_image excel_data fixed_texts
              (width original - 20) in
  Ok (h + 20).

(** The canvas, where the source goes, and the panel rectangle
    [(left, top, right, bottom)]. *)
Record Layout := {
  new_width : Z;
  new_height : Z;
  paste_at : Z * Z;
  panel_area : Z * Z * Z * Z
}.

(** Lines 104-209, without the two library calls. *)
Definition layout (s : Settings) (font : Font) (stamp_image : option Image)
    (original : Image) (excel_data : gmap str str) (fixed_texts : list str)
    : result Layout :=
  if decide (position s = lit "left") then
    let* required_height := required_height s font stamp_image excel_data fixed_texts in
    let new_height := Z.max (height original) (required_height + 20) in
    let new_width := width original + panel_width s in
    Ok {| new_width := new_width; new_height := new_height;
          paste_at := (panel_width s, 0);
          panel_area := (0, 0, panel_width s, new_height) |}
  else
    let* panel_height := panel_height s font stamp_image original excel_data fixed_texts in
    let new_width := width original in
    let new_height := height original + panel_height in
    Ok {| new_width := new_width; new_height := new_height;
          paste_at := (0, 0);
          panel_area := (0, height original, new_width, new_height) |}.

(** *** The drawing pass *)

(** [for line in lines: draw.text((text_x, text_y), line); text_y += line_height]
    (supplier and hyperlink); returns the new [text_y]. *)
Fixpoint draw_lines (env : Env) (text_x line_height : Z) (lines : list str)
    (text_y : Z) : M Z :=
  match lines with
  | [] => mret text_y
  | line :: rest =>
      let+ _ := call env (DrawText text_x text_y line) in
      draw_lines env text_x line_height rest (text_y + line_height)
  end.

(** The inner loop of the fixed texts (lines 269-273): the bound is
    tested, then the line is drawn at the offset position. *)
Fixpoint draw_fixed_lines (env : Env) (text_x line_height bound : Z)
    (offset : Z * Z) (lines : list str) (current_y : Z) : M unit :=
  match lines with
  | [] => mret tt
  | line :: rest =>
      let+ _ := (if bound <? current_y + line_height
                 then say (Warning current_y bound) else mret tt) in
      let+ _ := call env (DrawText (text_x + fst offset) (current_y + snd offset) line) in
      draw_fixed_lines env text_x line_height bound offset rest (current_y + line_height)
  end.

(** The loop [for i, text in enumerate(fixed_texts)] from index [i] on
    (lines 262-276); returns the new [text_y]. *)
Fixpoint draw_fixed_texts (env : Env) (s : Settings) (font : Font)
    (text_x line_height bound : Z) (i : nat) (fixed_texts : list str)
    (text_y : Z) : M Z :=
  match fixed_texts with
  | [] => mret text_y
  | text :: rest =>
      match text with
      | [] => draw_fixed_texts env s font text_x line_height bound (S i) rest text_y
      | _ =>
          let offset := element_offsets s (ElText (i + 1)) in
          let lines := _wrap_text text font (panel_width s - 20) in
          let current_y := text_y in
          let+ _ := draw_fixed_lines env text_x line_height bound offset lines current_y in
          draw_fixed_texts env s font text_x line_height bound (S i) rest
            (text_y + Z.of_nat (length lines) * line_height)
      end
  end.

(** Lines 228-257: the spreadsheet fields and the separator; returns
    [text_y] as it stands before the fixed texts. *)
Definition draw_fields (env : Env) (s : Settings) (font : Font)
    (excel_data : gmap str str) (text_x text_y : Z) : M Z :=
  let line_height := font_size s + 8 in
  let+ text_y :=
    (if inn_enabled s && has_field excel_data (lit "inn") then
       let '(offset_x, offset_y) := element_offsets s ElInn in
       let+ _ := call env (DrawText (text_x + offset_x) (text_y + offset_y)
                             (INN_LABEL ++ field excel_data (lit "inn"))) in
       mret (text_y + line_height)
     else mret text_y) in
  let+ text_y :=
    (if kpp_enabled s && has_field excel_data (lit "kpp") then
       let '(offset_x, offset_y) := element_offsets s ElKpp in
       let+ _ := call env (DrawText (text_x + offset_x) (text_y + offset_y)
                             (KPP_LABEL ++ field excel_data (lit "kpp"))) in
       mret (text_y + line_height)
     else mret text_y) in
  let+ text_y :=
    (if supplier_enabled s && has_field excel_data (lit "supplier") then
       let supplier_text := SUPPLIER_LABEL ++ field excel_data (lit "supplier") in
       let lines := _wrap_text supplier_text font (panel_width s - 20) in
       draw_lines env text_x line_height lines text_y
     else mret text_y) in
  let+ text_y :=
    (if hyperlink_enabled s && has_field excel_data (lit "hyperlink") then
       let link_lines := _wrap_text (LINK_LABEL ++ field excel_data (lit "hyperlink"))
                           font (panel_width s - 20) in
       draw_lines env text_x line_height link_lines text_y
     else mret text_y) in
  let text_y := text_y + 10 in
  let+ _ := call env (DrawLine text_x text_y (panel_width s - 10) text_y) in
  let text_y := text_y + 15 in
  mret text_y.

(** Lines 279-303: the stamp.  An exception of the final paste is caught
    and only printed. *)
Definition draw_stamp (env : Env) (s : Settings) (stamp_image : option Image)
    (text_x text_y : Z) : M unit :=
  match stamp_image with
  | Some stamp =>
      if stamp_enabled s then
        let+ stamp_size := lift (stamp_draw_size s stamp) in
        let '(stamp_width, stamp_height) := stamp_size in
        let+ _ := call env (ResizeStamp stamp_width stamp_height) in
        let stamp_y := text_y + 20 in
        let '(offset_x, offset_y) := element_offsets s ElStamp in
        match perform env (PasteStamp stamp_width stamp_height
                             (text_x + offset_x) (stamp_y + offset_y)) with
        | Ok _ => say (PasteStamp stamp_width stamp_height
                         (text_x + offset_x) (stamp_y + offset_y))
        | Raise _ => mret tt
        end
      else mret tt
  | None => mret tt
  end.

(** Lines 305-321: saving. *)
Definition save_result (env : Env) (s : Settings) (output_path : str) : M unit :=
  let fmt := output_format s in
  let+ _ := call env (MkdirParent output_path) in
  let+ _ := (if decide (fmt = lit "jpg" \/ fmt = lit "jpeg" \/ fmt = lit "pdf")
             then call env ConvertRGB else mret tt) in
  if decide (fmt = lit "pdf") then call env (SavePdf output_path)
  else if decide (fmt = lit "jpg" \/ fmt = lit "jpeg") then call env (SaveJpeg output_path)
  else call env (SavePng output_path).

(** The body of the [try] block (lines 81-323). *)
Definition process_image_body (env : Env) (s : Settings) (stamp_image : option Image)
    (image_path : str) (excel_data : gmap str str) (fixed_texts : list str)
    (output_path : str) : M (bool * str) :=
  let+ original := lift (image_open env image_path) in
  let+ font := lift (get_font env (font_size s)) in
  let line_height := font_size s + 8 in
  let+ lay := lift (layout s font stamp_image original excel_data fixed_texts) in
  let+ _ := call env (NewImage (new_width lay) (new_height lay) (background_color s)) in
  let+ _ := call env (PasteOriginal (fst (paste_at lay)) (snd (paste_at lay))) in
  let '(x0, y0, _, y1) := panel_area lay in
  let base_text_x := x0 + 10 in
  let base_text_y := y0 + 10 in
  let text_x := base_text_x in
  let text_y := base_text_y in
  let+ text_y := draw_fields env s font excel_data text_x text_y in
  let+ text_y := draw_fixed_texts env s font text_x line_height y1 0
                   fixed_texts text_y in
  let+ _ := draw_stamp env s stamp_image text_x text_y in
  let+ _ := save_result env s output_path in
  mret (true, lit "OK").

(** A stamp call carries the size [stamp_draw_size] computed. *)
Definition stamp_sized (s : Settings) (stamp_image : option Image)
    (op : draw_op) : Prop :=
  match op with
  | ResizeStamp w h | PasteStamp w h _ _ =>
      exists stamp, stamp_image = Some stamp /\ stamp_enabled s = true /\
                    stamp_draw_size s stamp = Ok (w, h)
  | _ => True
  end.

(** A call other than the out-of-bounds message. *)
Definition is_warning (op : draw_op) : bool :=
  match op with
  | Warning _ _ => true
  | _ => false
  end.

Definition no_warning (op : draw_op) : Prop := is_warning op = false.

(** The height the sizing pass has accumulated when it reaches the fixed
    texts: the initial 20, the enabled fields, and the separator's 25. *)
Definition height_before_fixed_texts (s : Settings) (font : Font)
    (excel_data : gmap str str) (avail : Z) : Z :=
  let line_height := font_size s + 8 in
  20
  + (if inn_enabled s && has_field excel_data (lit "inn") then line_height else 0)
  + (if kpp_enabled s && has_field excel_data (lit "kpp") then line_height else 0)
  + (if supplier_enabled s && has_field excel_data (lit "supplier")
     then lines_height font avail line_height
            (SUPPLIER_LABEL ++ field excel_data (lit "supplier"))
     else 0)
  + (if hyperlink_enabled s && has_field excel_data (lit "hyperlink")
     then lines_height font avail line_height
            (LINK_LABEL ++ field excel_data (lit "hyperlink"))
     else 0)
  + 25.

(** "Ошибка обработки: ". *)
Definition ERROR_PREFIX : str :=
  [1054; 1096; 1080; 1073; 1082; 1072; 32; 1086; 1073; 1088; 1072; 1073;
   1086; 1090; 1082; 1080; 58; 32]%N.

(** [process_image]: the [try] block and its [except Exception] handler.
    The first component is the list of calls made. *)
Definition process_image (env : Env) (s : Settings) (stamp_image : option Image)
    (image_path : str) (excel_data : gmap str str) (fixed_texts : list str)
    (output_path : str) : list draw_op * (bool * str) :=
  match process_image_body env s stamp_image image_path excel_data fixed_texts output_path with
  | (calls, Ok r) => (calls, r)
  | (calls, Raise e) => (calls, (false, ERROR_PREFIX ++ e))
  end.

End ImageProcessor.

(** ** worker.py *)

Module Worker.
Import PyNum.

Record ProcessingTask := {
  image_path : str;
  output_path : str;
  excel_data : gmap str str;
  fixed_texts : list str
}.

Record ProcessingResult := {
  filename : str;
  success : bool;
  message : str;
  processing_time : float
}.

(** The statistics dictionary. *)
Record Stats := {
  st_processed : Z;
  st_total : Z;
  st_success : Z;
  st_failed : Z;
  st_skipped : Z;
  st_elapsed : float;
  st_speed : pynum;
  st_remaining : pynum;
  st_percent : pynum
}.

(** The emissions of [WorkerSignals]. *)
Inductive signal :=
| Started
| Finished
| Error (filename msg : str)
| Progress (current total : Z) (filename : str)
| FileProcessed (filename : str) (success : bool) (message : str)
| Statistics (stats : Stats).

(** The fields of a [ProcessingWorker] that [run] and the controls read
    or write.  An [Event] is the boolean "is set"; [signals] lists what
    was emitted, oldest first. *)
Record ProcessingWorker := {
  tasks : list ProcessingTask;
  has_checkpoint_callback : bool;
  _is_paused : bool;
  _is_cancelled : bool;
  _processed_count : Z;
  _success_count : Z;
  _failed_count : Z;
  _skipped_count : Z;
  _total_files : Z;
  _batch_size : Z;
  _auto_save_interval : Z;
  signals : list signal
}.

(** [__init__]. *)
Definition init (tasks : list ProcessingTask) (callback : bool)
    (batch_size auto_save_interval : Z) : ProcessingWorker :=
  {| tasks := tasks; has_checkpoint_callback := callback;
     _is_paused := true;            (* self._is_paused.set() *)
     _is_cancelled := false;
     _processed_count := 0; _success_count := 0; _failed_count := 0;
     _skipped_count := 0;
     _total_files := Z.of_nat (length tasks);
     _batch_size := batch_size; _auto_save_interval := auto_save_interval;
     signals := [] |}.

Definition emit (sg : signal) (w : ProcessingWorker) : ProcessingWorker :=
  {| tasks := tasks w; has_checkpoint_callback := has_checkpoint_callback w;
     _is_paused := _is_paused w; _is_cancelled := _is_cancelled w;
     _processed_count := _processed_count w; _success_count := _success_count w;
     _failed_count := _failed_count w; _skipped_count := _skipped_count w;
     _total_files := _total_files w; _batch_size := _batch_size w;
     _auto_save_interval := _auto_save_interval w;
     signals := signals w ++ [sg] |}.

Definition set_events (paused cancelled : bool) (w : ProcessingWorker)
    : ProcessingWorker :=
  {| tasks := tasks w; has_checkpoint_callback := has_checkpoint_callback w;
     _is_paused := paused; _is_cancelled := cancelled;
     _processed_count := _processed_count w; _success_count := _success_count w;
     _failed_count := _failed_count w; _skipped_count := _skipped_count w;
     _total_files := _total_files w; _batch_size := _batch_size w;
     _auto_save_interval := _auto_save_interval w;
     signals := signals w |}.

(** The three counters after one more result. *)
Definition count_result (ok : bool) (w : ProcessingWorker) : ProcessingWorker :=
  {| tasks := tasks w; has_checkpoint_callback := has_checkpoint_callback w;
     _is_paused := _is_paused w; _is_cancelled := _is_cancelled w;
     _processed_count := _processed_count w + 1;
     _success_count := if ok then _success_count w + 1 else _success_count w;
     _failed_count := if ok then _failed_count w else _failed_count w + 1;
     _skipped_count := _skipped_count w;
     _total_files := _total_files w; _batch_size := _batch_size w;
     _auto_save_interval := _auto_save_interval w;
     signals := signals w |}.

(** The controls. *)
Definition pause (w : ProcessingWorker) := set_events false (_is_cancelled w) w.
Definition resume (w : ProcessingWorker) := set_events true (_is_cancelled w) w.
Definition cancel (w : ProcessingWorker) := set_events true true w.
Definition is_paused (w : ProcessingWorker) : bool := negb (_is_paused w).
Definition is_cancelled (w : ProcessingWorker) : bool := _is_cancelled w.
Definition get_progress (w : ProcessingWorker) : Z * Z :=
  (_processed_count w, _total_files w).

(** [a / b] on numbers: a [float], or [ZeroDivisionError]. *)
Definition py_div (a b : pynum) : result pynum :=
  match a, b with
  | PyInt x, PyInt y => let* q := py_truediv x y in Ok (PyFloat q)
  | _, _ =>
      if PrimFloat.eqb (to_float b) 0%float then Raise (lit "float division by zero")
      else Ok (PyFloat (PrimFloat.div (to_float a) (to_float b)))
  end.

(** [a * b] where [a] is a [float]. *)
Definition py_mul (a b : pynum) : pynum :=
  PyFloat (PrimFloat.mul (to_float a) (to_float b)).

(** [self._processed_count / self._total_files * 100]. *)
Definition percent_of (processed total : Z) : result pynum :=
  let* q := py_div (PyInt processed) (PyInt total) in
  Ok (py_mul q (PyInt 100)).

(** [_emit_statistics]; [elapsed] is [time.time() - self._start_time]. *)
Definition _emit_statistics (elapsed : float) (w : ProcessingWorker)
    : result ProcessingWorker :=
  let* speed :=
    if PrimFloat.ltb 0%float elapsed
    then py_div (PyInt (_processed_count w)) (PyFloat elapsed)
    else Ok (PyInt 0) in
  let* remaining :=
    if is_positive speed
    then py_div (PyInt (_total_files w - _processed_count w)) speed
    else Ok (PyInt 0) in
  let* percent :=
    if 0 <? _total_files w
    then percent_of (_processed_count w) (_total_files w)
    else Ok (PyInt 0) in
  Ok (emit (Statistics
              {| st_processed := _processed_count w; st_total := _total_files w;
                 st_success := _success_count w; st_failed := _failed_count w;
                 st_skipped := _skipped_count w; st_elapsed := elapsed;
                 st_speed := speed; st_remaining := remaining;
                 st_percent := percent |}) w).

(** [_emit_final_statistics]. *)
Definition _emit_final_statistics (elapsed : float) (w : ProcessingWorker)
    : result ProcessingWorker :=
  let* speed :=
    if PrimFloat.ltb 0%float elapsed
    then py_div (PyInt (_processed_count w)) (PyFloat elapsed)
    else Ok (PyInt 0) in
  let* percent :=
    if _processed_count w =? _total_files w
    then Ok (PyInt 100)
    else percent_of (_processed_count w) (_total_files w) in
  Ok (emit (Statistics
              {| st_processed := _processed_count w; st_total := _total_files w;
                 st_success := _success_count w; st_failed := _failed_count w;
                 st_skipped := _skipped_count w; st_elapsed := elapsed;
                 st_speed := speed; st_remaining := PyInt 0;
                 st_percent := percent |}) w).

(** [_handle_result]. *)
Definition _handle_result (elapsed : float) (r : ProcessingResult)
    (w : ProcessingWorker) : result ProcessingWorker :=
  let w := count_result (success r) w in
  let w := emit (FileProcessed (filename r) (success r) (message r)) w in
  let w := emit (Progress (_processed_count w) (_total_files w) (filename r)) w in
  if _processed_count w mod 10 =? 0 then _emit_statistics elapsed w
  else Ok w.

(** *** [run] as a transition system *)

(** Where the worker's thread stands in [run]. *)
Inductive pc :=
| AtStart                   (* line 85 *)
| AtSetup                   (* lines 89-94 *)
| SubmitCheck (i : nat)     (* line 102, [i] tasks taken so far *)
| SubmitWait (i : nat)      (* line 106 *)
| SubmitTask (i : nat)      (* line 109 *)
| NextFuture                (* line 117, asking [as_completed] *)
| ResultCheck (f : nat)     (* line 118, holding future [f] *)
| ResultWait (f : nat)      (* line 121 *)
| ResultHandle (f : nat)    (* lines 123-133 *)
| AfterHandle               (* lines 136-142 *)
| Shutdown                  (* leaving the [with] block *)
| Except (e : str)          (* line 145 *)
| Finally                   (* lines 147-148 *)
| Done.

(** The worker object, the thread's position, the futures submitted (by
    task index) and the ones [as_completed] has handed out. *)
Record state := {
  worker : ProcessingWorker;
  at_pc : pc;
  futures : list nat;
  yielded : list nat
}.

Definition initial (w : ProcessingWorker) : state :=
  {| worker := w; at_pc := AtStart; futures := []; yielded := [] |}.

Definition goto (p : pc) (s : state) : state :=
  {| worker := worker s; at_pc := p; futures := futures s; yielded := yielded s |}.

Definition with_worker (w : ProcessingWorker) (p : pc) (s : state) : state :=
  {| worker := w; at_pc := p; futures := futures s; yielded := yielded s |}.

(** "Критическая ошибка: ". *)
Definition CRITICAL_PREFIX : str :=
  [1050; 1088; 1080; 1090; 1080; 1095; 1077; 1089; 1082; 1072; 1103; 32;
   1086; 1096; 1080; 1073; 1082; 1072; 58; 32]%N.

(** One step of the worker's thread.  The pool, the clock and the
    callbacks are the environment: which future completes next, with what
    result (that of [_process_single_file], or the failure built when
    [future.result] raises), at what time, and whether the processor
    factory or the checkpoint callback raises, is not determined.  After
    a result, a zero [auto_save_interval] or [batch_size] raises
    [ZeroDivisionError] in the modulo. *)
Inductive run_step : state -> state -> Prop :=
| step_start s :
    at_pc s = AtStart ->
    run_step s (with_worker (emit Started (worker s)) AtSetup s)
| step_setup s :
    at_pc s = AtSetup ->
    run_step s (goto (SubmitCheck 0) s)
| step_setup_raises s e :
    at_pc s = AtSetup ->
    run_step s (goto (Except e) s)
| step_submit_cancelled s i :
    at_pc s = SubmitCheck i -> (i < length (tasks (worker s)))%nat ->
    _is_cancelled (worker s) = true ->
    run_step s (goto NextFuture s)
| step_submit_continue s i :
    at_pc s = SubmitCheck i -> (i < length (tasks (worker s)))%nat ->
    _is_cancelled (worker s) = false ->
    run_step s (goto (SubmitWait i) s)
| step_submit_exhausted s i :
    at_pc s = SubmitCheck i -> (length (tasks (worker s)) <= i)%nat ->
    run_step s (goto NextFuture s)
| step_submit_wait s i :
    at_pc s = SubmitWait i -> _is_paused (worker s) = true ->
    run_step s (goto (SubmitTask i) s)
| step_submit_task s i :
    at_pc s = SubmitTask i ->
    run_step s {| worker := worker s; at_pc := SubmitCheck (S i);
                  futures := futures s ++ [i]; yielded := yielded s |}
| step_next_future s f :
    at_pc s = NextFuture -> f ∈ futures s -> f ∉ yielded s ->
    run_step s {| worker := worker s; at_pc := ResultCheck f;
                  futures := futures s; yielded := f :: yielded s |}
| step_no_future s :
    at_pc s = NextFuture -> (forall f, f ∈ futures s -> f ∈ yielded s) ->
    run_step s (goto Shutdown s)
| step_result_cancelled s f :
    at_pc s = ResultCheck f -> _is_cancelled (worker s) = true ->
    run_step s (goto Shutdown s)
| step_result_continue s f :
    at_pc s = ResultCheck f -> _is_cancelled (worker s) = false ->
    run_step s (goto (ResultWait f) s)
| step_result_wait s f :
    at_pc s = ResultWait f -> _is_paused (worker s) = true ->
    run_step s (goto (ResultHandle f) s)
| step_handle s f elapsed r w' :
    at_pc s = ResultHandle f ->
    _handle_result elapsed r (worker s) = Ok w' ->
    run_step s (with_worker w' AfterHandle s)
| step_after_handle s :
    at_pc s = AfterHandle ->
    _auto_save_interval (worker s) <> 0 -> _batch_size (worker s) <> 0 ->
    run_step s (goto NextFuture s)
| step_after_handle_raises s e :
    at_pc s = AfterHandle ->
    _auto_save_interval (worker s) = 0 \/ _batch_size (worker s) = 0 \/
    (has_checkpoint_callback (worker s) = true /\
     _processed_count (worker s) mod _auto_save_interval (worker s) = 0) ->
    run_step s (goto (Except e) s)
| step_shutdown s :
    at_pc s = Shutdown ->
    run_step s (goto Finally s)
| step_except s e :
    at_pc s = Except e ->
    run_step s (with_worker (emit (Error [] (CRITICAL_PREFIX ++ e)) (worker s)) Finally s)
| step_finally s elapsed w' :
    at_pc s = Finally ->
    _emit_final_statistics elapsed (worker s) = Ok w' ->
    run_step s (with_worker (emit Finished w') Done s)
| step_finally_raises s elapsed e :
    at_pc s = Finally ->
    _emit_final_statistics elapsed (worker s) = Raise e ->
    run_step s (goto Done s).

(** A call of the GUI thread on the worker object. *)
Inductive control := Pause | Resume | Cancel.

Definition apply_control (c : control) (s : state) : state :=
  with_worker (match c with
               | Pause => pause (worker s)
               | Resume => resume (worker s)
               | Cancel => cancel (worker s)
               end) (at_pc s) s.

(** One step of the whole: the worker's thread moves, or a control is
    called. *)
Inductive step : state -> state -> Prop :=
| step_run s s' : run_step s s' -> step s s'
| step_control c s : step s (apply_control c s).

(** A step after which [pause()] is no longer called. *)
Inductive step_no_pause : state -> state -> Prop :=
| np_run s s' : run_step s s' -> step_no_pause s s'
| np_control c s : c <> Pause -> step_no_pause s (apply_control c s).

(** How many steps of its own the cancelled worker has left at most. *)
Definition rank (p : pc) : nat :=
  match p with
  | Done => 0
  | Finally => 1
  | Except _ => 2
  | Shutdown => 2
  | ResultCheck _ => 3
  | NextFuture => 4
  | AfterHandle => 5
  | ResultHandle _ => 6
  | ResultWait _ => 7
  | SubmitCheck _ => 5
  | SubmitTask _ => 6
  | SubmitWait _ => 7
  | AtSetup => 6
  | AtStart => 7
  end%nat.

(** Whether a submission, or a result, was past its cancellation check
    and is still to come. *)
Definition submit_in_flight (p : pc) : nat :=
  match p with
  | SubmitWait _ | SubmitTask _ => 1
  | _ => 0
  end%nat.

Definition handle_in_flight (p : pc) : Z :=
  match p with
  | ResultWait _ | ResultHandle _ => 1
  | _ => 0
  end.

(** A result that was handed out and is not yet counted. *)
Definition result_pending (p : pc) : Z :=
  match p with
  | ResultCheck _ | ResultWait _ | ResultHandle _ => 1
  | _ => 0
  end.

(** The task indices submitted so far stay below this bound. *)
Definition submit_bound (n : nat) (p : pc) (f : nat) : Prop :=
  match p with
  | SubmitCheck i => (f < i /\ i <= n)%nat
  | SubmitWait i | SubmitTask i => (f < i /\ i < n)%nat
  | AtStart | AtSetup => False
  | _ => (f < n)%nat
  end.

Definition submit_index_ok (n : nat) (p : pc) : Prop :=
  match p with
  | SubmitCheck i => (i <= n)%nat
  | SubmitWait i | SubmitTask i => (i < n)%nat
  | _ => True
  end.

(** The [(current, total)] of a progress signal. *)
Definition progress_pair (sg : signal) : option (Z * Z) :=
  match sg with
  | Progress current total _ => Some (current, total)
  | _ => None
  end.

(** The percent of a statistics signal: the quotient times 100, computed
    with a total above zero; or the constant 100 of the final statistics
    when all files are processed. *)
Definition percent_ok (total : Z) (sg : signal) : Prop :=
  match sg with
  | Statistics st =>
      st_total st = total /\
      ((0 < total /\ percent_of (st_processed st) total = Ok (st_percent st)) \/
       (st_processed st = total /\ st_percent st = PyInt 100))
  | _ => True
  end.

(** What holds of every state of a run over [n] tasks. *)
Definition run_invariant (n : nat) (s : state) : Prop :=
  let w := worker s in
  _processed_count w = _success_count w + _failed_count w /\
  _total_files w = Z.of_nat n /\ length (tasks w) = n /\
  0 <= _processed_count w /\
  _processed_count w + result_pending (at_pc s) <= Z.of_nat (length (yielded s)) /\
  NoDup (yielded s) /\ (forall f, f ∈ yielded s -> f ∈ futures s) /\
  NoDup (futures s) /\ (forall f, f ∈ futures s -> submit_bound n (at_pc s) f) /\
  submit_index_ok n (at_pc s) /\
  omap progress_pair (signals w)
  = map (fun k => (Z.of_nat k, Z.of_nat n)) (seq 1 (Z.to_nat (_processed_count w))) /\
  Forall (percent_ok (Z.of_nat n)) (signals w).

End Worker.

(** ** Concrete inputs used in the examples *)

Module Samples.

(** A sheet whose cells are strings: ten header rows, then the positions
    1.1 and 2.3 (the second padded with blanks), then an empty row. *)
Definition data_row (position supplier kpp inn link : str) : Excel.row str :=
  [Some position] ++ replicate 18 None
  ++ [Some supplier; None; Some kpp; Some inn; Some link].

Definition sample_sheet : list (Excel.row str) :=
  replicate 10 [] ++
  [data_row (lit "1.1") (lit "Acme Ltd") (lit "770101001") (lit "7701234567") (lit "");
   data_row (lit " 2.3 ") (lit "Bolt LLC") (lit "780201002") (lit "7802345678") (lit "");
   []].

Definition sample_reader : Excel.ExcelReader str :=
  {| Excel.sheet := sample_sheet; Excel.data := ∅; Excel._loaded := true |}.

Definition parsed_reader : Excel.ExcelReader str :=
  fst (Excel.parse str id None sample_reader).

(** An imaging library in which every call succeeds: images are 1000 by
    500, and the font has glyphs 7 wide and 12 high. *)
Definition mono_font : ImageProcessor.Font :=
  {| ImageProcessor.getbbox :=
       fun text => Some (0, 0, 7 * Z.of_nat (length text), 12);
     ImageProcessor.size := 12 |}.

Definition sample_env : ImageProcessor.Env :=
  {| ImageProcessor.image_open :=
       fun _ => Ok {| ImageProcessor.width := 1000; ImageProcessor.height := 500 |};
     ImageProcessor.get_font := fun _ => Ok mono_font;
     ImageProcessor.perform := fun _ => Ok tt |}.

(** The settings the main window passes: panel 300 wide, font size 12,
    stamp at 150%. *)
Definition sample_settings (position : str) : ImageProcessor.Settings :=
  {| ImageProcessor.panel_width := 300;
     ImageProcessor.position := position;
     ImageProcessor.background_color := lit "#FFFFFF";
     ImageProcessor.font_size := 12;
     ImageProcessor.text_color := lit "#000000";
     ImageProcessor.output_format := lit "png";
     ImageProcessor.inn_enabled := true;
     ImageProcessor.kpp_enabled := true;
     ImageProcessor.supplier_enabled := true;
     ImageProcessor.hyperlink_enabled := false;
     ImageProcessor.stamp_enabled := true;
     ImageProcessor.stamp_scale := 1.5%float;
     ImageProcessor.element_offsets := fun _ => (0, 0) |}.

Definition small_stamp : ImageProcessor.Image :=
  {| ImageProcessor.width := 100; ImageProcessor.height := 50 |}.

Definition wide_stamp : ImageProcessor.Image :=
  {| ImageProcessor.width := 400; ImageProcessor.height := 200 |}.

Definition sample_row : gmap str str :=
  <[lit "inn" := lit "7701234567"]> (<[lit "supplier" := lit "Acme Ltd"]> ∅).

(** A fixed text of thirteen nine-letter words: 129 characters. *)
Definition long_text : str :=
  join_words (replicate 13 (lit "annotated")).

(** One task and its successful result. *)
Definition one_task : Worker.ProcessingTask :=
  {| Worker.image_path := lit "in/1-1.png"; Worker.output_path := lit "out/1-1.png";
     Worker.excel_data := sample_row; Worker.fixed_texts := [long_text] |}.

Definition ok_result : Worker.ProcessingResult :=
  {| Worker.filename := lit "1-1.png"; Worker.success := true;
     Worker.message := lit "OK"; Worker.processing_time := 0.25%float |}.

End Samples.

(** * Further functions of the same files *)

(** ** excel_reader.py: the remaining accessors *)

Module ExcelAccess.

Section Accessors.

Variable value : Type.
Variable py_str : value -> str.

(** [get_record_count]. *)
Definition get_record_count (rd : Excel.ExcelReader value) : nat :=
  size (Excel.data value rd).

(** [close]: the workbook is dropped and the reader is no longer loaded;
    the parsed data stays. *)
Definition close (rd : Excel.ExcelReader value) : Excel.ExcelReader value :=
  {| Excel.sheet := Excel.sheet value rd;
     Excel.data := Excel.data value rd;
     Excel._loaded := false |}.

(** The [row_data] dictionary [parse] builds for a row. *)
Definition row_fields (columns : list (str * Z)) (r : Excel.row value)
    : gmap str str :=
  match Excel.read_fields value py_str columns r ∅ with
  | Ok row_data => row_data
  | Raise _ => ∅
  end.

(** The last of the rows whose key is [key]. *)
Definition last_row_with_key (pos_col : Z) (key : str)
    (rows : list (Excel.row value)) : option (Excel.row value) :=
  List.find (fun r => bool_decide (Excel.row_key value py_str pos_col r = Some key))
            (rev rows).

End Accessors.

(** The first character of a string, if any, is no white space. *)
Definition starts_clean (s : str) : Prop :=
  match s with
  | c :: _ => py_isspace c = false
  | [] => True
  end.

(** An ASCII letter. *)
Definition is_ascii_letter (c : N) : bool :=
  ((65 <=? c) && (c <=? 90) || (97 <=? c) && (c <=? 122))%N.

End ExcelAccess.

(** ** checkpoint.py: statistics *)

Module CheckpointStats.
Import Checkpoint.

(** The dictionary [get_statistics] returns. *)
Record Statistics := {
  total : Z;
  processed : Z;
  failed : Z;
  pending : Z
}.

Definition get_statistics (d : CheckpointData) : Statistics :=
  {| total := default 0 (total_files d);
     processed := Z.of_nat (length (default [] (processed_files d)));
     failed := Z.of_nat (length (default [] (failed_files d)));
     pending := Z.of_nat (length (get_pending_files d)) |}.

(** The file a call marks, if it marks one. *)
Definition marked_file (u : update) : option str :=
  match u with
  | MarkProcessed f => Some f
  | MarkFailed f _ _ => Some f
  | SaveProgress _ => None
  end.

End CheckpointStats.

(** ** image_processor.py: where [_wrap_text] breaks a line *)

Module WrapChecks.
Import ImageProcessor.

Definition first_word (line : str) : option str := head (py_split line).

(** The line [l1] could not have taken the first word of [l2]. *)
Definition break_needed (font : Font) (max_width : Z) (l1 l2 : str) : bool :=
  match first_word l2 with
  | Some w => max_width <? line_width font (l1 ++ [SPACE] ++ w)
  | None => false
  end.

Fixpoint breaks_needed (font : Font) (max_width : Z) (lines : list str) : bool :=
  match lines with
  | l1 :: tl =>
      match tl with
      | l2 :: _ => break_needed font max_width l1 l2 && breaks_needed font max_width tl
      | [] => true
      end
  | [] => true
  end.

(** [s.count(c)]. *)
Definition count_char (c : N) (s : str) : nat :=
  length (List.filter (fun x => (x =? c)%N) s).

End WrapChecks.

(** ** image_processor.py: kinds of calls *)

Module CallKinds.
Import ImageProcessor.

(** A call that writes the output file. *)
Definition is_save (op : draw_op) : bool :=
  match op with
  | SavePdf _ | SaveJpeg _ | SavePng _ => true
  | _ => false
  end.

(** The paste of the stamp, whose exception [process_image] catches. *)
Definition is_stamp_paste (op : draw_op) : bool :=
  match op with
  | PasteStamp _ _ _ _ => true
  | _ => false
  end.

End CallKinds.

(** ** worker.py: the signals of a run, and pausing *)

Module WorkerRuns.
Import Worker.

Definition is_error (sg : signal) : bool :=
  match sg with Error _ _ => true | _ => false end.

Definition is_file_processed (sg : signal) : bool :=
  match sg with FileProcessed _ _ _ => true | _ => false end.

(** A signal of the middle of a run: neither [started] nor [finished]. *)
Definition is_middle (sg : signal) : bool :=
  match sg with Started | Finished => false | _ => true end.

(** The signals emitted so far, by the position of the thread in [run]. *)
Definition signal_protocol (s : state) : Prop :=
  let sigs := signals (worker s) in
  match at_pc s with
  | AtStart => sigs = []
  | Done => exists pre st, sigs = Started :: pre ++ [Statistics st; Finished] /\
                           forallb is_middle pre = true
  | _ => exists pre, sigs = Started :: pre /\ forallb is_middle pre = true
  end /\
  length (List.filter is_file_processed sigs) = Z.to_nat (_processed_count (worker s)) /\
  match at_pc s with
  | Finally | Done => (length (List.filter is_error sigs) <= 1)%nat
  | _ => List.filter is_error sigs = []
  end.

(** Not cancelled, and no critical error emitted. *)
Definition undisturbed (w : ProcessingWorker) : Prop :=
  _is_cancelled w = false /\ List.filter is_error (signals w) = [].

(** In an undisturbed run over [n] tasks: the tasks are submitted in
    order, and every future handed out is counted. *)
Definition all_handled_so_far (n : nat) (s : state) : Prop :=
  match at_pc s with
  | AtStart | AtSetup =>
      futures s = [] /\ yielded s = [] /\ _processed_count (worker s) = 0
  | SubmitCheck i | SubmitWait i | SubmitTask i =>
      futures s = seq 0 i /\ yielded s = [] /\ _processed_count (worker s) = 0
  | NextFuture | AfterHandle =>
      futures s = seq 0 n /\
      _processed_count (worker s) = Z.of_nat (length (yielded s))
  | ResultCheck _ | ResultWait _ | ResultHandle _ =>
      futures s = seq 0 n /\
      _processed_count (worker s) + 1 = Z.of_nat (length (yielded s))
  | Shutdown | Finally | Done =>
      futures s = seq 0 n /\ _processed_count (worker s) = Z.of_nat n
  | Except _ => True
  end.

(** A worker without a checkpoint callback whose batch size and
    auto-save interval are not zero: the lines 136-142 cannot raise. *)
Definition plain_config (w : ProcessingWorker) : Prop :=
  has_checkpoint_callback w = false /\ _batch_size w <> 0 /\
  _auto_save_interval w <> 0.

(** With such a worker an exception can only come from the setup (lines
    89-94), before any task is submitted. *)
Definition error_only_from_setup (s : state) : Prop :=
  match at_pc s with
  | AtStart | AtSetup | Except _ =>
      futures s = [] /\ _processed_count (worker s) = 0
  | Finally | Done =>
      List.filter is_error (signals (worker s)) <> [] ->
      futures s = [] /\ _processed_count (worker s) = 0
  | _ => True
  end.

(** A step while nobody resumes or cancels: the worker's thread moves, or
    [pause()] is called again. *)
Inductive step_paused : state -> state -> Prop :=
| sp_run s s' : run_step s s' -> step_paused s s'
| sp_pause s : step_paused s (apply_control Pause s).

(** Whether a submission, or a result, was past its wait and is still to
    come. *)
Definition past_submit_wait (p : pc) : nat :=
  match p with SubmitTask _ => 1 | _ => 0 end%nat.

Definition past_result_wait (p : pc) : Z :=
  match p with ResultHandle _ => 1 | _ => 0 end.

End WorkerRuns.

(** ** image_processor.py: [_get_font] *)

Module Fonts.
Import ImageProcessor.

(** What [ImageFont.truetype(path, size)] does: a font, an [OSError] (or
    [IOError], the same class), or another exception. *)
Inductive load :=
| Loaded (f : Font)
| OsError
| OtherError (msg : str).

(** The font files of the machine, and the built-in font of
    [ImageFont.load_default()]. *)
Record FontSystem := {
  truetype : str -> Z -> load;
  load_default : Font
}.

Definition FONT_PATHS : list str :=
  [lit "C:/Windows/Fonts/arial.ttf";
   lit "C:/Windows/Fonts/Arial.ttf";
   lit "/System/Library/Fonts/Supplemental/Arial.ttf";
   lit "/Library/Fonts/Arial.ttf";
   lit "/System/Library/Fonts/Helvetica.ttc";
   lit "/usr/share/fonts/truetype/liberation/LiberationSans-Regular.ttf";
   lit "/usr/share/fonts/truetype/dejavu/DejaVuSans.ttf";
   lit "arial.ttf";
   lit "Arial.ttf"].

(** The [for ... else] loop of lines 60-68: the font stored in the cache. *)
Fixpoint load_first (fs : FontSystem) (size : Z) (font_paths : list str)
    : result Font :=
  match font_paths with
  | [] => Ok (load_default fs)
  | font_path :: rest =>
      match truetype fs font_path size with
      | Loaded f => Ok f
      | OsError => load_first fs size rest
      | OtherError msg => Raise msg
      end
  end.

(** [_get_font]: the cache after the call, and the font or the exception. *)
Definition _get_font (fs : FontSystem) (_font_cache : gmap Z Font) (size : Z)
    : gmap Z Font * result Font :=
  match _font_cache !! size with
  | Some f => (_font_cache, Ok f)
  | None =>
      match load_first fs size FONT_PATHS with
      | Ok f => (<[size := f]> _font_cache, Ok f)
      | Raise e => (_font_cache, Raise e)
      end
  end.

End Fonts.

(** ** image_processor.py: the previews *)

Module Preview.
Import PyNum ImageProcessor.

(** [text[:n] + "..." if len(text) > n else text]. *)
Definition shorten (n : nat) (text : str) : str :=
  if (n <? length text)%nat then take n text ++ lit "..." else text.

(** "Поставщик:". *)
Definition SUPPLIER_HEADING : str :=
  [1055; 1086; 1089; 1090; 1072; 1074; 1097; 1080; 1082; 58]%N.

(** [min(settings.get("panel_width", 300), max_size[0] // 3)]. *)
Definition preview_panel_width (s : Settings) (max_size : Z * Z) : Z :=
  Z.min (panel_width s) (fst max_size / 3).

(** [max(8, settings.get("font_size", 12) - 2)]. *)
Definition preview_font_size (s : Settings) : Z := Z.max 8 (font_size s - 2).

(** Lines 494-501 and 634-641: the size of the stamp in the preview. *)
Definition preview_stamp_size (s : Settings) (panel_width : Z) (stamp : Image)
    : result (Z * Z) :=
  let* stamp_width := py_int (PrimFloat.mul (float_of_Z (width stamp)) (stamp_scale s)) in
  let* stamp_height := py_int (PrimFloat.mul (float_of_Z (height stamp)) (stamp_scale s)) in
  if panel_width - 20 <? stamp_width then
    let* ratio := py_truediv (panel_width - 20) stamp_width in
    let stamp_width := panel_width - 20 in
    let* stamp_height := py_int (PrimFloat.mul (float_of_Z stamp_height) ratio) in
    Ok (stamp_width, stamp_height)
  else Ok (stamp_width, stamp_height).

(** The loop of lines 431-433 and 575-577. *)
Definition preview_texts_height (line_height : Z) (fixed_texts : list str) (h : Z) : Z :=
  fold_left (fun h text => match text with [] => h | _ => h + line_height end)
            fixed_texts h.

(** Lines 404-454 and 556-596 (the same code in both previews): the
    canvas, without the two library calls.  The stamp's share of the
    height is [stamp_reserve] against [panel_width - 20]. *)
Definition preview_layout (s : Settings) (stamp_image : option Image)
    (original : Image) (excel_data : gmap str str) (fixed_texts : list str)
    (panel_width line_height : Z) : result Layout :=
  if decide (position s = lit "left") then
    let new_width := width original + panel_width in
    let new_height := height original in
    Ok {| new_width := new_width; new_height := new_height;
          paste_at := (panel_width, 0);
          panel_area := (0, 0, panel_width, new_height) |}
  else
    let panel_height := 20 in
    let panel_height := if inn_enabled s && has_field excel_data (lit "inn")
                        then panel_height + line_height else panel_height in
    let panel_height := if kpp_enabled s && has_field excel_data (lit "kpp")
                        then panel_height + line_height else panel_height in
    let panel_height := if supplier_enabled s && has_field excel_data (lit "supplier")
                        then panel_height + line_height * 2 else panel_height in
    let panel_height := panel_height + 5 in
    let panel_height := preview_texts_height line_height fixed_texts panel_height in
    let* reserve := stamp_reserve s stamp_image (panel_width - 20) in
    let panel_height := panel_height + reserve in
    let panel_height := panel_height + 20 in
    let new_width := width original in
    let new_height := height original + panel_height in
    Ok {| new_width := new_width; new_height := new_height;
          paste_at := (0, 0);
          panel_area := (0, height original, new_width, new_height) |}.

(** *** generate_preview *)

(** Lines 464-477: the fields drawn; returns the new [text_y]. *)
Definition draw_preview_fields (env : Env) (s : Settings) (excel_data : gmap str str)
    (text_x line_height text_y : Z) : M Z :=
  let+ text_y :=
    (if inn_enabled s && has_field excel_data (lit "inn") then
       let+ _ := call env (DrawText text_x text_y
                             (INN_LABEL ++ field excel_data (lit "inn"))) in
       mret (text_y + line_height)
     else mret text_y) in
  let+ text_y :=
    (if kpp_enabled s && has_field excel_data (lit "kpp") then
       let+ _ := call env (DrawText text_x text_y
                             (KPP_LABEL ++ field excel_data (lit "kpp"))) in
       mret (text_y + line_height)
     else mret text_y) in
  if supplier_enabled s && has_field excel_data (lit "supplier") then
    let supplier := shorten 30 (field excel_data (lit "supplier")) in
    let+ _ := call env (DrawText text_x text_y SUPPLIER_HEADING) in
    let text_y := text_y + line_height in
    let+ _ := call env (DrawText text_x text_y supplier) in
    mret (text_y + line_height)
  else mret text_y.

(** Lines 482-487: the fixed texts drawn, one shortened line each. *)
Fixpoint draw_preview_texts (env : Env) (text_x line_height : Z)
    (fixed_texts : list str) (text_y : Z) : M Z :=
  match fixed_texts with
  | [] => mret text_y
  | text :: rest =>
      match text with
      | [] => draw_preview_texts env text_x line_height rest text_y
      | _ =>
          let short_text := shorten 35 text in
          let+ _ := call env (DrawText text_x text_y short_text) in
          draw_preview_texts env text_x line_height rest (text_y + line_height)
      end
  end.

(** The body of the [try] block of [generate_preview], after the format
    was set (lines 385-512); [thumbnail] is [original.thumbnail(max_size)]
    of the imaging library.  The value is the size of the image
    returned. *)
Definition generate_preview_body (env : Env)
    (thumbnail : Image -> Z * Z -> result Image)
    (s : Settings) (stamp_image : option Image)
    (image_path : str) (excel_data : gmap str str) (fixed_texts : list str)
    (max_size : Z * Z) : M (Z * Z) :=
  let+ original := lift (image_open env image_path) in
  let+ original := lift (thumbnail original max_size) in
  let panel_width := preview_panel_width s max_size in
  let font_size := preview_font_size s in
  let+ font := lift (get_font env font_size) in
  let line_height := font_size + 4 in
  let+ lay := lift (preview_layout s stamp_image original excel_data fixed_texts
                      panel_width line_height) in
  let+ _ := call env (NewImage (new_width lay) (new_height lay) (background_color s)) in
  let+ _ := call env (PasteOriginal (fst (paste_at lay)) (snd (paste_at lay))) in
  let '(x0, y0, _, _) := panel_area lay in
  let text_x := x0 + 5 in
  let text_y := y0 + 5 in
  let+ text_y := draw_preview_fields env s excel_data text_x line_height text_y in
  let text_y := text_y + 5 in
  let+ text_y := draw_preview_texts env text_x line_height fixed_texts text_y in
  let+ _ :=
    (match stamp_image with
     | Some stamp =>
         if stamp_enabled s then
           let+ stamp_size := lift (preview_stamp_size s panel_width stamp) in
           let '(stamp_width, stamp_height) := stamp_size in
           let+ _ := call env (ResizeStamp stamp_width stamp_height) in
           let stamp_y := text_y + 20 in
           call env (PasteStamp stamp_width stamp_height text_x stamp_y)
         else mret tt
     | None => mret tt
     end) in
  mret (new_width lay, new_height lay).

(** [generate_preview]: [format] is the entry [settings["format"]] ([None]
    when the key is absent).  The components are the calls made, the entry
    after the call, and the size of the image returned or [None]. *)
Definition generate_preview (env : Env)
    (thumbnail : Image -> Z * Z -> result Image)
    (format : option str) (s : Settings) (stamp_image : option Image)
    (image_path : str) (excel_data : gmap str str) (fixed_texts : list str)
    (max_size : Z * Z) : list draw_op * option str * option (Z * Z) :=
  let original_format := default (lit "png") format in
  let format := Some (lit "png") in
  match generate_preview_body env thumbnail s stamp_image image_path excel_data
          fixed_texts max_size with
  | (calls, Ok image) => (calls, Some original_format, Some image)
  | (calls, Raise _) => (calls, format, None)
  end.

(** *** generate_preview_with_positions *)

(** The keys of [element_positions]: "inn", "kpp", "supplier_label",
    "supplier_value", "text_<i>" and "stamp". *)
Inductive position_key :=
| KInn | KKpp | KSupplierLabel | KSupplierValue | KText (i : nat) | KStamp.

#[export] Instance position_key_eq_dec : EqDecision position_key.
Proof. solve_decision. Defined.

(** A value [(x, y, text, font_size)] of [element_positions]. *)
Record placed := {
  at_x : Z;
  at_y : Z;
  shown : option str;
  shown_size : option Z
}.

(** A [dict] in insertion order, and [d[k] = v]. *)
Definition dict_set {K V} `{EqDecision K} (k : K) (v : V) (d : list (K * V))
    : list (K * V) :=
  if decide (k ∈ d.*1)
  then map (fun kv => if decide (kv.1 = k) then (k, v) else kv) d
  else d ++ [(k, v)].

(** Lines 604-619: the fields placed; returns the dictionary and the new
    [text_y]. *)
Definition place_preview_fields (s : Settings) (excel_data : gmap str str)
    (font_size text_x line_height : Z)
    (element_positions : list (position_key * placed)) (text_y : Z)
    : list (position_key * placed) * Z :=
  let '(element_positions, text_y) :=
    if inn_enabled s && has_field excel_data (lit "inn") then
      let text_content := INN_LABEL ++ field excel_data (lit "inn") in
      (dict_set KInn {| at_x := text_x; at_y := text_y; shown := Some text_content;
                        shown_size := Some font_size |} element_positions,
       text_y + line_height)
    else (element_positions, text_y) in
  let '(element_positions, text_y) :=
    if kpp_enabled s && has_field excel_data (lit "kpp") then
      let text_content := KPP_LABEL ++ field excel_data (lit "kpp") in
      (dict_set KKpp {| at_x := text_x; at_y := text_y; shown := Some text_content;
                        shown_size := Some font_size |} element_positions,
       text_y + line_height)
    else (element_positions, text_y) in
  if supplier_enabled s && has_field excel_data (lit "supplier") then
    let supplier := shorten 30 (field excel_data (lit "supplier")) in
    let element_positions :=
      dict_set KSupplierLabel
        {| at_x := text_x; at_y := text_y; shown := Some SUPPLIER_HEADING;
           shown_size := Some font_size |} element_positions in
    let text_y := text_y + line_height in
    let element_positions :=
      dict_set KSupplierValue
        {| at_x := text_x; at_y := text_y; shown := Some supplier;
           shown_size := Some font_size |} element_positions in
    (element_positions, text_y + line_height)
  else (element_positions, text_y).

(** Lines 623-627: [for idx, text in enumerate(fixed_texts)], from index
    [idx] on. *)
Fixpoint place_preview_texts (font_size text_x line_height : Z) (idx : nat)
    (fixed_texts : list str) (element_positions : list (position_key * placed))
    (text_y : Z) : list (position_key * placed) * Z :=
  match fixed_texts with
  | [] => (element_positions, text_y)
  | text :: rest =>
      match text with
      | [] => place_preview_texts font_size text_x line_height (S idx) rest
                element_positions text_y
      | _ =>
          let short_text := shorten 35 text in
          place_preview_texts font_size text_x line_height (S idx) rest
            (dict_set (KText (idx + 1))
               {| at_x := text_x; at_y := text_y; shown := Some short_text;
                  shown_size := Some font_size |} element_positions)
            (text_y + line_height)
      end
  end.

(** The body of the [try] block of [generate_preview_with_positions]
    (lines 534-649): the size of the background image and the
    dictionary. *)
Definition generate_preview_with_positions_body (env : Env)
    (thumbnail : Image -> Z * Z -> result Image)
    (s : Settings) (stamp_image : option Image)
    (image_path : str) (excel_data : gmap str str) (fixed_texts : list str)
    (max_size : Z * Z) : M (Z * Z * list (position_key * placed)) :=
  let+ original := lift (image_open env image_path) in
  let+ original := lift (thumbnail original max_size) in
  let panel_width := preview_panel_width s max_size in
  let font_size := preview_font_size s in
  let+ font := lift (get_font env font_size) in
  let line_height := font_size + 4 in
  let element_positions := [] in
  let+ lay := lift (preview_layout s stamp_image original excel_data fixed_texts
                      panel_width line_height) in
  let+ _ := call env (NewImage (new_width lay) (new_height lay) (background_color s)) in
  let+ _ := call env (PasteOriginal (fst (paste_at lay)) (snd (paste_at lay))) in
  let '(x0, y0, _, _) := panel_area lay in
  let text_x := x0 + 5 in
  let text_y := y0 + 5 in
  let '(element_positions, text_y) :=
    place_preview_fields s excel_data font_size text_x line_height
      element_positions text_y in
  let text_y := text_y + 5 in
  let '(element_positions, text_y) :=
    place_preview_texts font_size text_x line_height 0 fixed_texts
      element_positions text_y in
  let+ element_positions :=
    (match stamp_image with
     | Some stamp =>
         if stamp_enabled s then
           let+ _ := lift (preview_stamp_size s panel_width stamp) in
           let stamp_y := text_y + 20 in
           mret (dict_set KStamp {| at_x := text_x; at_y := stamp_y; shown := None;
                                    shown_size := None |} element_positions)
         else mret element_positions
     | None => mret element_positions
     end) in
  mret (new_width lay, new_height lay, element_positions).

Definition generate_preview_with_positions (env : Env)
    (thumbnail : Image -> Z * Z -> result Image)
    (s : Settings) (stamp_image : option Image)
    (image_path : str) (excel_data : gmap str str) (fixed_texts : list str)
    (max_size : Z * Z)
    : list draw_op * option (Z * Z * list (position_key * placed)) :=
  match generate_preview_with_positions_body env thumbnail s stamp_image image_path
          excel_data fixed_texts max_size with
  | (calls, Ok r) => (calls, Some r)
  | (calls, Raise _) => (calls, None)
  end.

(** *** Reading the two results *)

(** The text a call draws, and where. *)
Definition text_drawn (op : draw_op) : option (Z * Z * str) :=
  match op with
  | DrawText x y text => Some (x, y, text)
  | _ => None
  end.

(** The text an entry places, and where. *)
Definition text_placed (entry : position_key * placed) : option (Z * Z * str) :=
  match shown (snd entry) with
  | Some text => Some (at_x (snd entry), at_y (snd entry), text)
  | None => None
  end.

(** Where a call pastes the stamp. *)
Definition stamp_drawn (op : draw_op) : option (Z * Z) :=
  match op with
  | PasteStamp _ _ x y => Some (x, y)
  | _ => None
  end.

(** Where an entry places the stamp. *)
Definition stamp_placed (entry : position_key * placed) : option (Z * Z) :=
  match fst entry with
  | KStamp => Some (at_x (snd entry), at_y (snd entry))
  | _ => None
  end.

(** [s.lower()] restricted to ASCII. *)
Definition lower_char (c : N) : N :=
  if ((65 <=? c) && (c <=? 90))%N then (c + 32)%N else c.

Definition py_lower (s : str) : str := map lower_char s.

(** The settings as [process_image] reads them when [settings["format"]]
    is [format]. *)
Definition with_format (format : option str) (s : Settings) : Settings :=
  {| panel_width := panel_width s; position := position s;
     background_color := background_color s; font_size := font_size s;
     text_color := text_color s;
     output_format := py_lower (default (lit "png") format);
     inn_enabled := inn_enabled s; kpp_enabled := kpp_enabled s;
     supplier_enabled := supplier_enabled s;
     hyperlink_enabled := hyperlink_enabled s;
     stamp_enabled := stamp_enabled s; stamp_scale := stamp_scale s;
     element_offsets := element_offsets s |}.

End Preview.

(** ** main_window.py: what the window hands to the worker *)

Module MainWindow.
Import ImageProcessor.

(** The widgets that [_get_processor_settings], [_get_fixed_texts] and
    [_start_processing] read. *)
Record Ui := {
  panel_width_spin : Z;             (* QSpinBox, range 100..800 *)
  position_left : bool;
  _bg_color : str;
  font_size_spin : Z;               (* QSpinBox, range 8..36 *)
  format_png : bool;
  format_jpg : bool;
  stamp_checkbox : bool;
  inn_checkbox : bool;
  kpp_checkbox : bool;
  supplier_checkbox : bool;
  hyperlink_checkbox : bool;
  text1_checkbox : bool; text1_edit : str;
  text2_checkbox : bool; text2_edit : str;
  text3_checkbox : bool; text3_edit : str;
  output_folder_edit : str;
  batch_size_spin : Z;              (* QSpinBox, range 10..500 *)
  auto_save_interval_spin : Z       (* QSpinBox, range 50..500 *)
}.

(** The ranges of the spin boxes. *)
Definition in_range (ui : Ui) : Prop :=
  100 <= panel_width_spin ui <= 800 /\ 8 <= font_size_spin ui <= 36 /\
  10 <= batch_size_spin ui <= 500 /\ 50 <= auto_save_interval_spin ui <= 500.

(** [_get_processor_settings], as [ImageProcessor] reads the dictionary:
    the format names are in lower case already, and the dictionary has no
    "element_offsets" key, so every offset is the default [(0, 0)]. *)
Definition _get_processor_settings (ui : Ui) : Settings :=
  {| panel_width := panel_width_spin ui;
     position := if position_left ui then lit "left" else lit "bottom";
     background_color := _bg_color ui;
     font_size := font_size_spin ui;
     text_color := lit "#000000";
     output_format := if format_png ui then lit "png"
                      else if format_jpg ui then lit "jpg" else lit "pdf";
     inn_enabled := inn_checkbox ui;
     kpp_enabled := kpp_checkbox ui;
     supplier_enabled := supplier_checkbox ui;
     hyperlink_enabled := hyperlink_checkbox ui;
     stamp_enabled := stamp_checkbox ui;
     stamp_scale := 1.5%float;
     element_offsets := fun _ => (0, 0) |}.

(** [_get_fixed_texts]. *)
Definition _get_fixed_texts (ui : Ui) : list str :=
  let texts := [] in
  let texts := if text1_checkbox ui then texts ++ [text1_edit ui] else texts in
  let texts := if text2_checkbox ui then texts ++ [text2_edit ui] else texts in
  let texts := if text3_checkbox ui then texts ++ [text3_edit ui] else texts in
  texts.

(** Lines 1688-1693 of [_start_processing]. *)
Definition output_ext (ui : Ui) : str :=
  if format_png ui then lit ".png"
  else if format_jpg ui then lit ".jpg" else lit ".pdf".

Section Tasks.

Variable value : Type.
Variable path_name : str -> str.            (* Path(p).name *)
Variable path_join : str -> str -> str.     (* str(Path(folder) / name) *)

(** [not excel_data]: no row, or an empty one. *)
Definition no_data (excel_data : option (gmap str str)) : bool :=
  match excel_data with
  | Some row => bool_decide (row = ∅)
  | None => true
  end.

(** One turn of the loop of lines 1698-1710. *)
Definition add_task (rd : Excel.ExcelReader value) (ui : Ui)
    (tasks : list Worker.ProcessingTask) (img_path : str)
    : list Worker.ProcessingTask :=
  let excel_data := Excel.get_data_for_file value path_name rd img_path in
  if no_data excel_data then tasks
  else
    let output_path :=
      path_join (output_folder_edit ui)
                (Excel.stem_of_name (path_name img_path) ++ output_ext ui) in
    tasks ++ [{| Worker.image_path := img_path;
                 Worker.output_path := output_path;
                 Worker.excel_data := default ∅ excel_data;
                 Worker.fixed_texts := _get_fixed_texts ui |}].

(** The tasks [_start_processing] builds (lines 1695-1710). *)
Definition build_tasks (rd : Excel.ExcelReader value) (ui : Ui)
    (_image_files : list str) : list Worker.ProcessingTask :=
  fold_left (add_task rd ui) _image_files [].

End Tasks.

(** The worker [_start_processing] creates (lines 1716-1731): without a
    checkpoint callback, with the spin boxes' batch size and interval. *)
Definition create_worker (ui : Ui) (tasks : list Worker.ProcessingTask)
    : Worker.ProcessingWorker :=
  Worker.init tasks false (batch_size_spin ui) (auto_save_interval_spin ui).

(** [_toggle_pause] on the worker. *)
Definition _toggle_pause (w : Worker.ProcessingWorker) : Worker.ProcessingWorker :=
  if Worker.is_paused w then Worker.resume w else Worker.pause w.

End MainWindow.

(** ** settings.py *)

Module SettingsStore.

(** A value of the settings: what [json.load] gives.  The scalars are not
    looked into. *)
Inductive atom :=
| ANone
| ABool (b : bool)
| AInt (n : Z)
| AFloat (x : float)
| AStr (s : str).

#[local] Unset Elimination Schemes.
Inductive json :=
| JAtom (a : atom)
| JList (items : list json)
| JDict (entries : list (str * json)).    (* in insertion order *)
#[local] Set Elimination Schemes.

(** [d.get(k)] on the entries of a [dict]; [k in d] is [is_Some] of it. *)
Fixpoint dict_get (k : str) (d : list (str * json)) : option json :=
  match d with
  | [] => None
  | (k', v) :: rest => if decide (k' = k) then Some v else dict_get k rest
  end.

(** [_deep_copy]. *)
Fixpoint _deep_copy (obj : json) : json :=
  match obj with
  | JDict entries => JDict (map (fun kv => (fst kv, _deep_copy (snd kv))) entries)
  | JList items => JList (map _deep_copy items)
  | JAtom a => JAtom a
  end.

(** The value [_deep_merge] stores under a key: [old] is [result.get(key)],
    [value] the update.  The loop over [updates.items()] is the inner
    [fix]. *)
Fixpoint merge_value (old : option json) (value : json) {struct value} : json :=
  match old, value with
  | Some (JDict base), JDict updates =>
      JDict ((fix loop (result updates : list (str * json)) {struct updates} :=
                match updates with
                | [] => result
                | (key, value) :: rest =>
                    loop (Preview.dict_set key (merge_value (dict_get key result) value)
                            result) rest
                end)
               (map (fun kv => (fst kv, _deep_copy (snd kv))) base) updates)
  | _, _ => _deep_copy value
  end.

(** The loop of [_deep_merge] (lines 80-84). *)
Definition merge_loop (result updates : list (str * json)) : list (str * json) :=
  fold_left (fun result kv =>
               Preview.dict_set (fst kv) (merge_value (dict_get (fst kv) result) (snd kv))
                 result)
            updates result.

(** [_deep_merge(base, updates)] on two dictionaries. *)
Definition _deep_merge (base updates : list (str * json)) : list (str * json) :=
  let result := map (fun kv => (fst kv, _deep_copy (snd kv))) base in
  merge_loop result updates.

(** [get] with the keys given and [default]. *)
Fixpoint get (result : json) (keys : list str) (default : json) : json :=
  match keys with
  | [] => result
  | key :: rest =>
      match result with
      | JDict entries =>
          match dict_get key entries with
          | Some v => get v rest default
          | None => default
          end
      | _ => default
      end
  end.

(** "TypeError": what indexing or testing membership on a value that is
    no dictionary raises with a string key. *)
Definition TYPE_ERROR : str := lit "TypeError".

(** Lines 128-134 of [set]: the walk along [keys[:-1]], creating empty
    dictionaries, and the assignment under [keys[-1]]; [current] is
    updated in place. *)
Fixpoint set_along (current : json) (init : list str) (last_key : str)
    (value : json) : result json :=
  match current with
  | JDict entries =>
      match init with
      | [] => Ok (JDict (Preview.dict_set last_key value entries))
      | key :: rest =>
          let entries := match dict_get key entries with
                         | Some _ => entries
                         | None => Preview.dict_set key (JDict []) entries
                         end in
          let child := default (JDict []) (dict_get key entries) in
          let* child := set_along child rest last_key value in
          Ok (JDict (Preview.dict_set key child entries))
      end
  | _ => Raise TYPE_ERROR
  end.

(** [set] with the keys given and [value]: the settings after the call,
    or the exception; with no key nothing is done. *)
Definition set (settings : json) (keys : list str) (value : json) : result json :=
  match keys with
  | [] => Ok settings
  | first :: others =>
      set_along settings (removelast keys) (List.last keys first) value
  end.

End SettingsStore.

(** ** More concrete inputs *)

Module MoreSamples.

(** A sheet in which the positions 1.1 and 1-1 name the same key. *)
Definition repeated_sheet : list (Excel.row str) :=
  replicate 10 [] ++
  [Samples.data_row (lit "1.1") (lit "Acme Ltd") (lit "770101001") (lit "7701234567") (lit "");
   Samples.data_row (lit "1-1") (lit "Bolt LLC") (lit "780201002") (lit "7802345678") (lit "")].

Definition repeated_reader : Excel.ExcelReader str :=
  {| Excel.sheet := repeated_sheet; Excel.data := ∅; Excel._loaded := true |}.

(** An imaging library in which pasting the stamp fails and every other
    call succeeds. *)
Definition paste_failing_env : ImageProcessor.Env :=
  {| ImageProcessor.image_open := ImageProcessor.image_open Samples.sample_env;
     ImageProcessor.get_font := ImageProcessor.get_font Samples.sample_env;
     ImageProcessor.perform :=
       fun op => if CallKinds.is_stamp_paste op then Raise (lit "bad transparency mask")
                 else Ok tt |}.

(** A disk on which nothing can be written. *)
Definition read_only_env : ImageProcessor.Env :=
  {| ImageProcessor.image_open := ImageProcessor.image_open Samples.sample_env;
     ImageProcessor.get_font := ImageProcessor.get_font Samples.sample_env;
     ImageProcessor.perform :=
       fun op => if CallKinds.is_save op then Raise (lit "Permission denied")
                 else Ok tt |}.

(** The sample settings with another panel width and output format. *)
Definition settings_with (position : str) (panel_width : Z) (format : str)
    : ImageProcessor.Settings :=
  {| ImageProcessor.panel_width := panel_width;
     ImageProcessor.position := position;
     ImageProcessor.background_color := lit "#FFFFFF";
     ImageProcessor.font_size := 12;
     ImageProcessor.text_color := lit "#000000";
     ImageProcessor.output_format := format;
     ImageProcessor.inn_enabled := true;
     ImageProcessor.kpp_enabled := true;
     ImageProcessor.supplier_enabled := true;
     ImageProcessor.hyperlink_enabled := false;
     ImageProcessor.stamp_enabled := true;
     ImageProcessor.stamp_scale := 1.5%float;
     ImageProcessor.element_offsets := fun _ => (0, 0) |}.

(** A machine that has only the DejaVu font; a non-positive size is
    refused with a [ValueError]. *)
Definition linux_fonts : Fonts.FontSystem :=
  {| Fonts.truetype :=
       fun path size =>
         if size <=? 0 then Fonts.OtherError (lit "font size must be greater than 0")
         else if decide (path = lit "/usr/share/fonts/truetype/dejavu/DejaVuSans.ttf")
              then Fonts.Loaded Samples.mono_font
              else Fonts.OsError;
     Fonts.load_default :=
       {| ImageProcessor.getbbox := fun _ => None; ImageProcessor.size := 10 |} |}.

(** A machine without any font file. *)
Definition no_fonts : Fonts.FontSystem :=
  {| Fonts.truetype := fun _ _ => Fonts.OsError;
     Fonts.load_default := Fonts.load_default linux_fonts |}.

(** [thumbnail] on the sample image: 1000 by 500 shrunk into 800 by 600
    is 800 by 400. *)
Definition sample_thumbnail (original : ImageProcessor.Image) (max_size : Z * Z)
    : result ImageProcessor.Image :=
  Ok {| ImageProcessor.width := 800; ImageProcessor.height := 400 |}.

(** The window as it opens, with PDF output into the folder "out". *)
Definition sample_ui : MainWindow.Ui :=
  {| MainWindow.panel_width_spin := 300; MainWindow.position_left := true;
     MainWindow._bg_color := lit "#FFFFFF"; MainWindow.font_size_spin := 12;
     MainWindow.format_png := false; MainWindow.format_jpg := false;
     MainWindow.stamp_checkbox := true;
     MainWindow.inn_checkbox := true; MainWindow.kpp_checkbox := true;
     MainWindow.supplier_checkbox := true; MainWindow.hyperlink_checkbox := false;
     MainWindow.text1_checkbox := true; MainWindow.text1_edit := lit "first";
     MainWindow.text2_checkbox := false; MainWindow.text2_edit := lit "second";
     MainWindow.text3_checkbox := true; MainWindow.text3_edit := lit "third";
     MainWindow.output_folder_edit := lit "out";
     MainWindow.batch_size_spin := 50; MainWindow.auto_save_interval_spin := 100 |}.

(** [str(Path(folder) / name)] for a relative name and a folder without a
    trailing slash. *)
Definition posix_join (folder name : str) : str := folder ++ [SLASH] ++ name.

(** Two small settings documents: defaults, and what a file overrides. *)
Definition default_settings : list (str * SettingsStore.json) :=
  [(lit "output",
    SettingsStore.JDict
      [(lit "format", SettingsStore.JAtom (SettingsStore.AStr (lit "pdf")));
       (lit "panel_width", SettingsStore.JAtom (SettingsStore.AInt 300))]);
   (lit "ui",
    SettingsStore.JDict
      [(lit "dark_theme", SettingsStore.JAtom (SettingsStore.ABool false))])].

Definition loaded_settings : list (str * SettingsStore.json) :=
  [(lit "output",
    SettingsStore.JDict
      [(lit "format", SettingsStore.JAtom (SettingsStore.AStr (lit "png")))]);
   (lit "element_offsets",
    SettingsStore.JDict
      [(lit "inn", SettingsStore.JList
                     [SettingsStore.JAtom (SettingsStore.AInt 4);
                      SettingsStore.JAtom (SettingsStore.AInt (-2))])])].

End MoreSamples.

(** * Facts about the embedding *)

Section ExcelColumnsFacts.
Import ExcelColumns.

Local Abbreviation step :=
  (fun (result : Z) (char : N) => result * 26 + (ord char - ord 65%N + 1)).

Lemma column_letter_loop_neg index result :
  index < 0 -> column_letter_loop index result = result.
Proof.
  intros H. rewrite column_letter_loop_equation_1.
  destruct (Z_lt_dec index 0); [reflexivity | lia].
Qed.

Lemma column_letter_loop_nonneg index result :
  0 <= index ->
  column_letter_loop index result =
  column_letter_loop (index / 26 - 1) (chr (index mod 26 + ord 65%N) :: result).
Proof.
  intros H. rewrite column_letter_loop_equation_1.
  destruct (Z_lt_dec index 0); [lia | reflexivity].
Qed.

Lemma letter_code (d : Z) :
  0 <= d < 26 -> ord (chr (d + ord 65%N)) - ord 65%N + 1 = d + 1.
Proof. unfold ord, chr. intros H. rewrite Z2N.id; lia. Qed.

Lemma letter_is_upper (d : Z) :
  0 <= d < 26 -> is_upper_AZ (chr (d + ord 65%N)) = true.
Proof.
  unfold is_upper_AZ, ord, chr. intros H.
  apply andb_true_iff. split; apply N.leb_le; lia.
Qed.

Lemma upper_fixes_AZ (s : str) :
  forallb is_upper_AZ s = true -> py_upper s = s.
Proof.
  induction s as [|c s IH]; simpl; [reflexivity|].
  intros H. apply andb_true_iff in H as [Hc Hs].
  rewrite (IH Hs). f_equal.
  unfold is_upper_AZ in Hc. apply andb_true_iff in Hc as [H1 H2].
  apply N.leb_le in H1, H2. unfold upper_char.
  destruct ((97 <=? c)%N) eqn:E; simpl; [|reflexivity].
  apply N.leb_le in E. lia.
Qed.

(** Loop invariant: every letter produced is in A-Z, and folding the digits
    of the finished string from [0] equals folding the pending suffix from
    [index + 1]. *)
Lemma column_letter_loop_spec index :
  forall result, -1 <= index ->
    forallb is_upper_AZ result = true ->
    forallb is_upper_AZ (column_letter_loop index result) = true /\
    fold_left step (column_letter_loop index result) 0 =
    fold_left step result (index + 1) /\
    (0 <= index \/ result <> [] -> column_letter_loop index result <> []).
Proof.
  assert (Hwf : forall n index, Z.to_nat (index + 1) = n ->
    forall result, -1 <= index ->
    forallb is_upper_AZ result = true ->
    forallb is_upper_AZ (column_letter_loop index result) = true /\
    fold_left step (column_letter_loop index result) 0 =
    fold_left step result (index + 1) /\
    (0 <= index \/ result <> [] -> column_letter_loop index result <> [])).
  { induction n as [n IH] using lt_wf_ind. intros i Hn result Hi Hres.
    destruct (Z_lt_dec i 0) as [Hneg|Hpos].
    - rewrite column_letter_loop_neg by lia.
      assert (i = -1) by lia. subst i. simpl.
      repeat split; try assumption. intros [?|?]; [lia|assumption].
    - rewrite column_letter_loop_nonneg by lia.
      assert (Hd : 0 <= i mod 26 < 26) by (apply Z.mod_pos_bound; lia).
      assert (Hq : 0 <= i / 26) by (apply Z.div_pos; lia).
      assert (Hle : i / 26 <= i) by (apply Z.div_le_upper_bound; lia).
      destruct (IH (Z.to_nat (i / 26 - 1 + 1)) ltac:(lia) (i / 26 - 1) eq_refl
                   (chr (i mod 26 + ord 65%N) :: result) ltac:(lia))
        as (A & B & C).
      { simpl. rewrite letter_is_upper by lia. exact Hres. }
      split; [exact A|]. split.
      + rewrite B. simpl. f_equal.
        rewrite letter_code by lia.
        pose proof (Z.div_mod i 26 ltac:(lia)). lia.
      + intros _. apply C. right. discriminate. }
  intros result. eapply Hwf. reflexivity.
Qed.

End ExcelColumnsFacts.

(** C10.  Column letter / index conversion round-trips on every index
    [n >= 0], and [get_column_letter n] is a non-empty string of the
    upper-case letters A-Z. *)
Theorem column_letter_index_roundtrip (n : Z) :
  0 <= n ->
  ExcelColumns.get_column_index (ExcelColumns.get_column_letter n) = n /\
  ExcelColumns.get_column_letter n <> [] /\
  Forall (fun c => (65 <= c <= 90)%N) (ExcelColumns.get_column_letter n).
Proof.
  intros Hn. unfold ExcelColumns.get_column_letter.
  destruct (column_letter_loop_spec n [] ltac:(lia) eq_refl) as (A & B & C).
  split; [|split].
  - unfold ExcelColumns.get_column_index.
    rewrite upper_fixes_AZ by exact A.
    change (fold_left (fun result char => result * 26 + (ord char - ord 65%N + 1))
              (ExcelColumns.column_letter_loop n []) 0)
      with (fold_left (fun r c => r * 26 + (ord c - ord 65%N + 1))
              (ExcelColumns.column_letter_loop n []) 0) in *.
    etransitivity; [apply f_equal2; [exact B | reflexivity]|]. simpl. lia.
  - apply C. left. exact Hn.
  - apply Forall_forall. intros c Hc.
    rewrite forallb_forall in A. specialize (A c).
    assert (Hin : In c (ExcelColumns.column_letter_loop n [])).
    { apply list_elem_of_In. exact Hc. }
    specialize (A Hin). unfold is_upper_AZ in A.
    apply andb_true_iff in A as [H1 H2]. apply N.leb_le in H1, H2. lia.
Qed.

Lemma column_letter_index_roundtrip_witness :
  ExcelColumns.get_column_index (ExcelColumns.get_column_letter 27) = 27 /\
  ExcelColumns.get_column_letter 27 <> [] /\
  Forall (fun c => (65 <= c <= 90)%N) (ExcelColumns.get_column_letter 27).
Proof. apply (column_letter_index_roundtrip 27). lia. Defined.

(** ** Splitting and joining words *)

Section Words.

Lemma split_ws_aux_app cur w rest :
  forallb (fun c => negb (py_isspace c)) w = true ->
  split_ws_aux cur (w ++ rest) = split_ws_aux (cur ++ w) rest.
Proof.
  revert cur. induction w as [|c w IH]; intros cur H; simpl in *.
  - now rewrite app_nil_r.
  - apply andb_true_iff in H as [Hc Hw].
    apply negb_true_iff in Hc. rewrite Hc.
    rewrite IH by exact Hw. now rewrite <- app_assoc.
Qed.

Lemma split_join (ws : list str) :
  Forall is_word ws -> py_split (join_words ws) = ws.
Proof.
  unfold py_split. induction 1 as [|w ws [Hne Hns] Hws IH]; [reflexivity|].
  destruct ws as [|w' ws'].
  - simpl. rewrite <- (app_nil_r w) at 1.
    rewrite split_ws_aux_app by exact Hns. simpl.
    destruct w; [contradiction | reflexivity].
  - change (join_words (w :: w' :: ws'))
      with (w ++ SPACE :: join_words (w' :: ws')).
    rewrite split_ws_aux_app by exact Hns. simpl.
    destruct w; [contradiction|]. simpl. f_equal. exact IH.
Qed.

Lemma split_ws_aux_words s :
  forall cur, forallb (fun c => negb (py_isspace c)) cur = true ->
              Forall is_word (split_ws_aux cur s).
Proof.
  induction s as [|c s IH]; intros cur Hcur; simpl.
  - destruct cur; [constructor|].
    constructor; [|constructor]. split; [discriminate | exact Hcur].
  - destruct (py_isspace c) eqn:Hc.
    + destruct cur.
      * now apply IH.
      * constructor; [split; [discriminate | exact Hcur]|]. now apply IH.
    + apply IH. rewrite forallb_app, Hcur. simpl. now rewrite Hc.
Qed.

Lemma py_split_words s : Forall is_word (py_split s).
Proof. now apply split_ws_aux_words. Qed.

Lemma join_words_snoc (g : list str) (w : str) :
  g <> [] -> join_words (g ++ [w]) = join_words g ++ [SPACE] ++ w.
Proof.
  induction g as [|a g IH]; [contradiction|]. intros _.
  destruct g as [|b g].
  - reflexivity.
  - change (join_words ((a :: b :: g) ++ [w]))
      with (a ++ [SPACE] ++ join_words ((b :: g) ++ [w])).
    rewrite IH by discriminate.
    change (join_words (a :: b :: g)) with (a ++ [SPACE] ++ join_words (b :: g)).
    now rewrite <- !app_assoc.
Qed.

End Words.

(** ** _wrap_text *)

Section WrapText.
Import ImageProcessor.

Variable font : Font.
Variable max_width : Z.

Local Abbreviation fits := (ImageProcessor.fits font max_width).
Local Abbreviation paragraph_lines := (ImageProcessor.paragraph_lines font max_width).

(** The inner loop, started on the line [join_words cur], leaves the words
    read so far grouped into fitting lines, in order. *)
Lemma wrap_step_fold (rest : list str) :
  forall (lines : list str) (cur : list str),
    fits cur -> Forall is_word rest ->
    exists groups cur',
      fold_left (wrap_step font max_width) rest (lines, join_words cur)
      = (lines ++ map join_words groups, join_words cur') /\
      Forall fits (groups ++ [cur']) /\
      concat groups ++ cur' = cur ++ rest.
Proof.
  induction rest as [|w rest IH]; intros lines cur Hcur Hrest.
  - exists [], cur. simpl. rewrite !app_nil_r.
    repeat split; [constructor; [exact Hcur | constructor]].
  - inversion Hrest as [|? ? Hw Hrest']; subst.
    destruct Hcur as (Hne & Hwords & Hwidth).
    cbn [fold_left]. unfold wrap_step at 2.
    rewrite <- (join_words_snoc cur w Hne).
    destruct (line_width font (join_words (cur ++ [w])) <=? max_width) eqn:E.
    + apply Z.leb_le in E.
      destruct (IH lines (cur ++ [w])) as (groups & cur' & Hf & Hfit & Hcat).
      { split; [now destruct cur|]. split.
        - apply Forall_app. split; [exact Hwords | now constructor].
        - intros _. exact E. }
      { exact Hrest'. }
      exists groups, cur'. split; [exact Hf|]. split; [exact Hfit|].
      rewrite Hcat. now rewrite <- app_assoc.
    + destruct (IH (lines ++ [join_words cur]) [w]) as (groups & cur' & Hf & Hfit & Hcat).
      { split; [discriminate|]. split; [now constructor|].
        simpl. lia. }
      { exact Hrest'. }
      exists (cur :: groups), cur'. split; [|split].
      * change (join_words [w]) with w in Hf. rewrite Hf.
        simpl. now rewrite <- app_assoc.
      * simpl. constructor; [now repeat split | exact Hfit].
      * simpl. rewrite <- app_assoc, Hcat. reflexivity.
Qed.

Lemma concat_split_join (groups : list (list str)) :
  Forall fits groups ->
  concat (map py_split (map join_words groups)) = concat groups.
Proof.
  induction 1 as [|g groups (_ & Hg & _) _ IH]; [reflexivity|].
  simpl. now rewrite split_join, IH.
Qed.

Lemma wrap_step_fold_prefix (rest : list str) :
  forall (lines : list str) (cur : str),
    fold_left (wrap_step font max_width) rest (lines, cur)
    = (lines ++ fst (fold_left (wrap_step font max_width) rest ([], cur)),
       snd (fold_left (wrap_step font max_width) rest ([], cur))).
Proof.
  induction rest as [|w rest IH]; intros lines cur.
  - simpl. now rewrite app_nil_r.
  - cbn [fold_left]. unfold wrap_step at 2 4 6.
    destruct (line_width font (cur ++ [SPACE] ++ w) <=? max_width).
    + apply IH.
    + rewrite (IH (lines ++ [cur])), (IH ([] ++ [cur])).
      simpl. now rewrite <- app_assoc.
Qed.

Lemma wrap_paragraph_app (lines : list str) (paragraph : str) :
  wrap_paragraph font max_width lines paragraph = lines ++ paragraph_lines paragraph.
Proof.
  unfold paragraph_lines, wrap_paragraph.
  destruct (py_split paragraph) as [|w0 rest]; [reflexivity|].
  rewrite (wrap_step_fold_prefix rest lines w0).
  destruct (fold_left (wrap_step font max_width) rest ([], w0)) as [ls cur].
  simpl. now rewrite <- app_assoc.
Qed.

Lemma paragraph_lines_groups (paragraph : str) :
  (py_split paragraph = [] /\ paragraph_lines paragraph = [[]]) \/
  (exists groups,
     py_split paragraph <> [] /\
     paragraph_lines paragraph = map join_words groups /\
     Forall fits groups /\ concat groups = py_split paragraph).
Proof.
  unfold paragraph_lines, wrap_paragraph.
  pose proof (py_split_words paragraph) as Hw.
  destruct (py_split paragraph) as [|w0 rest]; [left; now split|].
  right. inversion Hw as [|? ? Hw0 Hrest]; subst.
  destruct (wrap_step_fold rest [] [w0]) as (groups & cur' & Hf & Hfit & Hcat).
  { split; [discriminate|]. split; [now constructor|]. simpl. lia. }
  { exact Hrest. }
  change (join_words [w0]) with w0 in Hf. rewrite Hf.
  exists (groups ++ [cur']). split; [discriminate|]. split; [|split].
  - rewrite map_app. reflexivity.
  - exact Hfit.
  - rewrite concat_app. simpl. rewrite app_nil_r. exact Hcat.
Qed.

Lemma wrap_text_fold (paragraphs : list str) :
  forall lines,
    fold_left (wrap_paragraph font max_width) paragraphs lines
    = lines ++ concat (map paragraph_lines paragraphs).
Proof.
  induction paragraphs as [|p ps IH]; intros lines; simpl.
  - now rewrite app_nil_r.
  - rewrite IH, wrap_paragraph_app. now rewrite <- app_assoc.
Qed.

End WrapText.

(** C3.  [_wrap_text] works paragraph by paragraph (the text split on
    the newline).  The words of a paragraph's lines, concatenated in
    order, are exactly the white-space separated words of the paragraph;
    a paragraph without words gives one empty line; every line is its own
    words joined by single spaces; and a line of two or more words
    measures at most [max_width] (by [getbbox] right minus left whenever
    [getbbox] answers). A line of one word is not bounded. *)
Theorem wrap_text_lines (text : str) (font : ImageProcessor.Font) (max_width : Z) :
  ImageProcessor._wrap_text text font max_width
  = concat (map (ImageProcessor.paragraph_lines font max_width) (py_split_on NEWLINE text)) /\
  forall paragraph : str,
    concat (map py_split (ImageProcessor.paragraph_lines font max_width paragraph))
    = py_split paragraph /\
    (py_split paragraph = [] -> ImageProcessor.paragraph_lines font max_width paragraph = [[]]) /\
    Forall (fun line =>
              line = join_words (py_split line) /\
              ((2 <= length (py_split line))%nat ->
               ImageProcessor.line_width font line <= max_width /\
               forall x0 y0 x1 y1,
                 ImageProcessor.getbbox font line = Some (x0, y0, x1, y1) ->
                 x1 - x0 <= max_width))
           (ImageProcessor.paragraph_lines font max_width paragraph).
Proof.
  split.
  - unfold ImageProcessor._wrap_text. now rewrite wrap_text_fold.
  - intros paragraph.
    destruct (paragraph_lines_groups font max_width paragraph)
      as [[Hempty Hlines]|(groups & Hsome & Hlines & Hfit & Hcat)].
    + rewrite Hlines, Hempty. repeat split.
      constructor; [|constructor]. split; [reflexivity|].
      simpl. lia.
    + rewrite Hlines. split; [|split].
      * rewrite (concat_split_join font max_width) by exact Hfit. exact Hcat.
      * intros Hnil. contradiction.
      * apply Forall_forall. intros line Hin.
        apply list_elem_of_In, in_map_iff in Hin as (g & <- & Hg).
        rewrite Forall_forall in Hfit.
        destruct (Hfit g ltac:(now apply list_elem_of_In)) as (Hne & Hwords & Hwidth).
        rewrite split_join by exact Hwords. split; [reflexivity|].
        intros H2. specialize (Hwidth H2). split; [exact Hwidth|].
        intros x0 y0 x1 y1 Hbox. unfold ImageProcessor.line_width in Hwidth.
        now rewrite Hbox in Hwidth.
Qed.

(** ** checkpoint.py *)

Section CheckpointFacts.
Import Checkpoint.

Lemma pending_filter (d : CheckpointData) :
  get_pending_files d
  = filter (fun f => (f ∉ default [] (processed_files d)) /\
                     (f ∉ map file (default [] (failed_files d))))
           (default [] (all_files d)).
Proof.
  unfold get_pending_files. destruct (is_empty d) eqn:E.
  - unfold is_empty in E. apply negb_true_iff in E.
    repeat (apply orb_false_iff in E as [E ?]).
    destruct (all_files d); [discriminate | reflexivity].
  - apply list_filter_iff. intros f.
    now rewrite !elem_of_list_to_set.
Qed.

Lemma processed_of_mark f d :
  processed_files (mark_processed f d) = Some (default [] (processed_files d) ++ [f]).
Proof.
  unfold mark_processed.
  destruct (processed_files d) eqn:E; simpl; rewrite ?E; reflexivity.
Qed.

Lemma processed_grows d u f :
  f ∈ default [] (processed_files d) ->
  f ∈ default [] (processed_files (apply_update d u)).
Proof.
  intros H. destruct u; cbn [apply_update].
  - rewrite processed_of_mark. simpl. apply elem_of_app. now left.
  - unfold mark_failed. destruct (failed_files d) eqn:E; simpl; exact H.
  - exact H.
Qed.

Lemma processed_stays us :
  forall d f, f ∈ default [] (processed_files d) ->
              f ∈ default [] (processed_files (fold_left apply_update us d)).
Proof.
  induction us as [|u us IH]; intros d f H; simpl; [exact H|].
  apply IH. now apply processed_grows.
Qed.

End CheckpointFacts.

(** C5.  [get_pending_files] returns the elements of [all_files], in their
    order, that are neither in [processed_files] nor the [file] of an
    entry of [failed_files]; a file given to [mark_processed] is in no
    later result, whatever is recorded afterwards; and the empty state
    gives the empty list. *)
Theorem pending_files_exact (d : Checkpoint.CheckpointData) :
  Checkpoint.get_pending_files d
  = filter (fun f => (f ∉ default [] (Checkpoint.processed_files d)) /\
                     (f ∉ map Checkpoint.file (default [] (Checkpoint.failed_files d))))
           (default [] (Checkpoint.all_files d)) /\
  (forall (f : str) (later : list Checkpoint.update),
      f ∉ Checkpoint.get_pending_files
            (fold_left Checkpoint.apply_update later (Checkpoint.mark_processed f d))) /\
  Checkpoint.get_pending_files Checkpoint.empty_data = [].
Proof.
  split; [apply pending_filter|]. split; [|reflexivity].
  intros f later. rewrite pending_filter.
  intros Hin. apply list_elem_of_filter in Hin as [[Hnot _] _].
  apply Hnot. apply processed_stays.
  rewrite processed_of_mark. simpl. apply elem_of_app. right. constructor.
Qed.

(** ** excel_reader.py: parse and lookup *)

Section ExcelFacts.
Import Excel.

Variable value : Type.
Variable py_str : value -> str.
Variable path_name : str -> str.

Local Abbreviation row := (row value).

Lemma cell_value_nonneg (r : row) (col : Z) :
  0 <= col ->
  cell_value value r (col + 1)
  = Ok (match r !! Z.to_nat col with Some v => v | None => None end).
Proof.
  intros H. unfold cell_value.
  destruct (col + 1 <? 1) eqn:E; [apply Z.ltb_lt in E; lia|].
  now replace (col + 1 - 1) with col by lia.
Qed.

Lemma read_fields_ok (columns : list (str * Z)) (r : row) :
  Forall (fun kc => 0 <= snd kc) columns ->
  forall acc, exists row_data, read_fields value py_str columns r acc = Ok row_data.
Proof.
  induction 1 as [|[k c] columns Hc _ IH]; intros acc; simpl.
  - now exists acc.
  - destruct (decide (k = lit "position")); [apply IH|].
    simpl in Hc. rewrite cell_value_nonneg by exact Hc. simpl. apply IH.
Qed.

Lemma parse_rows_fold (columns : list (str * Z)) (pos_col : Z) :
  columns_get columns (lit "position") = Ok pos_col ->
  0 <= pos_col ->
  Forall (fun kc => 0 <= snd kc) columns ->
  forall (rows : list row) (d : gmap str (gmap str str)),
    parse_rows value py_str columns rows d
    = (fold_left (store_row value py_str columns pos_col)
                 (data_rows value py_str pos_col rows) d, Ok tt).
Proof.
  intros Hpos Hnn Hcols rows.
  induction rows as [|r rows IH]; intros d; simpl; rewrite Hpos; [reflexivity|].
  rewrite cell_value_nonneg by exact Hnn.
  unfold row_key.
  destruct (r !! Z.to_nat pos_col) as [[v|]|] eqn:Hcell; try reflexivity.
  destruct (py_strip (py_str v)) as [|c k] eqn:Hstrip; [reflexivity|].
  destruct (read_fields_ok columns r Hcols ∅) as [row_data Hrd].
  rewrite Hrd. simpl. rewrite IH. f_equal. f_equal.
  unfold store_row, row_key, _normalize_position.
  now rewrite Hcell, Hstrip, Hrd.
Qed.

(** A row that was read stays in the dictionary under its key. *)
Lemma stored_rows_found (columns : list (str * Z)) (pos_col : Z) :
  Forall (fun kc => 0 <= snd kc) columns ->
  forall (rows : list row) (d : gmap str (gmap str str)) (r : row),
    r ∈ rows -> Forall (fun r => is_Some (row_key value py_str pos_col r)) rows ->
    exists key, row_key value py_str pos_col r = Some key /\
                is_Some (fold_left (store_row value py_str columns pos_col) rows d !! key).
Proof.
  intros Hcols rows.
  assert (Hkeep : forall (rows : list row) (d : gmap str (gmap str str)) key,
             is_Some (d !! key) ->
             is_Some (fold_left (store_row value py_str columns pos_col) rows d !! key)).
  { clear. induction rows as [|r rows IH]; intros d key H; simpl; [exact H|].
    apply IH. unfold store_row.
    destruct (row_key value py_str pos_col r); [|exact H].
    destruct (read_fields value py_str columns r ∅); [|exact H].
    rewrite lookup_insert. case_decide; [eauto | exact H]. }
  induction rows as [|r0 rows IH]; intros d r Hin Hall; [inversion Hin|].
  inversion Hall as [|? ? [key Hkey] Hall']; subst.
  apply elem_of_cons in Hin as [->|Hin].
  - exists key. split; [exact Hkey|]. simpl. apply Hkeep.
    unfold store_row. rewrite Hkey.
    destruct (read_fields_ok columns r0 Hcols ∅) as [row_data Hrd].
    rewrite Hrd, lookup_insert_eq. eauto.
  - simpl. now apply IH.
Qed.

Lemma data_rows_keyed (pos_col : Z) (rows : list row) :
  Forall (fun r => is_Some (row_key value py_str pos_col r))
         (data_rows value py_str pos_col rows).
Proof.
  induction rows as [|r rows IH]; simpl; [constructor|].
  destruct (row_key value py_str pos_col r) eqn:E; [|constructor].
  constructor; [rewrite E; eauto | exact IH].
Qed.

End ExcelFacts.

(** C4.  [get_data_for_file] answers with the entry of the dictionary under
    the stem of the file's name, and with [None] exactly when there is
    none.  When the column mapping is usable, [parse] stores each row it
    reads (from row 11 to the first blank position) under [row_key]: its
    position as a string, stripped, every dot replaced by a hyphen; a
    later row with the same key replaces an earlier one, and every row
    read is found under its key afterwards. *)
Theorem rows_keyed_by_stem (value : Type) (py_str : value -> str)
    (path_name : str -> str) :
  (forall (rd : Excel.ExcelReader value) (filename : str),
      Excel.get_data_for_file value path_name rd filename
      = Excel.data value rd !! Excel.stem_of_name (path_name filename) /\
      (Excel.get_data_for_file value path_name rd filename = None <->
       Excel.stem_of_name (path_name filename) ∉ dom (Excel.data value rd))) /\
  (forall (column_mapping : option (list (str * Z))) (pos_col : Z)
          (rd : Excel.ExcelReader value),
      let columns := Excel.columns_or_default column_mapping in
      Excel._loaded value rd = true ->
      Excel.columns_get columns (lit "position") = Ok pos_col ->
      0 <= pos_col ->
      Forall (fun kc => 0 <= snd kc) columns ->
      let read := Excel.data_rows value py_str pos_col
                    (drop 10 (Excel.sheet value rd)) in
      let rd' := fst (Excel.parse value py_str column_mapping rd) in
      snd (Excel.parse value py_str column_mapping rd)
      = (true, Excel.Loaded (size (Excel.data value rd'))) /\
      Excel.data value rd'
      = fold_left (Excel.store_row value py_str columns pos_col) read
                  (Excel.data value rd) /\
      forall r, r ∈ read ->
        exists (v : value) (key : str),
          r !! Z.to_nat pos_col = Some (Some v) /\
          key = py_replace DOT HYPHEN (py_strip (py_str v)) /\
          is_Some (Excel.data value rd' !! key)).
Proof.
  split.
  - intros rd filename. unfold Excel.get_data_for_file. split; [reflexivity|].
    now rewrite not_elem_of_dom.
  - intros column_mapping pos_col rd columns Hl Hpos Hnn Hcols read rd'.
    assert (Hparse : Excel.parse value py_str column_mapping rd
                     = ({| Excel.sheet := Excel.sheet value rd;
                           Excel.data := fold_left (Excel.store_row value py_str columns pos_col)
                                           read (Excel.data value rd);
                           Excel._loaded := Excel._loaded value rd |},
                        (true, Excel.Loaded
                                 (size (fold_left (Excel.store_row value py_str columns pos_col)
                                          read (Excel.data value rd)))))).
    { unfold Excel.parse. rewrite Hl. simpl. fold columns.
      change (Excel.DATA_START_ROW - 1)%nat with 10%nat.
      now rewrite (parse_rows_fold value py_str columns pos_col Hpos Hnn Hcols). }
    subst rd'. rewrite Hparse. simpl. split; [reflexivity|]. split; [reflexivity|].
    intros r Hin.
    destruct (stored_rows_found value py_str columns pos_col Hcols read
                (Excel.data value rd) r Hin (data_rows_keyed value py_str pos_col _))
      as (key & Hkey & Hfound).
    unfold Excel.row_key in Hkey.
    destruct (r !! Z.to_nat pos_col) as [[v|]|]; try discriminate.
    exists v, key. split; [reflexivity|]. split; [|exact Hfound].
    destruct (py_strip (py_str v)); [discriminate|]. now inversion Hkey.
Qed.

Lemma rows_keyed_by_stem_witness :
  is_Some (Excel.data str Samples.parsed_reader !! lit "1-1") /\
  Excel.get_data_for_file str Excel.posix_name Samples.parsed_reader (lit "1-1.png")
  = Excel.data str Samples.parsed_reader !! lit "1-1".
Proof.
  destruct (rows_keyed_by_stem str id Excel.posix_name) as [Hget Hparse].
  split.
  - destruct (Hparse None 0 Samples.sample_reader
                eq_refl eq_refl ltac:(lia)
                ltac:(repeat constructor; simpl; lia))
      as (_ & _ & Hrows).
    destruct (Hrows (Samples.data_row (lit "1.1") (lit "Acme Ltd") (lit "770101001")
                       (lit "7701234567") (lit "")))
      as (v & key & Hv & Hkey & Hfound).
    { vm_compute. left. }
    vm_compute in Hv. injection Hv as <-.
    vm_compute in Hkey. subst key. exact Hfound.
  - apply (Hget Samples.parsed_reader (lit "1-1.png")).
Defined.

(** Position 1.1 is found by the file 1-1.png, with the row's fields. *)
Example position_1_1_found_by_file :
  Excel.get_data_for_file str Excel.posix_name Samples.parsed_reader (lit "a/b/1-1.png")
  = Some (<[lit "supplier" := lit "Acme Ltd"]>
          (<[lit "kpp" := lit "770101001"]>
           (<[lit "inn" := lit "7701234567"]>
            (<[lit "hyperlink" := lit ""]> ∅)))) /\
  Excel.get_data_for_file str Excel.posix_name Samples.parsed_reader (lit "2-3.jpg")
  <> None /\
  Excel.get_data_for_file str Excel.posix_name Samples.parsed_reader (lit "1.1.png")
  = None.
Proof. vm_compute. repeat split. discriminate. Qed.

(** ** image_processor.py: the calls of [process_image] *)

Section Calls.
Import ImageProcessor.

Lemma mbind_ok {A B} (l : list draw_op) (a : A) (k : A -> M B) :
  mbind (l, Ok a) k = (l ++ fst (k a), snd (k a)).
Proof. simpl. now destruct (k a). Qed.

Lemma mbind_lift_ok {A B} (r : result A) (a : A) (k : A -> M B) :
  r = Ok a -> mbind (lift r) k = k a.
Proof. intros ->. unfold lift. rewrite mbind_ok. now destruct (k a). Qed.

Lemma mbind_lift_raise {A B} (r : result A) (e : str) (k : A -> M B) :
  r = Raise e -> mbind (lift r) k = ([], Raise e).
Proof. now intros ->. Qed.

Lemma mbind_call_ok {B} (env : Env) (op : draw_op) (k : unit -> M B) :
  perform env op = Ok tt ->
  mbind (call env op) k = (op :: fst (k tt), snd (k tt)).
Proof. intros H. unfold call. rewrite H. now rewrite mbind_ok. Qed.

(** The value of a sequence comes from values of its parts. *)
Lemma mbind_value {A B} (m : M A) (k : A -> M B) (b : B) :
  snd (mbind m k) = Ok b -> exists a, snd m = Ok a /\ snd (k a) = Ok b.
Proof.
  destruct m as [l [a|e]]; simpl; [|discriminate].
  destruct (k a) as [l' r] eqn:E. simpl. intros ->. exists a.
  now rewrite E.
Qed.

(** Every call of a sequence is a call of one of its parts. *)
Lemma mbind_calls {A B} (P : draw_op -> Prop) (m : M A) (k : A -> M B) :
  Forall P (fst m) -> (forall a, snd m = Ok a -> Forall P (fst (k a))) ->
  Forall P (fst (mbind m k)).
Proof.
  destruct m as [l [a|e]]; simpl; intros Hm Hk; [|exact Hm].
  specialize (Hk a eq_refl). destruct (k a) as [l' r]. simpl in *.
  apply Forall_app. now split.
Qed.

Lemma call_calls (P : draw_op -> Prop) (env : Env) (op : draw_op) :
  P op -> Forall P (fst (call env op)).
Proof.
  intros H. unfold call. destruct (perform env op); simpl; repeat constructor.
  exact H.
Qed.

Lemma lift_calls {A} (P : draw_op -> Prop) (r : result A) : Forall P (fst (lift r)).
Proof. constructor. Qed.

Lemma mret_calls {A} (P : draw_op -> Prop) (a : A) : Forall P (fst (mret a)).
Proof. constructor. Qed.

End Calls.

Section ProcessImageFacts.
Import ImageProcessor.

Variable env : Env.
Variable s : Settings.
Variable stamp_image : option Image.
Variable image_path : str.
Variable excel_data : gmap str str.
Variable fixed_texts : list str.
Variable output_path : str.

Local Abbreviation body :=
  (process_image_body env s stamp_image image_path excel_data fixed_texts output_path).
Local Abbreviation outcome :=
  (process_image env s stamp_image image_path excel_data fixed_texts output_path).

(** The only value the [try] block returns is [(True, "OK")]. *)
Lemma body_value (v : bool * str) : snd body = Ok v -> v = (true, lit "OK").
Proof.
  unfold process_image_body. intros H.
  do 5 (apply mbind_value in H as (? & _ & H)).
  destruct (panel_area _) as [[[? ?] ?] ?].
  do 4 (apply mbind_value in H as (? & _ & H)).
  simpl in H. now inversion H.
Qed.

Lemma outcome_of_value (v : bool * str) :
  snd body = Ok v -> snd outcome = (true, lit "OK").
Proof.
  intros H. pose proof (body_value v H) as ->.
  unfold process_image. destruct body as [calls r]. simpl in *. now rewrite H.
Qed.

Lemma outcome_of_exception (e : str) :
  snd body = Raise e -> snd outcome = (false, ERROR_PREFIX ++ e).
Proof.
  intros H. unfold process_image. destruct body as [calls r].
  simpl in *. now rewrite H.
Qed.

End ProcessImageFacts.


(** *** Which calls each part makes *)

Section CallKinds.
Import ImageProcessor.

Variable P : draw_op -> Prop.
Variable env : Env.
Variable s : Settings.

Hypothesis P_text : forall x y t, P (DrawText x y t).

Lemma draw_lines_calls text_x line_height lines :
  forall text_y, Forall P (fst (draw_lines env text_x line_height lines text_y)).
Proof.
  induction lines as [|line lines IH]; intros text_y; simpl draw_lines.
  - apply mret_calls.
  - apply mbind_calls; [apply call_calls, P_text | intros _ _; apply IH].
Qed.

Hypothesis P_line : forall x0 y0 x1 y1, P (DrawLine x0 y0 x1 y1).

Lemma draw_fields_calls font excel_data text_x text_y :
  Forall P (fst (draw_fields env s font excel_data text_x text_y)).
Proof.
  unfold draw_fields.
  repeat first
    [ apply mbind_calls; [|intros ? _]
    | apply call_calls
    | apply mret_calls
    | apply draw_lines_calls
    | apply P_text
    | apply P_line
    | match goal with
      | |- context [if ?b then _ else _] => destruct b
      | |- context [let '(_, _) := ?p in _] => destruct p
      end ].
Qed.

Hypothesis P_save :
  forall op, match op with
             | MkdirParent _ | ConvertRGB | SavePdf _ | SaveJpeg _ | SavePng _ => P op
             | _ => True
             end.

Lemma save_result_calls output_path :
  Forall P (fst (save_result env s output_path)).
Proof.
  unfold save_result.
  repeat first
    [ apply mbind_calls; [|intros ? _]
    | apply mret_calls
    | match goal with
      | |- Forall P (fst (call env ?op)) => apply call_calls, (P_save op)
      | |- context [if ?b then _ else _] => destruct b
      end ].
Qed.

End CallKinds.

Section StampCalls.
Import ImageProcessor PyNum.

Variable env : Env.
Variable s : Settings.
Variable stamp_image : option Image.

Local Abbreviation stamp_sized := (ImageProcessor.stamp_sized s stamp_image).

Lemma draw_fixed_lines_stamp_sized text_x line_height bound offset lines :
  forall current_y,
    Forall stamp_sized
           (fst (draw_fixed_lines env text_x line_height bound offset lines current_y)).
Proof.
  induction lines as [|line lines IH]; intros current_y; simpl draw_fixed_lines.
  - apply mret_calls.
  - apply mbind_calls.
    + destruct (bound <? current_y + line_height); repeat constructor.
    + intros _ _. apply mbind_calls; [now apply call_calls | intros _ _; apply IH].
Qed.

Lemma draw_fixed_texts_stamp_sized font text_x line_height bound fixed_texts :
  forall i text_y,
    Forall stamp_sized
           (fst (draw_fixed_texts env s font text_x line_height bound i fixed_texts text_y)).
Proof.
  induction fixed_texts as [|text rest IH]; intros i text_y; simpl draw_fixed_texts.
  - apply mret_calls.
  - destruct text; [apply IH|].
    apply mbind_calls; [apply draw_fixed_lines_stamp_sized | intros _ _; apply IH].
Qed.

Lemma draw_stamp_sized text_x text_y :
  Forall stamp_sized (fst (draw_stamp env s stamp_image text_x text_y)).
Proof.
  unfold draw_stamp. destruct stamp_image as [stamp|] eqn:Hst; [|apply mret_calls].
  destruct (stamp_enabled s) eqn:Hen; [|apply mret_calls].
  destruct (stamp_draw_size s stamp) as [[w h]|e] eqn:Hsz; [|constructor].
  unfold lift. rewrite mbind_ok. simpl.
  assert (Hok : forall x y,
             ImageProcessor.stamp_sized s (Some stamp) (PasteStamp w h x y) /\
             ImageProcessor.stamp_sized s (Some stamp) (ResizeStamp w h)).
  { intros x y. split; exists stamp; now rewrite Hsz. }
  apply mbind_calls; [apply call_calls, (proj2 (Hok 0 0))|]. intros _ _.
  destruct (element_offsets s ElStamp) as [ox oy].
  destruct (perform env _); [|apply mret_calls].
  constructor; [exact (proj1 (Hok _ _)) | constructor].
Qed.

Lemma process_image_stamp_sized image_path excel_data fixed_texts output_path :
  Forall stamp_sized
         (fst (process_image env s stamp_image image_path excel_data fixed_texts
                 output_path)).
Proof.
  assert (Hbody : Forall stamp_sized
            (fst (process_image_body env s stamp_image image_path excel_data
                    fixed_texts output_path))).
  { unfold process_image_body.
    do 3 (apply mbind_calls; [apply lift_calls | intros ? _]).
    do 2 (apply mbind_calls; [now apply call_calls | intros _ _]).
    destruct (panel_area _) as [[[x0 y0] x1] y1].
    apply mbind_calls; [now apply draw_fields_calls | intros ? _].
    apply mbind_calls; [apply draw_fixed_texts_stamp_sized | intros ? _].
    apply mbind_calls; [apply draw_stamp_sized | intros _ _].
    apply mbind_calls; [|intros _ _; apply mret_calls].
    apply save_result_calls. intros []; exact I. }
  unfold process_image.
  destruct (process_image_body _ _ _ _ _ _ _) as [calls [v|e]]; exact Hbody.
Qed.

(** [stamp_draw_size], case by case. *)
Lemma stamp_draw_size_cases (stamp : Image) (w h : Z) :
  stamp_draw_size s stamp = Ok (w, h) <->
  exists scaled_w scaled_h,
    py_int (PrimFloat.mul (float_of_Z (width stamp)) (stamp_scale s)) = Ok scaled_w /\
    py_int (PrimFloat.mul (float_of_Z (height stamp)) (stamp_scale s)) = Ok scaled_h /\
    ((scaled_w <= panel_width s - 20 /\ w = scaled_w /\ h = scaled_h) \/
     (panel_width s - 20 < scaled_w /\ w = panel_width s - 20 /\
      exists ratio,
        py_truediv (panel_width s - 20) scaled_w = Ok ratio /\
        py_int (PrimFloat.mul (float_of_Z scaled_h) ratio) = Ok h)).
Proof.
  unfold stamp_draw_size.
  destruct (py_int (PrimFloat.mul (float_of_Z (width stamp)) (stamp_scale s)))
    as [sw|e1]; simpl.
  2: { split; [discriminate | intros (? & ? & ? & _); discriminate]. }
  destruct (py_int (PrimFloat.mul (float_of_Z (height stamp)) (stamp_scale s)))
    as [sh|e2]; simpl.
  2: { split; [discriminate | intros (? & ? & _ & ? & _); discriminate]. }
  destruct (panel_width s - 20 <? sw) eqn:E.
  - apply Z.ltb_lt in E.
    destruct (py_truediv (panel_width s - 20) sw) as [ratio|e3] eqn:Hdiv; simpl.
    2: { split; [discriminate|].
         intros (? & ? & [= <-] & [= <-] & [(? & _)|(_ & _ & r & ? & _)]);
           [lia | congruence]. }
    destruct (py_int (PrimFloat.mul (float_of_Z sh) ratio)) as [h'|e4] eqn:Hh'; simpl.
    + split.
      * intros [= <- <-]. exists sw, sh. repeat split. right.
        repeat split; [exact E|]. now exists ratio.
      * intros (? & ? & [= <-] & [= <-] & [(? & _)|(_ & -> & r & Hr & Hh)]);
          [lia|]. congruence.
    + split; [discriminate|].
      intros (? & ? & [= <-] & [= <-] & [(? & _)|(_ & _ & r & Hr & Hh)]);
        [lia | congruence].
  - apply Z.ltb_ge in E. split.
    + intros [= <- <-]. exists sw, sh. repeat split. left. now repeat split.
    + intros (? & ? & [= <-] & [= <-] & [(_ & -> & ->)|(? & _)]); [reflexivity | lia].
Qed.

Lemma stamp_draw_size_width (stamp : Image) (w h : Z) :
  stamp_draw_size s stamp = Ok (w, h) -> w <= panel_width s - 20.
Proof.
  intros H. apply stamp_draw_size_cases in H
    as (sw & sh & _ & _ & [(? & -> & _)|(_ & -> & _)]); lia.
Qed.

End StampCalls.



(** The stamp of 100 by 50 at 150% is drawn as 150 by 75; the stamp of
    400 by 200 would be 600 wide and is drawn as 280 by 140. *)
Example stamp_sizes :
  ImageProcessor.stamp_draw_size (Samples.sample_settings (lit "left")) Samples.small_stamp
  = Ok (150, 75) /\
  ImageProcessor.stamp_draw_size (Samples.sample_settings (lit "left")) Samples.wide_stamp
  = Ok (280, 140).
Proof. split; vm_compute; reflexivity. Qed.

(** *** The canvas and the panel *)

Section LayoutFacts.
Import ImageProcessor.

Variable env : Env.
Variable s : Settings.
Variable stamp_image : option Image.
Variable image_path : str.
Variable excel_data : gmap str str.
Variable fixed_texts : list str.
Variable output_path : str.

Lemma process_image_calls :
  fst (process_image env s stamp_image image_path excel_data fixed_texts output_path)
  = fst (process_image_body env s stamp_image image_path excel_data fixed_texts
           output_path).
Proof.
  unfold process_image.
  now destruct (process_image_body _ _ _ _ _ _ _) as [calls [v|e]].
Qed.

(** Once the image, the font and the layout are there, the first two calls
    create the canvas and paste the source. *)
Lemma first_calls (original : Image) (font : Font) (lay : Layout) :
  image_open env image_path = Ok original ->
  get_font env (font_size s) = Ok font ->
  layout s font stamp_image original excel_data fixed_texts = Ok lay ->
  perform env (NewImage (new_width lay) (new_height lay) (background_color s)) = Ok tt ->
  perform env (PasteOriginal (fst (paste_at lay)) (snd (paste_at lay))) = Ok tt ->
  exists rest,
    fst (process_image env s stamp_image image_path excel_data fixed_texts output_path)
    = NewImage (new_width lay) (new_height lay) (background_color s)
      :: PasteOriginal (fst (paste_at lay)) (snd (paste_at lay)) :: rest.
Proof.
  intros Hopen Hfont Hlay Hnew Hpaste.
  rewrite process_image_calls. unfold process_image_body.
  rewrite (mbind_lift_ok _ original _ Hopen).
  rewrite (mbind_lift_ok _ font _ Hfont).
  rewrite (mbind_lift_ok _ lay _ Hlay).
  rewrite (mbind_call_ok env _ _ Hnew).
  rewrite (mbind_call_ok env _ _ Hpaste).
  simpl. eauto.
Qed.

End LayoutFacts.

(** C1.  With the source image opened and the font loaded: on the left the
    canvas is [original.width + panel_width] wide and
    [max(original.height, required_height + 20)] high, the source is
    pasted at [(panel_width, 0)] and the panel is
    [(0, 0, panel_width, new_height)]; for any other position the canvas
    is [original.width] wide and [original.height + panel_height] high,
    the source is pasted at [(0, 0)] and the panel is
    [(0, original.height, new_width, new_height)].  When the library
    accepts them, creating that canvas and pasting the source there are
    the first two calls of [process_image]. *)
Theorem panel_geometry (env : ImageProcessor.Env) (s : ImageProcessor.Settings)
    (stamp_image : option ImageProcessor.Image) (image_path : str)
    (excel_data : gmap str str) (fixed_texts : list str) (output_path : str)
    (original : ImageProcessor.Image) (font : ImageProcessor.Font) :
  ImageProcessor.image_open env image_path = Ok original ->
  ImageProcessor.get_font env (ImageProcessor.font_size s) = Ok font ->
  (ImageProcessor.position s = lit "left" ->
   forall required_height,
     ImageProcessor.required_height s font stamp_image excel_data fixed_texts
     = Ok required_height ->
     let new_width := ImageProcessor.width original + ImageProcessor.panel_width s in
     let new_height := Z.max (ImageProcessor.height original) (required_height + 20) in
     ImageProcessor.layout s font stamp_image original excel_data fixed_texts
     = Ok {| ImageProcessor.new_width := new_width;
             ImageProcessor.new_height := new_height;
             ImageProcessor.paste_at := (ImageProcessor.panel_width s, 0);
             ImageProcessor.panel_area :=
               (0, 0, ImageProcessor.panel_width s, new_height) |} /\
     (ImageProcessor.perform env
        (ImageProcessor.NewImage new_width new_height
           (ImageProcessor.background_color s)) = Ok tt ->
      ImageProcessor.perform env
        (ImageProcessor.PasteOriginal (ImageProcessor.panel_width s) 0) = Ok tt ->
      exists rest,
        fst (ImageProcessor.process_image env s stamp_image image_path excel_data
               fixed_texts output_path)
        = ImageProcessor.NewImage new_width new_height
            (ImageProcessor.background_color s)
          :: ImageProcessor.PasteOriginal (ImageProcessor.panel_width s) 0 :: rest)) /\
  (ImageProcessor.position s <> lit "left" ->
   forall panel_height,
     ImageProcessor.panel_height s font stamp_image original excel_data fixed_texts
     = Ok panel_height ->
     let new_width := ImageProcessor.width original in
     let new_height := ImageProcessor.height original + panel_height in
     ImageProcessor.layout s font stamp_image original excel_data fixed_texts
     = Ok {| ImageProcessor.new_width := new_width;
             ImageProcessor.new_height := new_height;
             ImageProcessor.paste_at := (0, 0);
             ImageProcessor.panel_area :=
               (0, ImageProcessor.height original, new_width, new_height) |} /\
     (ImageProcessor.perform env
        (ImageProcessor.NewImage new_width new_height
           (ImageProcessor.background_color s)) = Ok tt ->
      ImageProcessor.perform env (ImageProcessor.PasteOriginal 0 0) = Ok tt ->
      exists rest,
        fst (ImageProcessor.process_image env s stamp_image image_path excel_data
               fixed_texts output_path)
        = ImageProcessor.NewImage new_width new_height
            (ImageProcessor.background_color s)
          :: ImageProcessor.PasteOriginal 0 0 :: rest)).
Proof.
  intros Hopen Hfont. split.
  - intros Hleft required_height Hreq new_width new_height.
    assert (Hlay : ImageProcessor.layout s font stamp_image original excel_data fixed_texts
                   = Ok {| ImageProcessor.new_width := new_width;
                           ImageProcessor.new_height := new_height;
                           ImageProcessor.paste_at := (ImageProcessor.panel_width s, 0);
                           ImageProcessor.panel_area :=
                             (0, 0, ImageProcessor.panel_width s, new_height) |}).
    { unfold ImageProcessor.layout. rewrite decide_True by exact Hleft.
      now rewrite Hreq. }
    split; [exact Hlay|]. intros Hnew Hpaste.
    exact (first_calls env s stamp_image image_path excel_data fixed_texts output_path
             original font _ Hopen Hfont Hlay Hnew Hpaste).
  - intros Hother panel_height Hpan new_width new_height.
    assert (Hlay : ImageProcessor.layout s font stamp_image original excel_data fixed_texts
                   = Ok {| ImageProcessor.new_width := new_width;
                           ImageProcessor.new_height := new_height;
                           ImageProcessor.paste_at := (0, 0);
                           ImageProcessor.panel_area :=
                             (0, ImageProcessor.height original, new_width, new_height) |}).
    { unfold ImageProcessor.layout. rewrite decide_False by exact Hother.
      now rewrite Hpan. }
    split; [exact Hlay|]. intros Hnew Hpaste.
    exact (first_calls env s stamp_image image_path excel_data fixed_texts output_path
             original font _ Hopen Hfont Hlay Hnew Hpaste).
Qed.

Lemma panel_geometry_witness :
  (exists rest,
     fst (ImageProcessor.process_image Samples.sample_env
            (Samples.sample_settings (lit "left")) (Some Samples.wide_stamp)
            (lit "1-1.png") Samples.sample_row [Samples.long_text] (lit "out/1-1.png"))
     = ImageProcessor.NewImage 1300 500 (lit "#FFFFFF")
       :: ImageProcessor.PasteOriginal 300 0 :: rest) /\
  (exists rest,
     fst (ImageProcessor.process_image Samples.sample_env
            (Samples.sample_settings (lit "bottom")) None
            (lit "1-1.png") Samples.sample_row [Samples.long_text] (lit "out/1-1.png"))
     = ImageProcessor.NewImage 1000 645 (lit "#FFFFFF")
       :: ImageProcessor.PasteOriginal 0 0 :: rest).
Proof.
  split.
  - refine (proj2 (proj1 (panel_geometry Samples.sample_env
              (Samples.sample_settings (lit "left")) (Some Samples.wide_stamp)
              (lit "1-1.png") Samples.sample_row [Samples.long_text] (lit "out/1-1.png")
              {| ImageProcessor.width := 1000; ImageProcessor.height := 500 |}
              Samples.mono_font eq_refl eq_refl) eq_refl 365 _) eq_refl eq_refl).
    vm_compute. reflexivity.
  - refine (proj2 (proj2 (panel_geometry Samples.sample_env
              (Samples.sample_settings (lit "bottom")) None
              (lit "1-1.png") Samples.sample_row [Samples.long_text] (lit "out/1-1.png")
              {| ImageProcessor.width := 1000; ImageProcessor.height := 500 |}
              Samples.mono_font eq_refl eq_refl) _ 145 _) eq_refl eq_refl).
    + vm_compute. discriminate.
    + vm_compute. reflexivity.
Defined.

(** ** The fixed texts and the height reserved for them *)

(** The failing input of C2: at the bottom the sizing pass wraps the fixed
    text at [original.width - 20] (one line of 129 characters) and the
    drawing pass at [panel_width - 20] (four lines), so the third and the
    fourth line are drawn past the bottom of the canvas of height 645 and
    the out-of-bounds branch is taken twice, in a run that succeeds. *)
Example bottom_panel_overflows :
  length (ImageProcessor._wrap_text Samples.long_text Samples.mono_font (1000 - 20)) = 1%nat /\
  length (ImageProcessor._wrap_text Samples.long_text Samples.mono_font (300 - 20)) = 4%nat /\
  List.filter ImageProcessor.is_warning
         (fst (ImageProcessor.process_image Samples.sample_env
                 (Samples.sample_settings (lit "bottom")) None
                 (lit "1-1.png") Samples.sample_row [Samples.long_text]
                 (lit "out/1-1.png")))
  = [ImageProcessor.Warning 635 645; ImageProcessor.Warning 655 645] /\
  snd (ImageProcessor.process_image Samples.sample_env
         (Samples.sample_settings (lit "bottom")) None
         (lit "1-1.png") Samples.sample_row [Samples.long_text] (lit "out/1-1.png"))
  = (true, lit "OK").
Proof. repeat split; vm_compute; reflexivity. Qed.

Section LeftPanel.
Import ImageProcessor.

Variable env : Env.
Variable s : Settings.
Variable font : Font.

Local Abbreviation line_height := (font_size s + 8).

Lemma fixed_texts_height_shift avail fixed_texts :
  forall h, fixed_texts_height font avail line_height fixed_texts h
            = h + fixed_texts_height font avail line_height fixed_texts 0.
Proof.
  unfold fixed_texts_height.
  induction fixed_texts as [|text rest IH]; intros h; simpl; [lia|].
  destruct text.
  - apply IH.
  - rewrite IH. symmetry. rewrite IH. lia.
Qed.

Lemma fixed_texts_height_grows avail fixed_texts h :
  0 <= line_height -> h <= fixed_texts_height font avail line_height fixed_texts h.
Proof.
  intros Hlh. revert h. unfold fixed_texts_height.
  induction fixed_texts as [|text rest IH]; intros h; simpl; [lia|].
  destruct text; [apply IH|].
  etransitivity; [|apply IH]. unfold lines_height. nia.
Qed.

Lemma content_height_split stamp_image excel_data fixed_texts avail :
  content_height s font stamp_image excel_data fixed_texts avail
  = let* reserve := stamp_reserve s stamp_image avail in
    Ok (fixed_texts_height font avail line_height fixed_texts
          (height_before_fixed_texts s font excel_data avail) + reserve).
Proof.
  unfold content_height, height_before_fixed_texts.
  destruct (stamp_reserve s stamp_image avail) as [reserve|e]; simpl; [|reflexivity].
  f_equal. f_equal. f_equal.
  destruct (inn_enabled s && has_field excel_data (lit "inn"));
    destruct (kpp_enabled s && has_field excel_data (lit "kpp"));
    destruct (supplier_enabled s && has_field excel_data (lit "supplier"));
    destruct (hyperlink_enabled s && has_field excel_data (lit "hyperlink")); lia.
Qed.

Lemma draw_lines_value text_x lines :
  forall text_y y',
    snd (draw_lines env text_x line_height lines text_y) = Ok y' ->
    y' = text_y + Z.of_nat (length lines) * line_height.
Proof.
  induction lines as [|line lines IH]; intros text_y y' H; simpl in H.
  - inversion H. simpl. lia.
  - apply mbind_value in H as (_ & _ & H). apply IH in H.
    rewrite H. simpl length. lia.
Qed.

Lemma draw_fields_value excel_data text_x text_y y' :
  snd (draw_fields env s font excel_data text_x text_y) = Ok y' ->
  y' = text_y + height_before_fixed_texts s font excel_data (panel_width s - 20) - 20.
Proof.
  unfold draw_fields, height_before_fixed_texts, lines_height. intros H.
  apply mbind_value in H as (y1 & H1 & H).
  apply mbind_value in H as (y2 & H2 & H).
  apply mbind_value in H as (y3 & H3 & H).
  apply mbind_value in H as (y4 & H4 & H).
  apply mbind_value in H as (_ & _ & H).
  simpl in H. inversion H; subst y'. clear H.
  assert (E1 : y1 = text_y + (if inn_enabled s && has_field excel_data (lit "inn")
                              then line_height else 0)).
  { destruct (inn_enabled s && has_field excel_data (lit "inn")).
    - destruct (element_offsets s ElInn).
      apply mbind_value in H1 as (_ & _ & H1). simpl in H1. now inversion H1.
    - simpl in H1. inversion H1. lia. }
  assert (E2 : y2 = y1 + (if kpp_enabled s && has_field excel_data (lit "kpp")
                          then line_height else 0)).
  { destruct (kpp_enabled s && has_field excel_data (lit "kpp")).
    - destruct (element_offsets s ElKpp).
      apply mbind_value in H2 as (_ & _ & H2). simpl in H2. now inversion H2.
    - simpl in H2. inversion H2. lia. }
  assert (E3 : y3 = y2 + (if supplier_enabled s && has_field excel_data (lit "supplier")
                          then Z.of_nat (length (_wrap_text
                                 (SUPPLIER_LABEL ++ field excel_data (lit "supplier"))
                                 font (panel_width s - 20))) * line_height
                          else 0)).
  { destruct (supplier_enabled s && has_field excel_data (lit "supplier")).
    - now apply draw_lines_value in H3.
    - simpl in H3. inversion H3. lia. }
  assert (E4 : y4 = y3 + (if hyperlink_enabled s && has_field excel_data (lit "hyperlink")
                          then Z.of_nat (length (_wrap_text
                                 (LINK_LABEL ++ field excel_data (lit "hyperlink"))
                                 font (panel_width s - 20))) * line_height
                          else 0)).
  { destruct (hyperlink_enabled s && has_field excel_data (lit "hyperlink")).
    - now apply draw_lines_value in H4.
    - simpl in H4. inversion H4. lia. }
  lia.
Qed.

Lemma draw_fixed_lines_quiet text_x bound offset lines :
  0 <= line_height ->
  forall current_y,
    current_y + Z.of_nat (length lines) * line_height <= bound ->
    Forall no_warning
           (fst (draw_fixed_lines env text_x line_height bound offset lines current_y)).
Proof.
  intros Hlh. induction lines as [|line lines IH]; intros current_y Hfit;
    simpl draw_fixed_lines.
  - apply mret_calls.
  - simpl length in Hfit.
    apply mbind_calls.
    + destruct (bound <? current_y + line_height) eqn:E; [|apply mret_calls].
      apply Z.ltb_lt in E. nia.
    + intros _ _. apply mbind_calls; [now apply call_calls|].
      intros _ _. apply IH. lia.
Qed.

Lemma draw_fixed_texts_quiet text_x bound fixed_texts :
  0 <= line_height ->
  forall i text_y,
    fixed_texts_height font (panel_width s - 20) line_height fixed_texts text_y <= bound ->
    Forall no_warning
           (fst (draw_fixed_texts env s font text_x line_height bound i fixed_texts text_y)).
Proof.
  intros Hlh. induction fixed_texts as [|text rest IH]; intros i text_y Hfit;
    simpl draw_fixed_texts.
  - apply mret_calls.
  - destruct text as [|c text]; [now apply IH|].
    change (fixed_texts_height font (panel_width s - 20) line_height ((c :: text) :: rest) text_y)
      with (fixed_texts_height font (panel_width s - 20) line_height rest
              (text_y + lines_height font (panel_width s - 20) line_height (c :: text)))
      in Hfit.
    apply mbind_calls.
    + apply draw_fixed_lines_quiet; [exact Hlh|].
      etransitivity; [|exact Hfit].
      now apply fixed_texts_height_grows.
    + intros _ _. apply IH. exact Hfit.
Qed.

Lemma draw_stamp_quiet stamp_image text_x text_y :
  Forall no_warning (fst (draw_stamp env s stamp_image text_x text_y)).
Proof.
  unfold draw_stamp. destruct stamp_image as [stamp|]; [|apply mret_calls].
  destruct (stamp_enabled s); [|apply mret_calls].
  apply mbind_calls; [apply lift_calls|]. intros [w h] _.
  apply mbind_calls; [now apply call_calls|]. intros _ _.
  destruct (element_offsets s ElStamp) as [ox oy].
  destruct (perform env _); [|apply mret_calls].
  now repeat constructor.
Qed.

End LeftPanel.

(** On the left the height reserved is enough for the fixed texts: when
    the line height is not negative and the height reserved for the stamp
    is not negative either, the out-of-bounds branch is never taken. *)
Theorem left_panel_holds_fixed_texts (env : ImageProcessor.Env)
    (s : ImageProcessor.Settings) (stamp_image : option ImageProcessor.Image)
    (image_path : str) (excel_data : gmap str str) (fixed_texts : list str)
    (output_path : str) :
  ImageProcessor.position s = lit "left" ->
  0 <= ImageProcessor.font_size s + 8 ->
  (forall reserve,
      ImageProcessor.stamp_reserve s stamp_image (ImageProcessor.panel_width s - 20)
      = Ok reserve -> 0 <= reserve) ->
  Forall ImageProcessor.no_warning
         (fst (ImageProcessor.process_image env s stamp_image image_path excel_data
                 fixed_texts output_path)).
Proof.
  intros Hleft Hlh Hstamp.
  rewrite process_image_calls. unfold ImageProcessor.process_image_body.
  apply mbind_calls; [apply lift_calls | intros original _].
  apply mbind_calls; [apply lift_calls | intros font _].
  apply mbind_calls; [apply lift_calls | intros lay Hlay].
  simpl in Hlay. unfold ImageProcessor.layout in Hlay.
  rewrite decide_True in Hlay by exact Hleft.
  unfold ImageProcessor.required_height in Hlay.
  rewrite content_height_split in Hlay.
  destruct (ImageProcessor.stamp_reserve s stamp_image (ImageProcessor.panel_width s - 20))
    as [reserve|e] eqn:Hres; [|discriminate].
  specialize (Hstamp reserve eq_refl).
  simpl in Hlay. inversion Hlay; subst lay; clear Hlay.
  cbn [ImageProcessor.new_width ImageProcessor.new_height ImageProcessor.paste_at
       ImageProcessor.panel_area].
  do 2 (apply mbind_calls; [now apply call_calls | intros _ _]).
  apply mbind_calls; [now apply draw_fields_calls | intros text_y Hy].
  apply draw_fields_value in Hy.
  apply mbind_calls.
  { apply draw_fixed_texts_quiet; [exact Hlh|].
    rewrite fixed_texts_height_shift. subst text_y.
    rewrite (fixed_texts_height_shift s font _ _
               (ImageProcessor.height_before_fixed_texts s font excel_data
                  (ImageProcessor.panel_width s - 20))).
    lia. }
  intros text_y' _.
  apply mbind_calls; [apply draw_stamp_quiet | intros _ _].
  apply mbind_calls; [|intros _ _; apply mret_calls].
  apply save_result_calls. intros op. destruct op; first [exact I | reflexivity].
Qed.

Lemma left_panel_holds_fixed_texts_witness :
  Forall ImageProcessor.no_warning
         (fst (ImageProcessor.process_image Samples.sample_env
                 (Samples.sample_settings (lit "left")) (Some Samples.wide_stamp)
                 (lit "1-1.png") Samples.sample_row [Samples.long_text]
                 (lit "out/1-1.png"))).
Proof.
  apply left_panel_holds_fixed_texts.
  - reflexivity.
  - simpl. lia.
  - intros reserve H. vm_compute in H. injection H as <-. lia.
Defined.

(** ** worker.py: counters and statistics *)

Section WorkerFunctions.
Import Worker PyNum.

(** A float above zero is not zero. *)
Lemma positive_float_nonzero (x : float) :
  PrimFloat.ltb 0%float x = true -> PrimFloat.eqb x 0%float = false.
Proof.
  rewrite FloatAxioms.ltb_spec, FloatAxioms.eqb_spec. unfold SFltb, SFeqb.
  change (Prim2SF 0%float) with (S754_zero false).
  destruct (Prim2SF x) as [sg|sg| |sg m e]; simpl; try discriminate;
    destruct sg; simpl; try discriminate; reflexivity.
Qed.

Lemma py_div_ints_ok (x y : Z) :
  y <> 0 -> exists q, py_div (PyInt x) (PyInt y) = Ok (PyFloat q).
Proof.
  intros Hy. unfold py_div, py_truediv.
  destruct (y =? 0) eqn:E; [apply Z.eqb_eq in E; contradiction|].
  simpl. eauto.
Qed.

Lemma percent_of_ok (processed total : Z) :
  total <> 0 -> exists v, percent_of processed total = Ok v.
Proof.
  intros Ht. unfold percent_of.
  destruct (py_div_ints_ok processed total Ht) as [q ->]. simpl. eauto.
Qed.

(** The speed of both statistics: never a division by zero. *)
Lemma speed_ok (elapsed : float) (processed : Z) :
  exists speed,
    (if PrimFloat.ltb 0%float elapsed
     then py_div (PyInt processed) (PyFloat elapsed)
     else Ok (PyInt 0)) = Ok speed /\
    (is_positive speed = true ->
     forall n, exists q, py_div (PyInt n) speed = Ok q).
Proof.
  destruct (PrimFloat.ltb 0%float elapsed) eqn:E.
  - apply positive_float_nonzero in E. unfold py_div. simpl. rewrite E.
    eexists. split; [reflexivity|]. intros Hpos n. simpl in Hpos.
    apply positive_float_nonzero in Hpos. simpl. rewrite Hpos. eauto.
  - exists (PyInt 0). split; [reflexivity|]. simpl. discriminate.
Qed.

(** What [_emit_statistics] emits: it cannot raise. *)
Lemma emit_statistics_spec (elapsed : float) (w : ProcessingWorker) :
  exists st,
    _emit_statistics elapsed w = Ok (emit (Statistics st) w) /\
    st_processed st = _processed_count w /\ st_total st = _total_files w /\
    (if 0 <? _total_files w
     then percent_of (_processed_count w) (_total_files w) = Ok (st_percent st)
     else st_percent st = PyInt 0).
Proof.
  unfold _emit_statistics.
  destruct (speed_ok elapsed (_processed_count w)) as (speed & -> & Hspeed).
  cbn [bind].
  assert (Hrem : exists remaining,
             (if is_positive speed
              then py_div (PyInt (_total_files w - _processed_count w)) speed
              else Ok (PyInt 0)) = Ok remaining).
  { destruct (is_positive speed); [apply Hspeed; reflexivity | eauto]. }
  destruct Hrem as (remaining & ->). cbn [bind].
  destruct (0 <? _total_files w) eqn:E.
  - apply Z.ltb_lt in E.
    destruct (percent_of_ok (_processed_count w) (_total_files w) ltac:(lia))
      as (percent & Hp).
    rewrite Hp. cbn [bind]. eexists. split; [reflexivity|].
    cbn [st_processed st_total st_percent]. now repeat split.
  - cbn [bind]. eexists. split; [reflexivity|].
    cbn [st_processed st_total st_percent]. now repeat split.
Qed.

(** What [_emit_final_statistics] emits, when the division is defined. *)
Lemma emit_final_statistics_spec (elapsed : float) (w : ProcessingWorker) :
  _processed_count w = _total_files w \/ _total_files w <> 0 ->
  exists st,
    _emit_final_statistics elapsed w = Ok (emit (Statistics st) w) /\
    st_processed st = _processed_count w /\ st_total st = _total_files w /\
    (if _processed_count w =? _total_files w
     then st_percent st = PyInt 100
     else percent_of (_processed_count w) (_total_files w) = Ok (st_percent st)).
Proof.
  intros Hdef. unfold _emit_final_statistics.
  destruct (speed_ok elapsed (_processed_count w)) as (speed & -> & _).
  cbn [bind].
  destruct (_processed_count w =? _total_files w) eqn:E.
  - cbn [bind]. eexists. split; [reflexivity|].
    cbn [st_processed st_total st_percent]. now repeat split.
  - apply Z.eqb_neq in E. destruct Hdef as [Heq|Hne]; [contradiction|].
    destruct (percent_of_ok (_processed_count w) (_total_files w) Hne) as (percent & Hp).
    rewrite Hp. cbn [bind]. eexists. split; [reflexivity|].
    cbn [st_processed st_total st_percent]. now repeat split.
Qed.

(** What [_handle_result] does: it cannot raise; it counts the result,
    emits [file_processed] and [progress], and every tenth time the
    statistics. *)
Lemma handle_result_spec (elapsed : float) (r : ProcessingResult)
    (w : ProcessingWorker) :
  exists w' extra,
    _handle_result elapsed r w = Ok w' /\
    _processed_count w' = _processed_count w + 1 /\
    _success_count w' = (if success r then _success_count w + 1 else _success_count w) /\
    _failed_count w' = (if success r then _failed_count w else _failed_count w + 1) /\
    _total_files w' = _total_files w /\ tasks w' = tasks w /\
    _is_paused w' = _is_paused w /\ _is_cancelled w' = _is_cancelled w /\
    _batch_size w' = _batch_size w /\ _auto_save_interval w' = _auto_save_interval w /\
    signals w'
    = signals w
      ++ [FileProcessed (filename r) (success r) (message r);
          Progress (_processed_count w + 1) (_total_files w) (filename r)]
      ++ extra /\
    (extra = [] \/
     exists st, extra = [Statistics st] /\
       st_processed st = _processed_count w + 1 /\ st_total st = _total_files w /\
       (if 0 <? _total_files w
        then percent_of (_processed_count w + 1) (_total_files w) = Ok (st_percent st)
        else st_percent st = PyInt 0)).
Proof.
  unfold _handle_result.
  set (w1 := emit _ (emit _ (count_result (success r) w))).
  destruct (_processed_count w1 mod 10 =? 0).
  - destruct (emit_statistics_spec elapsed w1) as (st & -> & Hp & Ht & Hpc).
    exists (emit (Statistics st) w1), [Statistics st].
    subst w1. simpl in *. rewrite <- !app_assoc. simpl.
    repeat split. right. exists st. now repeat split.
  - exists w1, []. subst w1. simpl. rewrite <- !app_assoc. simpl.
    repeat split. now left.
Qed.

End WorkerFunctions.

(** ** worker.py: the run *)

Section RunInvariant.
Import Worker PyNum.

Variable n : nat.

(** Distinct task indices below [n] are at most [n]. *)
Lemma distinct_indices_bounded (l : list nat) :
  NoDup l -> (forall f, f ∈ l -> (f < n)%nat) -> (length l <= n)%nat.
Proof.
  intros Hnd Hlt.
  assert (Hsub : l ⊆+ seq 0 n); [|apply submseteq_length in Hsub;
                                   now rewrite length_seq in Hsub].
  apply NoDup_submseteq; [exact Hnd|].
  intros f Hf. apply elem_of_seq. specialize (Hlt f Hf). lia.
Qed.

Lemma submit_bound_below (p : pc) (f : nat) : submit_bound n p f -> (f < n)%nat.
Proof. destruct p; simpl; lia. Qed.

(** In every state the results counted, and those handed out, are at most
    the number of tasks. *)
Lemma counted_at_most_tasks (s : state) :
  run_invariant n s ->
  _processed_count (worker s) + result_pending (at_pc s) <= Z.of_nat n.
Proof.
  intros (_ & _ & _ & _ & Hle & Hnd & Hsub & Hndf & Hb & _).
  assert (length (yielded s) <= n)%nat; [|lia].
  apply distinct_indices_bounded; [exact Hnd|].
  intros f Hf. eapply submit_bound_below, Hb, Hsub, Hf.
Qed.

Lemma result_pending_nonneg (p : pc) : 0 <= result_pending p.
Proof. destruct p; simpl; lia. Qed.

Lemma invariant_initial (tasks : list ProcessingTask) (callback : bool)
    (batch_size auto_save_interval : Z) :
  n = length tasks ->
  run_invariant n (initial (init tasks callback batch_size auto_save_interval)).
Proof.
  intros ->. unfold run_invariant. simpl.
  repeat split; try constructor; try lia; try (intros f Hf; inversion Hf).
Qed.

Lemma invariant_control (c : control) (s : state) :
  run_invariant n s -> run_invariant n (apply_control c s).
Proof. destruct c; exact id. Qed.

Lemma invariant_emit_plain (sg : signal) (p : pc) (s : state) :
  progress_pair sg = None -> percent_ok (Z.of_nat n) sg ->
  result_pending p <= result_pending (at_pc s) ->
  (forall f, submit_bound n (at_pc s) f -> submit_bound n p f) ->
  submit_index_ok n p ->
  run_invariant n s ->
  run_invariant n (with_worker (emit sg (worker s)) p s).
Proof.
  intros Hnone Hok Hpend Hbound Hidx
    (H1 & H2 & H3 & H4 & H5 & H6 & H7 & H8 & H9 & H10 & H11 & H12).
  unfold run_invariant. simpl.
  repeat split; try assumption; try lia.
  - intros f Hf. apply Hbound, H9, Hf.
  - rewrite omap_app. simpl. rewrite Hnone. now rewrite app_nil_r.
  - apply Forall_app. split; [exact H12 | now repeat constructor].
Qed.

Lemma invariant_goto (p : pc) (s : state) :
  result_pending p <= result_pending (at_pc s) ->
  (forall f, submit_bound n (at_pc s) f -> submit_bound n p f) ->
  submit_index_ok n p ->
  run_invariant n s -> run_invariant n (goto p s).
Proof.
  intros Hpend Hbound Hidx
    (H1 & H2 & H3 & H4 & H5 & H6 & H7 & H8 & H9 & H10 & H11 & H12).
  unfold run_invariant. simpl.
  repeat split; try assumption; try lia.
  intros f Hf. apply Hbound, H9, Hf.
Qed.

Ltac goto_case Hpc Hinv :=
  let Hidx := fresh "Hidx" in
  pose proof Hinv as (_ & _ & _ & _ & _ & _ & _ & _ & _ & Hidx & _);
  rewrite Hpc in Hidx; simpl in Hidx;
  apply invariant_goto;
  [ rewrite Hpc; simpl; lia
  | intros ?; rewrite Hpc; simpl; first [lia | tauto]
  | simpl; first [lia | exact I]
  | exact Hinv ].

Lemma invariant_submit_task (s : state) (i : nat) :
  at_pc s = SubmitTask i -> run_invariant n s ->
  run_invariant n {| worker := worker s; at_pc := SubmitCheck (S i);
                     futures := futures s ++ [i]; yielded := yielded s |}.
Proof.
  intros Hpc (H1 & H2 & H3 & H4 & H5 & H6 & H7 & H8 & H9 & H10 & H11 & H12).
  rewrite Hpc in *. simpl in *.
  unfold run_invariant. simpl.
  repeat split; try assumption; try lia.
  - intros f Hf. apply elem_of_app. left. now apply H7.
  - apply NoDup_app. repeat split; [exact H8 | | apply NoDup_singleton].
    intros f Hf Hi. apply list_elem_of_singleton in Hi as ->.
    specialize (H9 _ Hf). lia.
  - apply elem_of_app in H as [Hf|Hf].
    + specialize (H9 _ Hf). lia.
    + apply list_elem_of_singleton in Hf as ->. lia.
Qed.

Lemma invariant_next_future (s : state) (f : nat) :
  at_pc s = NextFuture -> f ∈ futures s -> f ∉ yielded s -> run_invariant n s ->
  run_invariant n {| worker := worker s; at_pc := ResultCheck f;
                     futures := futures s; yielded := f :: yielded s |}.
Proof.
  intros Hpc Hin Hnot (H1 & H2 & H3 & H4 & H5 & H6 & H7 & H8 & H9 & H10 & H11 & H12).
  rewrite Hpc in *. simpl in *.
  unfold run_invariant. simpl.
  repeat split; try assumption; try lia.
  - now constructor.
  - intros g Hg. apply elem_of_cons in Hg as [->|Hg]; [exact Hin | now apply H7].
Qed.

Lemma progress_pairs_extended (processed : Z) (sigs : list signal) (name : str)
    (ok : bool) (msg : str) (extra : list signal) :
  0 <= processed ->
  omap progress_pair extra = [] ->
  omap progress_pair sigs
  = map (fun k => (Z.of_nat k, Z.of_nat n)) (seq 1 (Z.to_nat processed)) ->
  omap progress_pair
       (sigs ++ [FileProcessed name ok msg; Progress (processed + 1) (Z.of_nat n) name]
        ++ extra)
  = map (fun k => (Z.of_nat k, Z.of_nat n)) (seq 1 (Z.to_nat (processed + 1))).
Proof.
  intros Hp Hextra Hsigs.
  rewrite !omap_app, Hsigs, Hextra. simpl.
  replace (Z.to_nat (processed + 1)) with (S (Z.to_nat processed)) by lia.
  rewrite seq_S, map_app. simpl. do 3 f_equal. lia.
Qed.

Lemma invariant_handle (s : state) (f : nat) (elapsed : float)
    (r : ProcessingResult) (w' : ProcessingWorker) :
  at_pc s = ResultHandle f ->
  _handle_result elapsed r (worker s) = Ok w' ->
  run_invariant n s -> run_invariant n (with_worker w' AfterHandle s).
Proof.
  intros Hpc Hres Hinv.
  pose proof (counted_at_most_tasks s Hinv) as Hcount.
  destruct Hinv as (H1 & H2 & H3 & H4 & H5 & H6 & H7 & H8 & H9 & H10 & H11 & H12).
  rewrite Hpc in *. simpl in *.
  destruct (handle_result_spec elapsed r (worker s))
    as (w1 & extra & Hw1 & Ep & Es & Ef & Et & Etasks & _ & _ & _ & _ & Esig & Hextra).
  rewrite Hres in Hw1. injection Hw1 as <-.
  unfold run_invariant. simpl.
  rewrite Ep, Es, Ef, Et, Etasks, Esig, H2.
  repeat split; try assumption; try lia.
  - destruct (success r); lia.
  - apply progress_pairs_extended; [exact H4 | | exact H11].
    destruct Hextra as [->|(st & -> & _)]; reflexivity.
  - apply Forall_app. split; [exact H12|].
    constructor; [exact I|]. constructor; [exact I|].
    destruct Hextra as [->|(st & -> & Hsp & Hst & Hpct)]; [constructor|].
    constructor; [|constructor]. simpl. rewrite H2 in Hst, Hpct.
    split; [exact Hst|]. left.
    assert (Hpos : (0 <? Z.of_nat n) = true) by (apply Z.ltb_lt; lia).
    rewrite Hpos in Hpct. rewrite Hsp. split; [lia | exact Hpct].
Qed.

Lemma invariant_finally (s : state) (elapsed : float) (w' : ProcessingWorker) :
  at_pc s = Finally ->
  _emit_final_statistics elapsed (worker s) = Ok w' ->
  run_invariant n s -> run_invariant n (with_worker (emit Finished w') Done s).
Proof.
  intros Hpc Hres Hinv.
  pose proof (counted_at_most_tasks s Hinv) as Hcount.
  destruct Hinv as (H1 & H2 & H3 & H4 & H5 & H6 & H7 & H8 & H9 & H10 & H11 & H12).
  rewrite Hpc in *. simpl in *.
  destruct (emit_final_statistics_spec elapsed (worker s))
    as (st & Hw1 & Hsp & Hst & Hpct); [lia|].
  rewrite Hres in Hw1. injection Hw1 as ->.
  unfold run_invariant. simpl.
  repeat split; try assumption; try lia.
  - rewrite <- app_assoc, omap_app. simpl. now rewrite app_nil_r.
  - rewrite <- app_assoc. apply Forall_app. split; [exact H12|].
    constructor; [|now repeat constructor]. simpl.
    rewrite H2 in Hst, Hpct. split; [exact Hst|].
    destruct (_processed_count (worker s) =? Z.of_nat n) eqn:E.
    + right. apply Z.eqb_eq in E. split; [lia | exact Hpct].
    + left. apply Z.eqb_neq in E. rewrite Hsp. split; [lia | exact Hpct].
Qed.

Lemma invariant_run_step (s s' : state) :
  run_invariant n s -> run_step s s' -> run_invariant n s'.
Proof.
  intros Hinv Hstep.
  pose proof Hinv as (_ & _ & Htasks & _).
  destruct Hstep as
    [s Hpc|s Hpc|s e Hpc|s i Hpc Hi Hc|s i Hpc Hi Hc|s i Hpc Hi|s i Hpc Hp|s i Hpc
    |s f Hpc Hin Hnot|s Hpc Hall|s f Hpc Hc|s f Hpc Hc|s f Hpc Hp
    |s f elapsed r w' Hpc Hres|s Hpc Ha Hb|s e Hpc Hz|s Hpc|s e Hpc
    |s elapsed w' Hpc Hres|s elapsed e Hpc Hres].
  - apply invariant_emit_plain; try reflexivity; try exact I; try exact Hinv.
    + rewrite Hpc. simpl. lia.
    + intros f. rewrite Hpc. simpl. tauto.
  - goto_case Hpc Hinv.
  - goto_case Hpc Hinv.
  - goto_case Hpc Hinv.
  - goto_case Hpc Hinv.
  - goto_case Hpc Hinv.
  - goto_case Hpc Hinv.
  - now apply invariant_submit_task.
  - now apply invariant_next_future.
  - goto_case Hpc Hinv.
  - goto_case Hpc Hinv.
  - goto_case Hpc Hinv.
  - goto_case Hpc Hinv.
  - now apply (invariant_handle s f elapsed r w').
  - goto_case Hpc Hinv.
  - goto_case Hpc Hinv.
  - goto_case Hpc Hinv.
  - apply invariant_emit_plain; try reflexivity; try exact I; try exact Hinv.
    + rewrite Hpc. simpl. lia.
    + intros f. rewrite Hpc. simpl. tauto.
  - now apply (invariant_finally s elapsed w').
  - goto_case Hpc Hinv.
Qed.

Lemma invariant_reachable (s0 s : state) :
  run_invariant n s0 -> rtc step s0 s -> run_invariant n s.
Proof.
  intros H0 Hsteps. induction Hsteps as [|s1 s2 s3 Hstep _ IH]; [exact H0|].
  apply IH. destruct Hstep as [s1 s2 Hrun|c s1].
  - now apply (invariant_run_step s1 s2).
  - now apply invariant_control.
Qed.

End RunInvariant.

(** *** Two complete runs *)

Section SampleRuns.
Import Worker PyNum.

(** A run without tasks: the only statistics are the final ones, and
    they report 100 percent of 0 files. *)
Lemma run_without_tasks :
  exists s st,
    rtc step (initial (init [] false 50 100)) s /\
    at_pc s = Done /\
    signals (worker s) = [Started; Statistics st; Finished] /\
    st_processed st = 0 /\ st_total st = 0 /\ st_percent st = PyInt 100.
Proof.
  eexists _, _. split.
  - eapply rtc_l; [apply step_run, step_start; reflexivity|].
    eapply rtc_l; [apply step_run, step_setup; reflexivity|].
    eapply rtc_l; [apply step_run, (step_submit_exhausted _ 0%nat); [reflexivity|simpl; lia]|].
    eapply rtc_l; [apply step_run, step_no_future;
                   [reflexivity | intros f Hf; inversion Hf]|].
    eapply rtc_l; [apply step_run, step_shutdown; reflexivity|].
    eapply rtc_l; [apply step_run, (step_finally _ 0%float); [reflexivity|]|].
    { vm_compute. reflexivity. }
    apply rtc_refl.
  - vm_compute. repeat split.
Qed.

(** A run of one task that succeeds. *)
Lemma run_of_one_task :
  exists s,
    rtc step (initial (init [Samples.one_task] false 50 100)) s /\
    at_pc s = Done /\ _processed_count (worker s) = 1.
Proof.
  eexists. split.
  - eapply rtc_l; [apply step_run, step_start; reflexivity|].
    eapply rtc_l; [apply step_run, step_setup; reflexivity|].
    eapply rtc_l; [apply step_run, (step_submit_continue _ 0%nat);
                   [reflexivity | simpl; lia | reflexivity]|].
    eapply rtc_l; [apply step_run, (step_submit_wait _ 0%nat); reflexivity|].
    eapply rtc_l; [apply step_run, (step_submit_task _ 0%nat); reflexivity|].
    eapply rtc_l; [apply step_run, (step_submit_exhausted _ 1%nat);
                   [reflexivity | simpl; lia]|].
    eapply rtc_l; [apply step_run, (step_next_future _ 0%nat);
                   [reflexivity | simpl; left | simpl; inversion 1]|].
    eapply rtc_l; [apply step_run, (step_result_continue _ 0%nat); reflexivity|].
    eapply rtc_l; [apply step_run, (step_result_wait _ 0%nat); reflexivity|].
    eapply rtc_l; [apply step_run, (step_handle _ 0%nat 0.5%float Samples.ok_result);
                   [reflexivity|]|].
    { vm_compute. reflexivity. }
    eapply rtc_l; [apply step_run, step_after_handle;
                   [reflexivity | simpl; lia | simpl; lia]|].
    eapply rtc_l; [apply step_run, step_no_future; [reflexivity|]|].
    { simpl. intros f Hf. exact Hf. }
    eapply rtc_l; [apply step_run, step_shutdown; reflexivity|].
    eapply rtc_l; [apply step_run, (step_finally _ 0.75%float); [reflexivity|]|].
    { vm_compute. reflexivity. }
    apply rtc_refl.
  - vm_compute. split; reflexivity.
Qed.

End SampleRuns.




(** *** Cancellation *)

Section Cancellation.
Import Worker PyNum.

Lemma emit_final_statistics_shape (elapsed : float) (w w' : ProcessingWorker) :
  _emit_final_statistics elapsed w = Ok w' -> exists st, w' = emit (Statistics st) w.
Proof.
  unfold _emit_final_statistics.
  destruct (speed_ok elapsed (_processed_count w)) as (speed & -> & _).
  cbn [bind].
  destruct (_processed_count w =? _total_files w); cbn [bind].
  - intros [= <-]. eauto.
  - destruct (percent_of (_processed_count w) (_total_files w)); cbn [bind];
      [intros [= <-]; eauto | discriminate].
Qed.

(** A step of the worker's thread touches neither event; once cancelled,
    it submits or counts only what was already past its check, and it
    comes closer to the end. *)
Lemma run_step_effect (s s' : state) :
  run_step s s' ->
  _is_cancelled (worker s') = _is_cancelled (worker s) /\
  _is_paused (worker s') = _is_paused (worker s) /\
  (_is_cancelled (worker s) = true ->
   (length (futures s') + submit_in_flight (at_pc s')
    <= length (futures s) + submit_in_flight (at_pc s))%nat /\
   _processed_count (worker s') + handle_in_flight (at_pc s')
   <= _processed_count (worker s) + handle_in_flight (at_pc s) /\
   (rank (at_pc s') < rank (at_pc s))%nat).
Proof.
  intros Hstep.
  destruct Hstep as
    [s Hpc|s Hpc|s e Hpc|s i Hpc Hi Hc|s i Hpc Hi Hc|s i Hpc Hi|s i Hpc Hp|s i Hpc
    |s f Hpc Hin Hnot|s Hpc Hall|s f Hpc Hc|s f Hpc Hc|s f Hpc Hp
    |s f elapsed r w' Hpc Hres|s Hpc Ha Hb|s e Hpc Hz|s Hpc|s e Hpc
    |s elapsed w' Hpc Hres|s elapsed e Hpc Hres];
    try solve [simpl; rewrite Hpc; simpl;
               repeat split; try reflexivity; intros; try congruence; lia].
  - simpl. rewrite Hpc. simpl. repeat split; try reflexivity; intros; try lia.
    rewrite length_app. simpl. lia.
  - destruct (handle_result_spec elapsed r (worker s))
      as (w1 & extra & Hw1 & Ep & _ & _ & _ & _ & Epa & Eca & _).
    rewrite Hres in Hw1. injection Hw1 as <-.
    simpl. rewrite Hpc, Ep, Epa, Eca. simpl.
    repeat split; try reflexivity; intros; lia.
  - apply emit_final_statistics_shape in Hres as (st & ->).
    simpl. rewrite Hpc. simpl. repeat split; try reflexivity; intros; lia.
Qed.

Lemma control_effect (c : control) (s : state) :
  at_pc (apply_control c s) = at_pc s /\
  futures (apply_control c s) = futures s /\
  _processed_count (worker (apply_control c s)) = _processed_count (worker s) /\
  (_is_cancelled (worker s) = true ->
   _is_cancelled (worker (apply_control c s)) = true) /\
  (c <> Pause -> _is_paused (worker (apply_control c s)) = true).
Proof. destruct c; simpl; repeat split; try tauto; congruence. Qed.

(** From a cancelled state on. *)
Lemma after_cancel (s s' : state) :
  rtc step s s' -> _is_cancelled (worker s) = true ->
  _is_cancelled (worker s') = true /\
  (length (futures s') + submit_in_flight (at_pc s')
   <= length (futures s) + submit_in_flight (at_pc s))%nat /\
  _processed_count (worker s') + handle_in_flight (at_pc s')
  <= _processed_count (worker s) + handle_in_flight (at_pc s).
Proof.
  induction 1 as [s|s s1 s' Hstep _ IH]; intros Hc; [repeat split; [exact Hc | lia..]|].
  destruct Hstep as [s s1 Hrun|c s].
  - destruct (run_step_effect s s1 Hrun) as (Ec & _ & Hrest).
    destruct (Hrest Hc) as (Hq & Hr & _).
    destruct IH as (IH1 & IH2 & IH3); [now rewrite Ec|].
    repeat split; [exact IH1 | lia | lia].
  - destruct (control_effect c s) as (Epc & Ef & Ep & Hcc & _).
    destruct IH as (IH1 & IH2 & IH3); [now apply Hcc|].
    rewrite Epc, Ef, Ep in *. repeat split; [exact IH1 | lia | lia].
Qed.

(** Cancelled and with the pause event set, and no [pause()] any more:
    both stay. *)
Lemma after_cancel_no_pause (s s' : state) :
  rtc step_no_pause s s' ->
  _is_cancelled (worker s) = true -> _is_paused (worker s) = true ->
  _is_cancelled (worker s') = true /\ _is_paused (worker s') = true.
Proof.
  induction 1 as [s|s s1 s' Hstep _ IH]; intros Hc Hp; [now split|].
  apply IH; destruct Hstep as [s s1 Hrun|c s Hne].
  - destruct (run_step_effect s s1 Hrun) as (Ec & _). now rewrite Ec.
  - now apply control_effect.
  - destruct (run_step_effect s s1 Hrun) as (_ & Ep & _). now rewrite Ep.
  - now apply control_effect.
Qed.

(** With the pause event set, the worker's thread is never stuck before
    the end. *)
Lemma never_blocked (s : state) :
  _is_paused (worker s) = true -> at_pc s = Done \/ exists s', run_step s s'.
Proof.
  intros Hp. destruct (at_pc s) as [| |i|i|i| |f|f|f| | |e| |] eqn:Hpc;
    try (now left); right.
  - eexists. now apply step_start.
  - eexists. now apply step_setup.
  - destruct (le_lt_dec (length (tasks (worker s))) i) as [Hge|Hlt].
    + eexists. now apply (step_submit_exhausted s i).
    + destruct (_is_cancelled (worker s)) eqn:Hc; eexists.
      * now apply (step_submit_cancelled s i).
      * now apply (step_submit_continue s i).
  - eexists. now apply (step_submit_wait s i).
  - eexists. now apply (step_submit_task s i).
  - destruct (decide (Exists (fun f => f ∉ yielded s) (futures s))) as [Hex|Hall].
    + apply Exists_exists in Hex as (f & Hin & Hnot).
      eexists. now apply (step_next_future s f).
    + eexists. apply step_no_future; [exact Hpc|].
      intros f Hf. destruct (decide (f ∈ yielded s)) as [Hy|Hy]; [exact Hy|].
      exfalso. apply Hall, Exists_exists. eauto.
  - destruct (_is_cancelled (worker s)) eqn:Hc; eexists.
    + now apply (step_result_cancelled s f).
    + now apply (step_result_continue s f).
  - eexists. now apply (step_result_wait s f).
  - destruct (handle_result_spec 0%float
                {| filename := []; success := false; message := [];
                   processing_time := 0%float |} (worker s))
      as (w' & _ & Hw & _).
    eexists. exact (step_handle s f _ _ w' Hpc Hw).
  - destruct (decide (_auto_save_interval (worker s) = 0)) as [Ha|Ha];
      [eexists; apply (step_after_handle_raises s []); [exact Hpc | now left]|].
    destruct (decide (_batch_size (worker s) = 0)) as [Hb|Hb];
      [eexists; apply (step_after_handle_raises s []); [exact Hpc | now right; left]|].
    eexists. now apply step_after_handle.
  - eexists. now apply step_shutdown.
  - eexists. now apply (step_except s e).
  - destruct (_emit_final_statistics 0%float (worker s)) as [w'|e] eqn:Hf; eexists.
    + exact (step_finally s _ w' Hpc Hf).
    + exact (step_finally_raises s _ e Hpc Hf).
Qed.

(** At a cancellation check the cancelled worker leaves its loop. *)
Lemma check_exits (s s' : state) :
  _is_cancelled (worker s) = true -> run_step s s' ->
  (forall i, at_pc s = SubmitCheck i ->
             at_pc s' = NextFuture /\ futures s' = futures s /\ worker s' = worker s) /\
  (forall f, at_pc s = ResultCheck f ->
             at_pc s' = Shutdown /\ futures s' = futures s /\ worker s' = worker s).
Proof.
  intros Hc Hstep.
  destruct Hstep; split; intros j Hj; try congruence; now repeat split.
Qed.

End Cancellation.


(** A worker paused while it waits to submit its only task is blocked;
    after [cancel()] it submits that one task, leaves both loops at their
    checks without counting a result, and ends. *)
Example paused_worker_ends_after_cancel :
  exists blocked final,
    rtc Worker.step
        (Worker.initial (Worker.init [Samples.one_task] false 50 100)) blocked /\
    Worker.at_pc blocked = Worker.SubmitWait 0 /\
    Worker.is_paused (Worker.worker blocked) = true /\
    (forall s', ~ Worker.run_step blocked s') /\
    rtc Worker.step_no_pause (Worker.apply_control Worker.Cancel blocked) final /\
    Worker.at_pc final = Worker.Done /\
    Worker.futures final = [0%nat] /\
    Worker._processed_count (Worker.worker final) = 0.
Proof.
  eexists _, _. split.
  { eapply rtc_l; [apply Worker.step_run, Worker.step_start; reflexivity|].
    eapply rtc_l; [apply Worker.step_run, Worker.step_setup; reflexivity|].
    eapply rtc_l; [apply Worker.step_run, (Worker.step_submit_continue _ 0%nat);
                   [reflexivity | simpl; lia | reflexivity]|].
    eapply rtc_l; [apply (Worker.step_control Worker.Pause)|].
    apply rtc_refl. }
  split; [reflexivity|]. split; [reflexivity|]. split.
  { intros s' Hstep. inversion Hstep; subst; simpl in *; congruence. }
  split.
  { eapply rtc_l; [apply Worker.np_run, (Worker.step_submit_wait _ 0%nat); reflexivity|].
    eapply rtc_l; [apply Worker.np_run, (Worker.step_submit_task _ 0%nat); reflexivity|].
    eapply rtc_l; [apply Worker.np_run, (Worker.step_submit_exhausted _ 1%nat);
                   [reflexivity | simpl; lia]|].
    eapply rtc_l; [apply Worker.np_run, (Worker.step_next_future _ 0%nat);
                   [reflexivity | simpl; left | simpl; inversion 1]|].
    eapply rtc_l; [apply Worker.np_run, (Worker.step_result_cancelled _ 0%nat);
                   reflexivity|].
    eapply rtc_l; [apply Worker.np_run, Worker.step_shutdown; reflexivity|].
    eapply rtc_l; [apply Worker.np_run, (Worker.step_finally _ 0.5%float);
                   [reflexivity|]|].
    { vm_compute. reflexivity. }
    apply rtc_refl. }
  vm_compute. repeat split.
Qed.

(** * Further properties *)

(** ** Column letters, the other way round *)

Section ColumnLettersBack.
Import ExcelColumns ExcelAccess.

Local Abbreviation digit_step :=
  (fun (result : Z) (char : N) => result * 26 + (ord char - ord 65%N + 1)).

Lemma upper_of_letter (c : N) :
  is_ascii_letter c = true -> is_upper_AZ (upper_char c) = true.
Proof.
  unfold is_ascii_letter, is_upper_AZ, upper_char. intros H.
  apply orb_true_iff in H as [H|H]; apply andb_true_iff in H as [H1 H2];
    apply N.leb_le in H1, H2.
  - destruct ((97 <=? c)%N) eqn:E; [apply N.leb_le in E; lia|]. simpl.
    apply andb_true_iff. split; apply N.leb_le; lia.
  - assert (E1 : (97 <=? c)%N = true) by (apply N.leb_le; lia).
    assert (E2 : (c <=? 122)%N = true) by (apply N.leb_le; lia).
    rewrite E1, E2. simpl. apply andb_true_iff. split; apply N.leb_le; lia.
Qed.

Lemma fold_digits_nonneg (u : list N) :
  forall a, 0 <= a -> forallb is_upper_AZ u = true -> 0 <= fold_left digit_step u a.
Proof.
  induction u as [|c u IH]; intros a Ha Hu; simpl; [exact Ha|].
  simpl in Hu. apply andb_true_iff in Hu as [Hc Hu]. apply IH; [|exact Hu].
  unfold is_upper_AZ in Hc. apply andb_true_iff in Hc as [H1 H2].
  apply N.leb_le in H1, H2. unfold ord. lia.
Qed.

Lemma fold_digits_positive (u : list N) :
  forall a, 1 <= a -> forallb is_upper_AZ u = true -> 1 <= fold_left digit_step u a.
Proof.
  induction u as [|c u IH]; intros a Ha Hu; simpl; [exact Ha|].
  simpl in Hu. apply andb_true_iff in Hu as [Hc Hu]. apply IH; [|exact Hu].
  unfold is_upper_AZ in Hc. apply andb_true_iff in Hc as [H1 H2].
  apply N.leb_le in H1, H2. unfold ord. lia.
Qed.

(** Writing the letters of the number read from [u] after [a] gives back
    [u], in front of what [a] itself writes. *)
Lemma letters_of_digits (u : list N) :
  forall a res, 0 <= a -> forallb is_upper_AZ u = true ->
    column_letter_loop (fold_left digit_step u a - 1) res
    = column_letter_loop (a - 1) (u ++ res).
Proof.
  induction u as [|c u IH]; intros a res Ha Hu; [reflexivity|].
  simpl in Hu. apply andb_true_iff in Hu as [Hc Hu].
  unfold is_upper_AZ in Hc. apply andb_true_iff in Hc as [H1 H2].
  apply N.leb_le in H1, H2.
  cbn [fold_left]. rewrite IH; [|unfold ord; lia | exact Hu].
  rewrite column_letter_loop_nonneg by (unfold ord; lia).
  replace (a * 26 + (ord c - ord 65%N + 1) - 1) with ((ord c - 65) + a * 26)
    by (unfold ord; lia).
  rewrite Z.div_add, Z.mod_add by lia.
  rewrite Z.div_small, Z.mod_small by (unfold ord; lia).
  replace (chr (ord c - 65 + ord 65%N)) with c.
  - simpl. now replace (0 + a - 1) with (a - 1) by lia.
  - unfold chr, ord. replace (Z.of_N c - 65 + Z.of_N 65) with (Z.of_N c) by lia.
    now rewrite N2Z.id.
Qed.

End ColumnLettersBack.

(** X2.  Column letters to index and back: for every string of ASCII letters,
    [get_column_letter (get_column_index letter)] is the string in upper
    case, so [get_column_index] separates the upper-cased names. *)
Theorem column_index_letter_roundtrip (letter : str) :
  forallb ExcelAccess.is_ascii_letter letter = true ->
  ExcelColumns.get_column_letter (ExcelColumns.get_column_index letter)
  = py_upper letter /\
  -1 <= ExcelColumns.get_column_index letter /\
  (letter <> [] -> 0 <= ExcelColumns.get_column_index letter).
Proof.
  intros Hletters.
  assert (Hupper : forallb is_upper_AZ (py_upper letter) = true).
  { unfold py_upper. rewrite forallb_forall in *. intros c Hc.
    apply in_map_iff in Hc as (c0 & <- & Hc0). apply upper_of_letter, Hletters, Hc0. }
  unfold ExcelColumns.get_column_letter, ExcelColumns.get_column_index.
  split; [|split].
  - rewrite (letters_of_digits (py_upper letter) 0 []) by (lia || exact Hupper).
    rewrite column_letter_loop_neg by lia. now rewrite app_nil_r.
  - pose proof (fold_digits_nonneg (py_upper letter) 0 ltac:(lia) Hupper). lia.
  - intros Hne. destruct letter as [|c rest]; [contradiction|].
    unfold py_upper in *. cbn [map forallb fold_left] in *.
    apply andb_true_iff in Hupper as [Hc Hrest].
    assert (1 <= fold_left (fun result char => result * 26 + (ord char - ord 65%N + 1))
                   (map upper_char rest)
                   (0 * 26 + (ord (upper_char c) - ord 65%N + 1))); [|lia].
    apply fold_digits_positive; [|exact Hrest].
    unfold is_upper_AZ in Hc. apply andb_true_iff in Hc as [H1 H2].
    apply N.leb_le in H1, H2. unfold ord. lia.
Qed.

Lemma column_index_letter_roundtrip_witness :
  ExcelColumns.get_column_letter (ExcelColumns.get_column_index (lit "aZ"))
  = py_upper (lit "aZ") /\
  -1 <= ExcelColumns.get_column_index (lit "aZ") /\
  (lit "aZ" <> [] -> 0 <= ExcelColumns.get_column_index (lit "aZ")).
Proof. apply column_index_letter_roundtrip. reflexivity. Defined.

(** ** Stripping and normalising *)

Section Strip.
Import ExcelAccess.

(** [lstrip] removes a prefix of white space and nothing else. *)
Lemma lstrip_split (s : str) :
  exists pre, s = pre ++ lstrip s /\ forallb py_isspace pre = true.
Proof.
  induction s as [|c s (pre & Hs & Hpre)]; [now exists []|].
  simpl. destruct (py_isspace c) eqn:Hc.
  - exists (c :: pre). simpl. rewrite Hc, Hpre. split; [now f_equal | reflexivity].
  - now exists [].
Qed.

Lemma lstrip_clean (s : str) : starts_clean (lstrip s).
Proof.
  induction s as [|c s IH]; simpl; [exact I|].
  destruct (py_isspace c) eqn:Hc; [exact IH | exact Hc].
Qed.

Lemma lstrip_of_clean (s : str) : starts_clean s -> lstrip s = s.
Proof. destruct s as [|c s]; simpl; [reflexivity|]. now intros ->. Qed.

Lemma rstrip_prefix (s : str) : exists post, s = rstrip s ++ post.
Proof.
  unfold rstrip. destruct (lstrip_split (rev s)) as (pre & Hs & _).
  exists (rev pre). rewrite <- rev_app_distr, <- Hs. now rewrite rev_involutive.
Qed.

Lemma rstrip_keeps_clean (s : str) : starts_clean s -> starts_clean (rstrip s).
Proof.
  intros Hs. destruct (rstrip_prefix s) as (post & Hpost).
  destruct (rstrip s) as [|c r]; [exact I|].
  rewrite Hpost in Hs. exact Hs.
Qed.

Lemma rstrip_idempotent (s : str) : rstrip (rstrip s) = rstrip s.
Proof.
  unfold rstrip. rewrite rev_involutive.
  now rewrite (lstrip_of_clean _ (lstrip_clean (rev s))).
Qed.

Lemma py_strip_idempotent (s : str) : py_strip (py_strip s) = py_strip s.
Proof.
  unfold py_strip.
  rewrite (lstrip_of_clean (rstrip (lstrip s))).
  - apply rstrip_idempotent.
  - apply rstrip_keeps_clean, lstrip_clean.
Qed.

Lemma py_strip_clean (s : str) :
  starts_clean (py_strip s) /\ starts_clean (rev (py_strip s)).
Proof.
  unfold py_strip. split.
  - apply rstrip_keeps_clean, lstrip_clean.
  - unfold rstrip. rewrite rev_involutive. apply lstrip_clean.
Qed.

(** A replacement of one non-blank character by another commutes with
    stripping. *)
Lemma lstrip_replace (a b : N) (s : str) :
  py_isspace a = false -> py_isspace b = false ->
  lstrip (py_replace a b s) = py_replace a b (lstrip s).
Proof.
  intros Ha Hb. induction s as [|c s IH]; [reflexivity|].
  simpl. destruct (c =? a)%N eqn:E.
  - apply N.eqb_eq in E as ->. rewrite Ha, Hb. simpl. now rewrite N.eqb_refl.
  - destruct (py_isspace c); [exact IH|]. simpl. now rewrite E.
Qed.

Lemma py_strip_replace (a b : N) (s : str) :
  py_isspace a = false -> py_isspace b = false ->
  py_strip (py_replace a b s) = py_replace a b (py_strip s).
Proof.
  intros Ha Hb. unfold py_strip, rstrip.
  rewrite (lstrip_replace a b s Ha Hb).
  unfold py_replace at 1. rewrite <- map_rev.
  fold (py_replace a b (rev (lstrip s))).
  rewrite (lstrip_replace a b _ Ha Hb).
  unfold py_replace. now rewrite map_rev.
Qed.

Lemma starts_clean_replace (a b : N) (s : str) :
  py_isspace b = false -> starts_clean s -> starts_clean (py_replace a b s).
Proof.
  intros Hb. destruct s as [|c s]; simpl; [trivial|].
  now destruct (c =? a)%N.
Qed.

End Strip.

Lemma normalize_position_facts (position : str) :
  Excel._normalize_position (Excel._normalize_position position)
  = Excel._normalize_position position /\
  (DOT ∉ Excel._normalize_position position) /\
  ExcelAccess.starts_clean (Excel._normalize_position position) /\
  ExcelAccess.starts_clean (rev (Excel._normalize_position position)).
Proof.
  unfold Excel._normalize_position.
  assert (Hd : py_isspace DOT = false) by reflexivity.
  assert (Hh : py_isspace HYPHEN = false) by reflexivity.
  split; [|split; [|split]].
  - rewrite (py_strip_replace DOT HYPHEN _ Hd Hh), py_strip_idempotent.
    unfold py_replace. rewrite map_map. apply map_ext. intros c.
    destruct (c =? DOT)%N eqn:E; [reflexivity | now rewrite E].
  - unfold py_replace. intros Hin. apply list_elem_of_In, in_map_iff in Hin
      as (c & Hc & _).
    destruct (c =? DOT)%N eqn:E; [discriminate|].
    apply N.eqb_neq in E. congruence.
  - apply starts_clean_replace; [exact Hh | apply py_strip_clean].
  - unfold py_replace. rewrite <- map_rev.
    apply (starts_clean_replace DOT HYPHEN _ Hh), py_strip_clean.
Qed.

(** X3.  [_normalize_position] is idempotent: a normalised position is left as
    it is.  Its result holds no dot and neither starts nor ends with white
    space, so it is the key itself that [parse] stores. *)
Theorem normalize_position_idempotent (position : str) :
  Excel._normalize_position (Excel._normalize_position position)
  = Excel._normalize_position position /\
  (DOT ∉ Excel._normalize_position position) /\
  ExcelAccess.starts_clean (Excel._normalize_position position) /\
  ExcelAccess.starts_clean (rev (Excel._normalize_position position)).
Proof. apply normalize_position_facts. Qed.

(** ** What a parsed reader holds *)

Section ParsedData.
Import Excel ExcelAccess.

Variable value : Type.
Variable py_str : value -> str.

Local Abbreviation row := (Excel.row value).

Variable columns : list (str * Z).
Variable pos_col : Z.
Hypothesis columns_usable : Forall (fun kc => 0 <= snd kc) columns.

Lemma store_keyed_row (d : gmap str (gmap str str)) (r : row) (key : str) :
  row_key value py_str pos_col r = Some key ->
  store_row value py_str columns pos_col d r
  = <[key := row_fields value py_str columns r]> d.
Proof.
  intros Hkey. unfold store_row, row_fields. rewrite Hkey.
  destruct (read_fields_ok value py_str columns r columns_usable ∅) as [rd ->].
  reflexivity.
Qed.

(** After the rows are stored, a key holds the fields of the last row that
    has it, and what it held before when no row has it. *)
Lemma stored_lookup (rows : list row) (d : gmap str (gmap str str)) (key : str) :
  Forall (fun r => is_Some (row_key value py_str pos_col r)) rows ->
  fold_left (store_row value py_str columns pos_col) rows d !! key
  = match last_row_with_key value py_str pos_col key rows with
    | Some r => Some (row_fields value py_str columns r)
    | None => d !! key
    end.
Proof.
  unfold last_row_with_key.
  induction rows as [|r rows IH] using rev_ind; intros Hall; [reflexivity|].
  apply Forall_app in Hall as [Hrows Hr].
  inversion Hr as [|? ? [k Hk] _]; subst.
  rewrite fold_left_app, rev_app_distr. simpl.
  rewrite (store_keyed_row _ r k Hk), lookup_insert.
  rewrite Hk. destruct (decide (k = key)) as [->|Hne].
  - now rewrite bool_decide_eq_true_2.
  - rewrite bool_decide_eq_false_2 by congruence. now apply IH.
Qed.

Lemma stored_twice (rows : list row) (d : gmap str (gmap str str)) :
  Forall (fun r => is_Some (row_key value py_str pos_col r)) rows ->
  fold_left (store_row value py_str columns pos_col) rows
    (fold_left (store_row value py_str columns pos_col) rows d)
  = fold_left (store_row value py_str columns pos_col) rows d.
Proof.
  intros Hall. apply map_eq. intros key.
  rewrite (stored_lookup rows (fold_left _ rows d) key Hall).
  rewrite (stored_lookup rows d key Hall).
  now destruct (last_row_with_key value py_str pos_col key rows).
Qed.

Lemma stored_keys (rows : list row) (d : gmap str (gmap str str)) :
  Forall (fun r => is_Some (row_key value py_str pos_col r)) rows ->
  dom (fold_left (store_row value py_str columns pos_col) rows d)
  = dom d ∪ list_to_set (omap (row_key value py_str pos_col) rows).
Proof.
  revert d. induction rows as [|r rows IH]; intros d Hall; simpl.
  - set_solver.
  - inversion Hall as [|? ? [k Hk] Hrows]; subst.
    rewrite IH by exact Hrows. rewrite (store_keyed_row _ r k Hk), dom_insert_L, Hk.
    set_solver.
Qed.

End ParsedData.

Section ParseFacts.
Import Excel ExcelAccess.

Variable value : Type.
Variable py_str : value -> str.

(** What [parse] returns when the column mapping is usable. *)
Lemma parse_stores (column_mapping : option (list (str * Z))) (pos_col : Z)
    (rd : ExcelReader value) :
  _loaded value rd = true ->
  columns_get (columns_or_default column_mapping) (lit "position") = Ok pos_col ->
  0 <= pos_col ->
  Forall (fun kc => 0 <= snd kc) (columns_or_default column_mapping) ->
  parse value py_str column_mapping rd
  = ({| sheet := sheet value rd;
        data := fold_left (store_row value py_str (columns_or_default column_mapping) pos_col)
                  (data_rows value py_str pos_col (drop 10 (sheet value rd)))
                  (data value rd);
        _loaded := _loaded value rd |},
     (true, Loaded
              (size (fold_left (store_row value py_str (columns_or_default column_mapping) pos_col)
                       (data_rows value py_str pos_col (drop 10 (sheet value rd)))
                       (data value rd))))).
Proof.
  intros Hl Hpos Hnn Hcols. unfold parse. rewrite Hl. simpl.
  change (DATA_START_ROW - 1)%nat with 10%nat.
  now rewrite (parse_rows_fold value py_str _ pos_col Hpos Hnn Hcols).
Qed.

End ParseFacts.

(** X4.  After a successful [parse], [get_data_for_file] answers with the
    fields of the last row read whose key is the file's stem (a later row
    replaces an earlier one with the same key), and with what the reader
    held before when no row read has that key. *)
Theorem lookup_finds_last_row (value : Type) (py_str : value -> str)
    (path_name : str -> str) (column_mapping : option (list (str * Z)))
    (pos_col : Z) (rd : Excel.ExcelReader value) (filename : str) :
  Excel._loaded value rd = true ->
  Excel.columns_get (Excel.columns_or_default column_mapping) (lit "position")
  = Ok pos_col ->
  0 <= pos_col ->
  Forall (fun kc => 0 <= snd kc) (Excel.columns_or_default column_mapping) ->
  Excel.get_data_for_file value path_name
    (fst (Excel.parse value py_str column_mapping rd)) filename
  = match ExcelAccess.last_row_with_key value py_str pos_col
            (Excel.stem_of_name (path_name filename))
            (Excel.data_rows value py_str pos_col (drop 10 (Excel.sheet value rd)))
    with
    | Some r =>
        Some (ExcelAccess.row_fields value py_str
                (Excel.columns_or_default column_mapping) r)
    | None => Excel.get_data_for_file value path_name rd filename
    end.
Proof.
  intros Hl Hpos Hnn Hcols.
  rewrite (parse_stores value py_str column_mapping pos_col rd Hl Hpos Hnn Hcols).
  unfold Excel.get_data_for_file. simpl.
  apply stored_lookup; [exact Hcols | apply data_rows_keyed].
Qed.

Lemma lookup_finds_last_row_witness :
  Excel.get_data_for_file str Excel.posix_name
    (fst (Excel.parse str id None MoreSamples.repeated_reader)) (lit "scans/1-1.png")
  = Some (ExcelAccess.row_fields str id Excel.DEFAULT_COLUMNS
            (Samples.data_row (lit "1-1") (lit "Bolt LLC") (lit "780201002")
               (lit "7802345678") (lit ""))).
Proof.
  rewrite (lookup_finds_last_row str id Excel.posix_name None 0
             MoreSamples.repeated_reader (lit "scans/1-1.png")
             eq_refl eq_refl ltac:(lia) ltac:(repeat constructor; simpl; lia)).
  vm_compute. reflexivity.
Defined.

(** X5.  Parsing is idempotent: a second [parse] of the same sheet succeeds
    with the same record count and leaves the data as the first one left
    it. *)
Theorem parse_idempotent (value : Type) (py_str : value -> str)
    (column_mapping : option (list (str * Z))) (pos_col : Z)
    (rd : Excel.ExcelReader value) :
  Excel._loaded value rd = true ->
  Excel.columns_get (Excel.columns_or_default column_mapping) (lit "position")
  = Ok pos_col ->
  0 <= pos_col ->
  Forall (fun kc => 0 <= snd kc) (Excel.columns_or_default column_mapping) ->
  Excel.parse value py_str column_mapping
    (fst (Excel.parse value py_str column_mapping rd))
  = Excel.parse value py_str column_mapping rd.
Proof.
  intros Hl Hpos Hnn Hcols.
  rewrite (parse_stores value py_str column_mapping pos_col rd Hl Hpos Hnn Hcols).
  cbn [fst].
  match goal with
  | |- Excel.parse _ _ _ ?rd1 = _ =>
      rewrite (parse_stores value py_str column_mapping pos_col rd1 Hl Hpos Hnn Hcols)
  end.
  cbn [Excel.sheet Excel.data Excel._loaded].
  now rewrite (stored_twice value py_str _ pos_col Hcols _ _ (data_rows_keyed _ _ _ _)).
Qed.

Lemma parse_idempotent_witness :
  Excel.parse str id None (fst (Excel.parse str id None Samples.sample_reader))
  = Excel.parse str id None Samples.sample_reader.
Proof.
  apply (parse_idempotent str id None 0); [reflexivity | reflexivity | lia |].
  repeat constructor; simpl; lia.
Defined.

(** X6.  After a successful [parse] of a reader that held nothing, the record
    count is the number of distinct keys among the rows read: at most the
    number of those rows, and exactly that number when no two rows share a
    key. *)
Theorem record_count_distinct_keys (value : Type) (py_str : value -> str)
    (column_mapping : option (list (str * Z))) (pos_col : Z)
    (rd : Excel.ExcelReader value) :
  Excel._loaded value rd = true ->
  Excel.data value rd = ∅ ->
  Excel.columns_get (Excel.columns_or_default column_mapping) (lit "position")
  = Ok pos_col ->
  0 <= pos_col ->
  Forall (fun kc => 0 <= snd kc) (Excel.columns_or_default column_mapping) ->
  let read := Excel.data_rows value py_str pos_col (drop 10 (Excel.sheet value rd)) in
  let keys := omap (Excel.row_key value py_str pos_col) read in
  ExcelAccess.get_record_count value (fst (Excel.parse value py_str column_mapping rd))
  = length (remove_dups keys) /\
  (ExcelAccess.get_record_count value (fst (Excel.parse value py_str column_mapping rd))
   <= length read)%nat /\
  (NoDup keys ->
   ExcelAccess.get_record_count value (fst (Excel.parse value py_str column_mapping rd))
   = length read).
Proof.
  intros Hl Hempty Hpos Hnn Hcols read keys.
  rewrite (parse_stores value py_str column_mapping pos_col rd Hl Hpos Hnn Hcols).
  unfold ExcelAccess.get_record_count. cbn [fst Excel.data]. fold read.
  assert (Hlen : length keys = length read).
  { subst keys. pose proof (data_rows_keyed value py_str pos_col
                              (drop 10 (Excel.sheet value rd))) as Hk.
    fold read in Hk. clearbody read. induction Hk as [|r rows [k Hk] _ IH]; [reflexivity|].
    simpl. rewrite Hk. simpl. f_equal. exact IH. }
  assert (Hsize : size (fold_left (Excel.store_row value py_str
                                     (Excel.columns_or_default column_mapping) pos_col)
                          read (Excel.data value rd))
                  = length (remove_dups keys)).
  { rewrite <- (size_dom (D:=gset str)).
    rewrite (stored_keys value py_str _ pos_col Hcols read _
               (data_rows_keyed _ _ _ _)).
    rewrite Hempty, dom_empty_L, (left_id_L ∅ (∪)).
    fold keys. rewrite <- (size_list_to_set (C:=gset str) (remove_dups keys))
      by apply NoDup_remove_dups.
    f_equal. apply set_eq. intros k.
    now rewrite !elem_of_list_to_set, elem_of_remove_dups. }
  split; [exact Hsize|]. rewrite Hsize. split.
  - rewrite <- Hlen. clear. induction keys as [|k keys IH]; simpl; [lia|].
    destruct (decide_rel elem_of k keys); simpl; lia.
  - intros Hnd. rewrite <- Hlen. clear - Hnd.
    induction Hnd as [|k keys Hk _ IH]; simpl; [reflexivity|].
    destruct (decide_rel elem_of k keys); [contradiction|]. simpl. now rewrite IH.
Qed.

Lemma record_count_distinct_keys_witness :
  ExcelAccess.get_record_count str (fst (Excel.parse str id None MoreSamples.repeated_reader))
  = 1%nat /\
  ExcelAccess.get_record_count str (fst (Excel.parse str id None Samples.sample_reader))
  = 2%nat.
Proof.
  split.
  - rewrite (proj1 (record_count_distinct_keys str id None 0 MoreSamples.repeated_reader
                      eq_refl eq_refl eq_refl ltac:(lia)
                      ltac:(repeat constructor; simpl; lia))).
    vm_compute. reflexivity.
  - rewrite (proj1 (record_count_distinct_keys str id None 0 Samples.sample_reader
                      eq_refl eq_refl eq_refl ltac:(lia)
                      ltac:(repeat constructor; simpl; lia))).
    vm_compute. reflexivity.
Defined.

(** ** File names and stems *)

Section Paths.
Import Excel.

Lemma split_on_aux_sep (sep : N) (a b : str) :
  forall cur,
    split_on_aux sep cur (a ++ sep :: b)
    = split_on_aux sep cur a ++ split_on_aux sep [] b.
Proof.
  induction a as [|c a IH]; intros cur; simpl.
  - now rewrite N.eqb_refl.
  - destruct (c =? sep)%N; [now rewrite IH | apply IH].
Qed.

Lemma split_on_aux_free (sep : N) (s : str) :
  sep ∉ s -> forall cur, split_on_aux sep cur s = [cur ++ s].
Proof.
  induction s as [|c s IH]; intros Hfree cur; simpl.
  - now rewrite app_nil_r.
  - apply not_elem_of_cons in Hfree as [Hc Hs].
    destruct (c =? sep)%N eqn:E; [apply N.eqb_eq in E; congruence|].
    rewrite IH by exact Hs. now rewrite <- app_assoc.
Qed.

(** The name of a file in a folder. *)
Lemma posix_name_in_folder (folder name : str) :
  SLASH ∉ name -> name <> [] -> name <> [DOT] ->
  posix_name (folder ++ [SLASH] ++ name) = name.
Proof.
  intros Hfree Hne Hdot. unfold posix_name, py_split_on.
  simpl app. rewrite split_on_aux_sep, (split_on_aux_free SLASH name Hfree).
  simpl app. rewrite filter_app, rev_app_distr.
  rewrite filter_cons_True by (split; assumption). reflexivity.
Qed.

Lemma rfind_dot_free (s : str) :
  DOT ∉ s -> forall i found, rfind_dot s i found = found.
Proof.
  induction s as [|c s IH]; intros Hfree i found; simpl; [reflexivity|].
  apply not_elem_of_cons in Hfree as [Hc Hs].
  destruct (c =? DOT)%N eqn:E; [apply N.eqb_eq in E; congruence|].
  now apply IH.
Qed.

Lemma rfind_dot_last (base ext : str) :
  DOT ∉ ext ->
  forall i found,
    rfind_dot (base ++ DOT :: ext) i found = Some (i + length base)%nat.
Proof.
  intros Hext. induction base as [|c base IH]; intros i found; simpl.
  - rewrite rfind_dot_free by exact Hext. f_equal. lia.
  - rewrite IH. f_equal. lia.
Qed.

(** The stem of [base.ext]. *)
Lemma stem_of_base_ext (base ext : str) :
  base <> [] -> ext <> [] -> DOT ∉ ext ->
  stem_of_name (base ++ DOT :: ext) = base.
Proof.
  intros Hb He Hext. unfold stem_of_name.
  rewrite (rfind_dot_last base ext Hext). simpl Nat.add.
  assert (H1 : (0 <? length base)%nat = true).
  { apply Nat.ltb_lt. destruct base; [contradiction | simpl; lia]. }
  assert (H2 : (length base <? length (base ++ DOT :: ext) - 1)%nat = true).
  { apply Nat.ltb_lt. rewrite length_app. simpl.
    destruct ext; [contradiction | simpl; lia]. }
  rewrite H1, H2. simpl. now rewrite take_app_length.
Qed.

End Paths.

(** X7.  A row that [parse] read is found by the file named after it: for a
    row with position [v] whose normalised position holds no slash, the
    file [<folder>/<normalised position>.<ext>] (any folder, any extension
    without dot or slash) has that key as its stem, and
    [get_data_for_file] finds a row for it. *)
Theorem row_found_by_its_file_name (value : Type) (py_str : value -> str)
    (column_mapping : option (list (str * Z))) (pos_col : Z)
    (rd : Excel.ExcelReader value) (r : Excel.row value) (v : value)
    (folder ext : str) :
  Excel._loaded value rd = true ->
  Excel.columns_get (Excel.columns_or_default column_mapping) (lit "position")
  = Ok pos_col ->
  0 <= pos_col ->
  Forall (fun kc => 0 <= snd kc) (Excel.columns_or_default column_mapping) ->
  r ∈ Excel.data_rows value py_str pos_col (drop 10 (Excel.sheet value rd)) ->
  r !! Z.to_nat pos_col = Some (Some v) ->
  SLASH ∉ Excel._normalize_position (py_str v) ->
  ext <> [] -> DOT ∉ ext -> SLASH ∉ ext ->
  Excel.stem_of_name
    (Excel.posix_name (folder ++ [SLASH] ++ Excel._normalize_position (py_str v)
                       ++ [DOT] ++ ext))
  = Excel._normalize_position (py_str v) /\
  is_Some (Excel.get_data_for_file value Excel.posix_name
             (fst (Excel.parse value py_str column_mapping rd))
             (folder ++ [SLASH] ++ Excel._normalize_position (py_str v)
              ++ [DOT] ++ ext)).
Proof.
  intros Hl Hpos Hnn Hcols Hin Hv Hslash Hext Hdot Hsl.
  pose proof (data_rows_keyed value py_str pos_col (drop 10 (Excel.sheet value rd)))
    as Hkeyed.
  destruct (stored_rows_found value py_str _ pos_col Hcols _ (Excel.data value rd) r
              Hin Hkeyed) as (key & Hkey & Hfound).
  assert (Ekey : key = Excel._normalize_position (py_str v) /\ key <> []).
  { unfold Excel.row_key in Hkey. rewrite Hv in Hkey.
    unfold Excel._normalize_position.
    destruct (py_strip (py_str v)) as [|c k]; [discriminate|].
    injection Hkey as <-. split; [reflexivity | discriminate]. }
  destruct Ekey as [-> Hne].
  set (key := Excel._normalize_position (py_str v)) in *.
  assert (Hnodot : DOT ∉ key)
    by apply (proj1 (proj2 (normalize_position_facts (py_str v)))).
  assert (Hstem : Excel.stem_of_name
                    (Excel.posix_name (folder ++ [SLASH] ++ key ++ [DOT] ++ ext)) = key).
  { rewrite posix_name_in_folder.
    - apply stem_of_base_ext; assumption.
    - intros H. apply elem_of_app in H as [H|H]; [contradiction|].
      simpl in H. apply elem_of_cons in H as [H|H]; [discriminate | contradiction].
    - destruct key; [contradiction | discriminate].
    - destruct key as [|c [|c' k]]; [contradiction | | discriminate].
      simpl. destruct ext; [contradiction | discriminate]. }
  split; [exact Hstem|].
  rewrite (parse_stores value py_str column_mapping pos_col rd Hl Hpos Hnn Hcols).
  unfold Excel.get_data_for_file. cbn [fst Excel.data]. rewrite Hstem. exact Hfound.
Qed.

Lemma row_found_by_its_file_name_witness :
  Excel.stem_of_name (Excel.posix_name (lit "scans/2024/1-1.png")) = lit "1-1" /\
  is_Some (Excel.get_data_for_file str Excel.posix_name
             (fst (Excel.parse str id None Samples.sample_reader))
             (lit "scans/2024/1-1.png")).
Proof.
  apply (row_found_by_its_file_name str id None 0 Samples.sample_reader
           (Samples.data_row (lit "1.1") (lit "Acme Ltd") (lit "770101001")
              (lit "7701234567") (lit ""))
           (lit "1.1") (lit "scans/2024") (lit "png")).
  - reflexivity.
  - reflexivity.
  - lia.
  - repeat constructor; simpl; lia.
  - vm_compute. left.
  - reflexivity.
  - vm_compute. intros H. repeat (apply elem_of_cons in H as [H|H]; [discriminate|]).
    inversion H.
  - discriminate.
  - vm_compute. intros H. repeat (apply elem_of_cons in H as [H|H]; [discriminate|]).
    inversion H.
  - vm_compute. intros H. repeat (apply elem_of_cons in H as [H|H]; [discriminate|]).
    inversion H.
Defined.

(** ** checkpoint.py: marking and counting *)

Section CheckpointMore.
Import Checkpoint CheckpointStats.

Lemma failed_of_mark f e t d :
  failed_files (mark_failed f e t d)
  = Some (default [] (failed_files d) ++ [{| file := f; error := e; timestamp := t |}]).
Proof.
  unfold mark_failed.
  destruct (failed_files d) eqn:E; simpl; rewrite ?E; reflexivity.
Qed.

Lemma mark_processed_keeps f d :
  all_files (mark_processed f d) = all_files d /\
  failed_files (mark_processed f d) = failed_files d /\
  total_files (mark_processed f d) = total_files d.
Proof. unfold mark_processed. destruct (processed_files d); now repeat split. Qed.

Lemma mark_failed_keeps f e t d :
  all_files (mark_failed f e t d) = all_files d /\
  processed_files (mark_failed f e t d) = processed_files d /\
  total_files (mark_failed f e t d) = total_files d.
Proof. unfold mark_failed. destruct (failed_files d); now repeat split. Qed.

(** What a marking call does to the pending files. *)
Lemma pending_after_update (u : update) (d : CheckpointData) :
  get_pending_files (apply_update d u)
  = match marked_file u with
    | Some f => filter (fun g => g <> f) (get_pending_files d)
    | None => get_pending_files d
    end.
Proof.
  rewrite !pending_filter. destruct u as [f|f e t|t]; cbn [apply_update marked_file].
  - destruct (mark_processed_keeps f d) as (E1 & E2 & _). rewrite E1, E2.
    rewrite processed_of_mark. cbn [default]. unfold id. rewrite list_filter_filter.
    apply list_filter_iff. intros g. rewrite not_elem_of_app, not_elem_of_cons.
    pose proof (not_elem_of_nil g). tauto.
  - destruct (mark_failed_keeps f e t d) as (E1 & E2 & _). rewrite E1, E2.
    rewrite failed_of_mark. cbn [default]. unfold id. rewrite list_filter_filter, map_app.
    cbn [map file].
    apply list_filter_iff. intros g. rewrite not_elem_of_app, not_elem_of_cons.
    pose proof (not_elem_of_nil g). tauto.
  - reflexivity.
Qed.

Lemma filter_out_one (l : list str) (f : str) :
  NoDup l -> f ∈ l ->
  (length (filter (fun g => g <> f) l) + 1 = length l)%nat.
Proof.
  induction 1 as [|x l Hx Hnd IH]; intros Hin; [inversion Hin|].
  destruct (decide (x = f)) as [->|Hne].
  - rewrite filter_cons_False by tauto. simpl.
    assert (E : filter (fun g => g <> f) l = l); [|rewrite E; lia].
    clear IH Hin Hnd. induction l as [|y l IH]; [reflexivity|].
    apply not_elem_of_cons in Hx as [Hy Hl].
    rewrite filter_cons_True by congruence. now rewrite IH.
  - rewrite filter_cons_True by exact Hne. simpl.
    apply elem_of_cons in Hin as [->|Hin]; [contradiction|].
    rewrite <- (IH Hin). lia.
Qed.

Lemma filter_out_many (l m : list str) :
  NoDup l -> NoDup m -> (forall f, f ∈ m -> f ∈ l) ->
  (length (filter (fun g => g ∉ m) l) + length m = length l)%nat.
Proof.
  intros Hl. induction m as [|a m IH]; intros Hm Hin.
  - simpl. rewrite Nat.add_0_r. f_equal.
    clear Hl Hin. induction l as [|x l IHl]; [reflexivity|].
    rewrite filter_cons_True by apply not_elem_of_nil. now rewrite IHl.
  - apply NoDup_cons in Hm as [Ha Hm].
    assert (E : filter (fun g => g ∉ a :: m) l
                = filter (fun g => g <> a) (filter (fun g => g ∉ m) l)).
    { rewrite list_filter_filter. apply list_filter_iff. intros g.
      rewrite not_elem_of_cons. tauto. }
    rewrite E. simpl.
    assert (Hin' : forall f, f ∈ m -> f ∈ l).
    { intros f Hf. apply Hin. now apply elem_of_cons; right. }
    specialize (IH Hm Hin').
    assert (Hthere : a ∈ filter (fun g => g ∉ m) l).
    { apply list_elem_of_filter. split; [exact Ha|]. apply Hin, elem_of_cons. now left. }
    pose proof (filter_out_one _ a (NoDup_filter _ _ Hl) Hthere). lia.
Qed.

(** The session after some recording calls. *)
Lemma session_state (sid now : str) (files : list str) (hash : str) (us : list update) :
  let d := fold_left apply_update us (create_session sid now files hash) in
  all_files d = Some files /\
  total_files d = Some (Z.of_nat (length files)) /\
  (length (default [] (processed_files d)) + length (default [] (failed_files d))
   = length (omap marked_file us))%nat /\
  get_pending_files d = filter (fun g => g ∉ omap marked_file us) files.
Proof.
  induction us as [|u us IH] using rev_ind.
  - simpl. repeat split. rewrite pending_filter. simpl.
    apply list_filter_iff. intros g. pose proof (not_elem_of_nil g). tauto.
  - cbv zeta in *. rewrite fold_left_app. cbn [fold_left].
    set (d := fold_left apply_update us (create_session sid now files hash)) in *.
    destruct IH as (Hall & Htot & Hlen & Hpend).
    rewrite omap_app, length_app, pending_after_update, Hpend.
    destruct u as [f|f e t|t]; cbn [apply_update marked_file omap option_map length].
    + destruct (mark_processed_keeps f d) as (E1 & E2 & E3).
      rewrite E1, E2, E3, processed_of_mark. cbn [from_option]. unfold id in *.
      rewrite length_app. simpl length. simpl omap. repeat split; [exact Hall | exact Htot | lia |].
      rewrite list_filter_filter. apply list_filter_iff. intros g.
      rewrite not_elem_of_app. cbn. rewrite not_elem_of_cons.
      pose proof (not_elem_of_nil g). tauto.
    + destruct (mark_failed_keeps f e t d) as (E1 & E2 & E3).
      rewrite E1, E2, E3, failed_of_mark. cbn [from_option]. unfold id in *.
      rewrite length_app. simpl length. simpl omap. repeat split; [exact Hall | exact Htot | lia |].
      rewrite list_filter_filter. apply list_filter_iff. intros g.
      rewrite not_elem_of_app. cbn. rewrite not_elem_of_cons.
      pose proof (not_elem_of_nil g). tauto.
    + simpl. repeat split; [exact Hall | exact Htot | lia |].
      now rewrite app_nil_r.
Qed.

End CheckpointMore.

(** X8 (checkpoint.py, [mark_processed], [mark_failed], [save_progress],
    [get_pending_files]).  Marking a file, as processed or as failed, takes
    exactly the occurrences of that file out of the pending files and keeps
    the order of the others; saving the progress leaves the pending files
    as they are.  This holds for every checkpoint, also one that was never
    given a session. *)
Theorem marking_removes_from_pending (u : Checkpoint.update) (d : Checkpoint.CheckpointData) :
  Checkpoint.get_pending_files (Checkpoint.apply_update d u)
  = match CheckpointStats.marked_file u with
    | Some f => filter (fun g => g <> f) (Checkpoint.get_pending_files d)
    | None => Checkpoint.get_pending_files d
    end.
Proof. apply pending_after_update. Qed.

(** X9 (checkpoint.py, [create_session], [get_statistics]).  In a session
    created for files without repetition, after any recording calls that
    mark files of the session, each at most once, the pending files are the
    session's files that were not marked, in the session's order, and the
    statistics add up: processed + failed + pending = total. *)
Theorem session_statistics_add_up
    (sid now : str) (files : list str) (hash : str) (us : list Checkpoint.update) :
  NoDup files ->
  NoDup (omap CheckpointStats.marked_file us) ->
  (forall f, f ∈ omap CheckpointStats.marked_file us -> f ∈ files) ->
  let d := fold_left Checkpoint.apply_update us
             (Checkpoint.create_session sid now files hash) in
  let st := CheckpointStats.get_statistics d in
  Checkpoint.get_pending_files d
    = filter (fun g => g ∉ omap CheckpointStats.marked_file us) files /\
  CheckpointStats.processed st + CheckpointStats.failed st + CheckpointStats.pending st
    = CheckpointStats.total st.
Proof.
  intros Hfiles Hmarked Hin d st.
  destruct (session_state sid now files hash us) as (Hall & Htot & Hlen & Hpend).
  fold d in Hall, Htot, Hlen, Hpend. split; [exact Hpend|].
  subst st. unfold CheckpointStats.get_statistics. simpl.
  rewrite Htot, Hpend. simpl.
  pose proof (filter_out_many files _ Hfiles Hmarked Hin). lia.
Qed.

Lemma session_statistics_add_up_witness :
  let files := [lit "a.png"; lit "b.png"; lit "c.png"] in
  let us := [Checkpoint.MarkProcessed (lit "b.png");
             Checkpoint.SaveProgress (lit "t1");
             Checkpoint.MarkFailed (lit "a.png") (lit "boom") (lit "t2")] in
  let d := fold_left Checkpoint.apply_update us
             (Checkpoint.create_session (lit "s") (lit "t0") files (lit "h")) in
  Checkpoint.get_pending_files d = [lit "c.png"] /\
  CheckpointStats.get_statistics d
  = {| CheckpointStats.total := 3; CheckpointStats.processed := 1;
       CheckpointStats.failed := 1; CheckpointStats.pending := 1 |} /\
  CheckpointStats.processed (CheckpointStats.get_statistics d)
  + CheckpointStats.failed (CheckpointStats.get_statistics d)
  + CheckpointStats.pending (CheckpointStats.get_statistics d)
  = CheckpointStats.total (CheckpointStats.get_statistics d).
Proof.
  cbv zeta. split; [vm_compute; reflexivity|]. split; [vm_compute; reflexivity|].
  refine (proj2 (session_statistics_add_up (lit "s") (lit "t0")
            [lit "a.png"; lit "b.png"; lit "c.png"] (lit "h")
            [Checkpoint.MarkProcessed (lit "b.png");
             Checkpoint.SaveProgress (lit "t1");
             Checkpoint.MarkFailed (lit "a.png") (lit "boom") (lit "t2")] _ _ _)).
  - apply (bool_decide_unpack _). vm_compute. reflexivity.
  - apply (bool_decide_unpack _). vm_compute. reflexivity.
  - intros f Hf. simpl in Hf. 
    repeat (apply elem_of_cons in Hf as [->|Hf]); [| |inversion Hf].
    + apply elem_of_cons; right. apply elem_of_cons; now left.
    + apply elem_of_cons; now left.
Defined.

(** ** image_processor.py: [_wrap_text] breaks lines greedily *)

Section WrapGreedy.
Import ImageProcessor WrapChecks.

Variable font : Font.
Variable max_width : Z.

Local Abbreviation fits := (ImageProcessor.fits font max_width).

Lemma breaks_needed_cons (l1 l2 : str) (tl : list str) :
  breaks_needed font max_width (l1 :: l2 :: tl)
  = break_needed font max_width l1 l2 && breaks_needed font max_width (l2 :: tl).
Proof. reflexivity. Qed.

(** The inner loop breaks a line only before a word that the line could
    not take. *)
Lemma wrap_step_fold_greedy (rest : list str) :
  forall (lines : list str) (cur : list str),
    fits cur -> Forall is_word rest ->
    exists groups cur',
      fold_left (wrap_step font max_width) rest (lines, join_words cur)
      = (lines ++ map join_words groups, join_words cur') /\
      Forall fits (groups ++ [cur']) /\
      (exists t, head (groups ++ [cur']) = Some (cur ++ t)) /\
      breaks_needed font max_width (map join_words (groups ++ [cur'])) = true.
Proof.
  induction rest as [|w rest IH]; intros lines cur Hcur Hrest.
  - exists [], cur. simpl. rewrite !app_nil_r.
    repeat split; [constructor; [exact Hcur | constructor]|].
    exists []. now rewrite app_nil_r.
  - inversion Hrest as [|? ? Hw Hrest']; subst.
    pose proof Hcur as (Hne & Hwords & Hwidth).
    cbn [fold_left]. unfold wrap_step at 2.
    rewrite <- (join_words_snoc cur w Hne).
    destruct (line_width font (join_words (cur ++ [w])) <=? max_width) eqn:E.
    + apply Z.leb_le in E.
      destruct (IH lines (cur ++ [w])) as (groups & cur' & Hf & Hfit & [t Hhd] & Hgr).
      { split; [now destruct cur|]. split.
        - apply Forall_app. split; [exact Hwords | now constructor].
        - intros _. exact E. }
      { exact Hrest'. }
      exists groups, cur'. split; [exact Hf|]. split; [exact Hfit|].
      split; [|exact Hgr]. exists ([w] ++ t). now rewrite Hhd, <- app_assoc.
    + destruct (IH (lines ++ [join_words cur]) [w])
        as (groups & cur' & Hf & Hfit & [t Hhd] & Hgr).
      { split; [discriminate|]. split; [now constructor|]. simpl. lia. }
      { exact Hrest'. }
      exists (cur :: groups), cur'. split; [|split; [|split]].
      * change (join_words [w]) with w in Hf. rewrite Hf.
        simpl. now rewrite <- app_assoc.
      * simpl. constructor; [exact Hcur | exact Hfit].
      * exists []. simpl. now rewrite app_nil_r.
      * destruct (groups ++ [cur']) as [|g0 gs] eqn:Eg; [discriminate|].
        simpl in Hhd. injection Hhd as ->.
        change ((cur :: groups) ++ [cur']) with (cur :: (groups ++ [cur'])).
        rewrite Eg. cbn [map]. rewrite breaks_needed_cons.
        cbn [map] in Hgr. rewrite Hgr, andb_true_r.
        unfold break_needed, first_word.
        apply Forall_cons in Hfit as [(_ & Hg0 & _) _].
        rewrite split_join by exact Hg0. simpl.
        apply Z.ltb_lt. apply Z.leb_gt in E.
        now rewrite join_words_snoc in E by exact Hne.
Qed.

Lemma paragraph_lines_greedy (paragraph : str) :
  breaks_needed font max_width
    (ImageProcessor.paragraph_lines font max_width paragraph) = true.
Proof.
  unfold ImageProcessor.paragraph_lines, wrap_paragraph.
  pose proof (py_split_words paragraph) as Hw.
  destruct (py_split paragraph) as [|w0 rest]; [reflexivity|].
  inversion Hw as [|? ? Hw0 Hrest]; subst.
  destruct (wrap_step_fold_greedy rest [] [w0]) as (groups & cur' & Hf & _ & _ & Hgr).
  { split; [discriminate|]. split; [now constructor|]. simpl. lia. }
  { exact Hrest. }
  change (join_words [w0]) with w0 in Hf. rewrite Hf.
  rewrite map_app in Hgr. exact Hgr.
Qed.

Lemma groups_at_most_words (groups : list (list str)) :
  Forall fits groups -> (length groups <= length (concat groups))%nat.
Proof.
  induction 1 as [|g groups (Hne & _) _ IH]; [reflexivity|].
  simpl. rewrite length_app. destruct g; [contradiction|]. simpl. lia.
Qed.

Lemma paragraph_lines_count (paragraph : str) :
  (1 <= length (ImageProcessor.paragraph_lines font max_width paragraph)
   <= Nat.max 1 (length (py_split paragraph)))%nat.
Proof.
  destruct (paragraph_lines_groups font max_width paragraph)
    as [[Hempty Hlines]|(groups & Hsome & Hlines & Hfit & Hcat)].
  - rewrite Hlines, Hempty. simpl. lia.
  - rewrite Hlines, length_map, <- Hcat.
    pose proof (groups_at_most_words groups Hfit).
    destruct groups as [|g groups]; [simpl in Hcat; congruence|].
    cbn [length] in H |- *. lia.
Qed.

End WrapGreedy.

Lemma split_on_aux_count (sep : N) (s : str) :
  forall cur, length (split_on_aux sep cur s) = S (WrapChecks.count_char sep s).
Proof.
  unfold WrapChecks.count_char.
  induction s as [|c s IH]; intros cur; [reflexivity|].
  simpl. destruct (c =? sep)%N; simpl; now rewrite IH.
Qed.

(** X10 (image_processor.py, [_wrap_text]).  Within a paragraph a line is
    broken only when it has to be: each line but the last, extended by a
    space and the first word of the next line, measures more than
    [max_width].  A paragraph gives at least one line and at most one line
    for each of its words. *)
Theorem wrap_text_breaks_only_when_needed
    (font : ImageProcessor.Font) (max_width : Z) (paragraph : str) :
  WrapChecks.breaks_needed font max_width
    (ImageProcessor.paragraph_lines font max_width paragraph) = true /\
  (1 <= length (ImageProcessor.paragraph_lines font max_width paragraph)
   <= Nat.max 1 (length (py_split paragraph)))%nat.
Proof.
  split; [apply paragraph_lines_greedy | apply paragraph_lines_count].
Qed.

(** X11 (image_processor.py, [_wrap_text]).  The text is never wrapped
    into fewer lines than it has paragraphs: the result has at least one
    line more than the text has newline characters, so it is never empty,
    whatever the font and the width. *)
Theorem wrap_text_keeps_paragraphs
    (text : str) (font : ImageProcessor.Font) (max_width : Z) :
  (S (WrapChecks.count_char NEWLINE text)
   <= length (ImageProcessor._wrap_text text font max_width))%nat.
Proof.
  unfold ImageProcessor._wrap_text. rewrite wrap_text_fold. simpl.
  unfold py_split_on. rewrite <- (split_on_aux_count NEWLINE text []).
  induction (split_on_aux NEWLINE [] text) as [|p ps IH]; [reflexivity|].
  simpl. rewrite length_app.
  pose proof (paragraph_lines_count font max_width p). lia.
Qed.

(** ** image_processor.py: the calls of [process_image], part by part *)

Section AllCalls.
Import ImageProcessor.

Variable P : draw_op -> Prop.
Variable env : Env.
Variable s : Settings.

Hypothesis P_text : forall x y t, P (DrawText x y t).
Hypothesis P_warning : forall y b, P (Warning y b).
Hypothesis P_stamp : forall w h, P (ResizeStamp w h) /\ forall x y, P (PasteStamp w h x y).

Lemma draw_fixed_lines_calls text_x line_height bound offset lines :
  forall current_y,
    Forall P (fst (draw_fixed_lines env text_x line_height bound offset lines current_y)).
Proof.
  induction lines as [|line lines IH]; intros current_y; simpl draw_fixed_lines.
  - apply mret_calls.
  - apply mbind_calls.
    + destruct (bound <? current_y + line_height); repeat constructor. apply P_warning.
    + intros _ _. apply mbind_calls; [apply call_calls, P_text | intros _ _; apply IH].
Qed.

Lemma draw_fixed_texts_calls font text_x line_height bound fixed_texts :
  forall i text_y,
    Forall P (fst (draw_fixed_texts env s font text_x line_height bound i fixed_texts text_y)).
Proof.
  induction fixed_texts as [|text rest IH]; intros i text_y; simpl draw_fixed_texts.
  - apply mret_calls.
  - destruct text; [apply IH|].
    apply mbind_calls; [apply draw_fixed_lines_calls | intros _ _; apply IH].
Qed.

Lemma draw_stamp_calls stamp_image text_x text_y :
  Forall P (fst (draw_stamp env s stamp_image text_x text_y)).
Proof.
  unfold draw_stamp. destruct stamp_image as [stamp|]; [|apply mret_calls].
  destruct (stamp_enabled s); [|apply mret_calls].
  apply mbind_calls; [apply lift_calls|]. intros [w h] _.
  apply mbind_calls; [apply call_calls, P_stamp|]. intros _ _.
  destruct (element_offsets s ElStamp) as [ox oy].
  destruct (perform env _); [|apply mret_calls].
  constructor; [apply P_stamp | constructor].
Qed.

End AllCalls.

(** ** image_processor.py: the output file is written last *)

Section SavedLast.
Import ImageProcessor CallKinds.

Variable env : Env.
Variable s : Settings.
Variable output_path : str.

Local Abbreviation not_save := (fun op => is_save op = false).

(** The calls of a save that succeeds. *)
Local Abbreviation written :=
  (MkdirParent output_path
   :: (if decide (output_format s = lit "pdf")
       then [ConvertRGB; SavePdf output_path]
       else if decide (output_format s = lit "jpg" \/ output_format s = lit "jpeg")
            then [ConvertRGB; SaveJpeg output_path]
            else [SavePng output_path])).

(** A computation that has written the output when it returns, and has
    not when it raises. *)
Local Abbreviation saved_last :=
  (fun m : M (bool * str) =>
     match snd m with
     | Ok _ => exists pre, fst m = pre ++ written /\ Forall not_save pre
     | Raise _ => Forall not_save (fst m)
     end).

Lemma saved_last_bind {A} (m : M A) (k : A -> M (bool * str)) :
  Forall not_save (fst m) ->
  (forall a, snd m = Ok a -> saved_last (k a)) ->
  saved_last (mbind m k).
Proof.
  destruct m as [l [a|e]]; simpl; intros Hm Hk; [|exact Hm].
  specialize (Hk a eq_refl). destruct (k a) as [l' [v|e]]; simpl in *.
  - destruct Hk as (pre & -> & Hpre). exists (l ++ pre).
    split; [now rewrite <- app_assoc | now apply Forall_app].
  - now apply Forall_app.
Qed.

Lemma save_result_saved_last (v : bool * str) :
  saved_last (mbind (save_result env s output_path) (fun _ => mret v)).
Proof.
  unfold save_result, call.
  destruct (perform env (MkdirParent output_path)) as [[]|e0]; simpl;
    [|constructor].
  destruct (decide (output_format s = lit "pdf")) as [Hpdf|Hpdf].
  - rewrite decide_True by tauto.
    destruct (perform env ConvertRGB) as [[]|e1]; simpl;
      [|repeat constructor].
    destruct (perform env (SavePdf output_path)) as [[]|e2]; simpl.
    + exists []. now split.
    + repeat constructor.
  - destruct (decide (output_format s = lit "jpg" \/ output_format s = lit "jpeg"))
      as [Hjpg|Hjpg].
    + rewrite decide_True by tauto.
      destruct (perform env ConvertRGB) as [[]|e1]; simpl;
        [|repeat constructor].
      destruct (perform env (SaveJpeg output_path)) as [[]|e2]; simpl.
      * exists []. now split.
      * repeat constructor.
    + rewrite decide_False by tauto. simpl.
      destruct (perform env (SavePng output_path)) as [[]|e2]; simpl.
      * exists []. now split.
      * repeat constructor.
Qed.

Lemma body_saved_last stamp_image image_path excel_data fixed_texts :
  saved_last (process_image_body env s stamp_image image_path excel_data fixed_texts
                output_path).
Proof.
  unfold process_image_body.
  do 3 (apply saved_last_bind; [apply lift_calls | intros ? _]).
  do 2 (apply saved_last_bind; [now apply call_calls | intros _ _]).
  destruct (panel_area _) as [[[x0 y0] x1] y1].
  apply saved_last_bind; [now apply draw_fields_calls | intros ? _].
  apply saved_last_bind; [now apply draw_fixed_texts_calls | intros ? _].
  apply saved_last_bind; [now apply draw_stamp_calls | intros _ _].
  apply save_result_saved_last.
Qed.

End SavedLast.


(** The same run against a disk that refuses the write and against one that
    accepts it: the first reports the failure and has written nothing, the
    second ends with the JPEG save. *)
Example output_written_samples :
  snd (ImageProcessor.process_image MoreSamples.read_only_env
         (MoreSamples.settings_with (lit "left") 300 (lit "jpeg")) None
         (lit "1-1.png") Samples.sample_row [] (lit "out/1-1.jpg"))
  = (false, ImageProcessor.ERROR_PREFIX ++ lit "Permission denied") /\
  last (fst (ImageProcessor.process_image MoreSamples.read_only_env
               (MoreSamples.settings_with (lit "left") 300 (lit "jpeg")) None
               (lit "1-1.png") Samples.sample_row [] (lit "out/1-1.jpg")))
  = Some ImageProcessor.ConvertRGB /\
  snd (ImageProcessor.process_image Samples.sample_env
         (MoreSamples.settings_with (lit "left") 300 (lit "bmp")) None
         (lit "1-1.png") Samples.sample_row [] (lit "out/1-1.bmp"))
  = (true, lit "OK") /\
  last (fst (ImageProcessor.process_image Samples.sample_env
               (MoreSamples.settings_with (lit "left") 300 (lit "bmp")) None
               (lit "1-1.png") Samples.sample_row [] (lit "out/1-1.bmp")))
  = Some (ImageProcessor.SavePng (lit "out/1-1.bmp")).
Proof. repeat split; vm_compute; reflexivity. Qed.

(** ** image_processor.py: when [process_image] succeeds *)

Section Returns.
Import ImageProcessor CallKinds.

Variable env : Env.
Variable s : Settings.

Hypothesis perform_ok : forall op, is_stamp_paste op = false -> perform env op = Ok tt.

(** A computation that returns. *)
Local Abbreviation returns := (fun A (m : M A) => exists a, snd m = Ok a).

Lemma returns_bind {A B} (m : M A) (k : A -> M B) :
  returns A m -> (forall a, returns B (k a)) -> returns B (mbind m k).
Proof.
  intros [a Ha] Hk. destruct m as [l r]. simpl in Ha. subst r.
  destruct (Hk a) as [b Hb]. exists b. simpl. destruct (k a). exact Hb.
Qed.

Lemma returns_call (op : draw_op) :
  is_stamp_paste op = false -> returns unit (call env op).
Proof. intros H. unfold call. rewrite (perform_ok op H). now exists tt. Qed.

Lemma returns_mret {A} (a : A) : returns A (mret a).
Proof. now exists a. Qed.

Lemma draw_lines_returns text_x line_height lines :
  forall text_y, returns Z (draw_lines env text_x line_height lines text_y).
Proof.
  induction lines as [|line lines IH]; intros text_y; simpl draw_lines.
  - apply returns_mret.
  - apply returns_bind; [now apply returns_call | intros _; apply IH].
Qed.

Lemma draw_fields_returns font excel_data text_x text_y :
  returns Z (draw_fields env s font excel_data text_x text_y).
Proof.
  unfold draw_fields.
  repeat first
    [ apply returns_bind; [|intros ?]
    | apply returns_mret
    | apply draw_lines_returns
    | now apply returns_call
    | match goal with
      | |- context [if ?b then _ else _] => destruct b
      | |- context [let '(_, _) := ?p in _] => destruct p
      end ].
Qed.

Lemma draw_fixed_lines_returns text_x line_height bound offset lines :
  forall current_y,
    returns unit (draw_fixed_lines env text_x line_height bound offset lines current_y).
Proof.
  induction lines as [|line lines IH]; intros current_y; simpl draw_fixed_lines.
  - apply returns_mret.
  - apply returns_bind.
    + destruct (bound <? current_y + line_height); now exists tt.
    + intros _. apply returns_bind; [now apply returns_call | intros _; apply IH].
Qed.

Lemma draw_fixed_texts_returns font text_x line_height bound fixed_texts :
  forall i text_y,
    returns Z (draw_fixed_texts env s font text_x line_height bound i fixed_texts text_y).
Proof.
  induction fixed_texts as [|text rest IH]; intros i text_y; simpl draw_fixed_texts.
  - apply returns_mret.
  - destruct text; [apply IH|].
    apply returns_bind; [apply draw_fixed_lines_returns | intros _; apply IH].
Qed.

Lemma draw_stamp_returns stamp_image text_x text_y :
  (forall stamp, stamp_image = Some stamp -> stamp_enabled s = true ->
                 exists size, stamp_draw_size s stamp = Ok size) ->
  returns unit (draw_stamp env s stamp_image text_x text_y).
Proof.
  intros Hsize. unfold draw_stamp.
  destruct stamp_image as [stamp|]; [|apply returns_mret].
  destruct (stamp_enabled s); [|apply returns_mret].
  destruct (Hsize stamp eq_refl eq_refl) as [[w h] Hsz]. rewrite Hsz.
  unfold lift. rewrite mbind_ok. simpl.
  apply returns_bind; [now apply returns_call|]. intros _.
  destruct (element_offsets s ElStamp) as [ox oy].
  destruct (perform env _); now exists tt.
Qed.

Lemma save_result_returns output_path :
  returns unit (save_result env s output_path).
Proof.
  unfold save_result.
  repeat first
    [ apply returns_bind; [|intros ?]
    | apply returns_mret
    | now apply returns_call
    | match goal with
      | |- context [if ?b then _ else _] => destruct b
      end ].
Qed.

Lemma body_returns stamp_image image_path excel_data fixed_texts output_path
    original font lay :
  image_open env image_path = Ok original ->
  get_font env (font_size s) = Ok font ->
  layout s font stamp_image original excel_data fixed_texts = Ok lay ->
  (forall stamp, stamp_image = Some stamp -> stamp_enabled s = true ->
                 exists size, stamp_draw_size s stamp = Ok size) ->
  returns (bool * str)%type
    (process_image_body env s stamp_image image_path excel_data fixed_texts output_path).
Proof.
  intros Hopen Hfont Hlay Hsize. unfold process_image_body.
  rewrite (mbind_lift_ok _ original _ Hopen).
  rewrite (mbind_lift_ok _ font _ Hfont).
  rewrite (mbind_lift_ok _ lay _ Hlay).
  do 2 (apply returns_bind; [now apply returns_call | intros _]).
  destruct (panel_area lay) as [[[x0 y0] x1] y1].
  apply returns_bind; [apply draw_fields_returns | intros ?].
  apply returns_bind; [apply draw_fixed_texts_returns | intros ?].
  apply returns_bind; [now apply draw_stamp_returns | intros _].
  apply returns_bind; [apply save_result_returns | intros _].
  apply returns_mret.
Qed.

End Returns.

(** X13 (image_processor.py, [process_image], lines 279-303).  A failure
    of the stamp's paste does not fail the image.  When the image opens,
    the font loads, the sizes of the sizing pass and of the stamp can be
    computed, and every library call other than the paste of the stamp
    succeeds, [process_image] returns [(True, "OK")], whether the paste
    succeeds or raises. *)
Theorem stamp_paste_failure_is_ignored (env : ImageProcessor.Env)
    (s : ImageProcessor.Settings) (stamp_image : option ImageProcessor.Image)
    (image_path : str) (excel_data : gmap str str) (fixed_texts : list str)
    (output_path : str)
    (original : ImageProcessor.Image) (font : ImageProcessor.Font)
    (lay : ImageProcessor.Layout) :
  ImageProcessor.image_open env image_path = Ok original ->
  ImageProcessor.get_font env (ImageProcessor.font_size s) = Ok font ->
  ImageProcessor.layout s font stamp_image original excel_data fixed_texts = Ok lay ->
  (forall stamp, stamp_image = Some stamp -> ImageProcessor.stamp_enabled s = true ->
                 exists size, ImageProcessor.stamp_draw_size s stamp = Ok size) ->
  (forall op, CallKinds.is_stamp_paste op = false ->
              ImageProcessor.perform env op = Ok tt) ->
  snd (ImageProcessor.process_image env s stamp_image image_path excel_data
         fixed_texts output_path) = (true, lit "OK").
Proof.
  intros Hopen Hfont Hlay Hsize Hperf.
  destruct (body_returns env s Hperf stamp_image image_path excel_data fixed_texts
              output_path original font lay Hopen Hfont Hlay Hsize) as [v Hv].
  exact (outcome_of_value env s stamp_image image_path excel_data fixed_texts
           output_path v Hv).
Qed.

Lemma stamp_paste_failure_is_ignored_witness :
  List.filter CallKinds.is_stamp_paste
    (fst (ImageProcessor.process_image MoreSamples.paste_failing_env
            (Samples.sample_settings (lit "left")) (Some Samples.wide_stamp)
            (lit "1-1.png") Samples.sample_row [Samples.long_text] (lit "out/1-1.png")))
  = [] /\
  snd (ImageProcessor.process_image MoreSamples.paste_failing_env
         (Samples.sample_settings (lit "left")) (Some Samples.wide_stamp)
         (lit "1-1.png") Samples.sample_row [Samples.long_text] (lit "out/1-1.png"))
  = (true, lit "OK").
Proof.
  split; [vm_compute; reflexivity|].
  refine (stamp_paste_failure_is_ignored MoreSamples.paste_failing_env
            (Samples.sample_settings (lit "left")) (Some Samples.wide_stamp)
            (lit "1-1.png") Samples.sample_row [Samples.long_text] (lit "out/1-1.png")
            {| ImageProcessor.width := 1000; ImageProcessor.height := 500 |}
            Samples.mono_font
            {| ImageProcessor.new_width := 1300; ImageProcessor.new_height := 500;
               ImageProcessor.paste_at := (300, 0);
               ImageProcessor.panel_area := (0, 0, 300, 500) |}
            eq_refl eq_refl _ _ _).
  - vm_compute. reflexivity.
  - intros stamp [= <-] _. exists (280, 140). vm_compute. reflexivity.
  - intros op Hop. simpl. now rewrite Hop.
Defined.

(** ** image_processor.py: the bottom panel at the width of the image *)

(** X14 (image_processor.py, [process_image], lines 157-209 and 260-276).
    For a position other than "left" the sizing pass wraps at
    [original.width - 20] and the drawing pass at [panel_width - 20]; when
    the image is exactly [panel_width] wide the two agree, and then (for a
    line height and a stamp reserve that are not negative) the
    out-of-bounds branch of the fixed-text loop is never taken. *)
Theorem bottom_panel_holds_fixed_texts_at_panel_width (env : ImageProcessor.Env)
    (s : ImageProcessor.Settings) (stamp_image : option ImageProcessor.Image)
    (image_path : str) (excel_data : gmap str str) (fixed_texts : list str)
    (output_path : str) :
  ImageProcessor.position s <> lit "left" ->
  (forall original, ImageProcessor.image_open env image_path = Ok original ->
                    ImageProcessor.width original = ImageProcessor.panel_width s) ->
  0 <= ImageProcessor.font_size s + 8 ->
  (forall reserve,
      ImageProcessor.stamp_reserve s stamp_image (ImageProcessor.panel_width s - 20)
      = Ok reserve -> 0 <= reserve) ->
  Forall ImageProcessor.no_warning
         (fst (ImageProcessor.process_image env s stamp_image image_path excel_data
                 fixed_texts output_path)).
Proof.
  intros Hbottom Hwidth Hlh Hstamp.
  rewrite process_image_calls. unfold ImageProcessor.process_image_body.
  apply mbind_calls; [apply lift_calls | intros original Hopen].
  simpl in Hopen. specialize (Hwidth original Hopen).
  apply mbind_calls; [apply lift_calls | intros font _].
  apply mbind_calls; [apply lift_calls | intros lay Hlay].
  simpl in Hlay. unfold ImageProcessor.layout in Hlay.
  rewrite decide_False in Hlay by exact Hbottom.
  unfold ImageProcessor.panel_height in Hlay.
  rewrite content_height_split, Hwidth in Hlay.
  destruct (ImageProcessor.stamp_reserve s stamp_image (ImageProcessor.panel_width s - 20))
    as [reserve|e] eqn:Hres; [|discriminate].
  specialize (Hstamp reserve eq_refl).
  simpl in Hlay. inversion Hlay; subst lay; clear Hlay.
  cbn [ImageProcessor.new_width ImageProcessor.new_height ImageProcessor.paste_at
       ImageProcessor.panel_area].
  do 2 (apply mbind_calls; [now apply call_calls | intros _ _]).
  apply mbind_calls; [now apply draw_fields_calls | intros text_y Hy].
  apply draw_fields_value in Hy.
  apply mbind_calls.
  { apply draw_fixed_texts_quiet; [exact Hlh|].
    rewrite fixed_texts_height_shift. subst text_y.
    rewrite (fixed_texts_height_shift s font _ _
               (ImageProcessor.height_before_fixed_texts s font excel_data
                  (ImageProcessor.panel_width s - 20))).
    lia. }
  intros text_y' _.
  apply mbind_calls; [apply draw_stamp_quiet | intros _ _].
  apply mbind_calls; [|intros _ _; apply mret_calls].
  apply save_result_calls. intros op. destruct op; first [exact I | reflexivity].
Qed.

Lemma bottom_panel_holds_fixed_texts_at_panel_width_witness :
  Forall ImageProcessor.no_warning
         (fst (ImageProcessor.process_image Samples.sample_env
                 (MoreSamples.settings_with (lit "bottom") 1000 (lit "png"))
                 (Some Samples.wide_stamp)
                 (lit "1-1.png") Samples.sample_row [Samples.long_text]
                 (lit "out/1-1.png"))).
Proof.
  apply bottom_panel_holds_fixed_texts_at_panel_width.
  - vm_compute. discriminate.
  - intros original [= <-]. reflexivity.
  - simpl. lia.
  - intros reserve H. vm_compute in H. injection H as <-. lia.
Defined.

(** ** worker.py: while the worker is paused *)

Section Paused.
Import Worker WorkerRuns PyNum.

(** With the pause event cleared, a step of the thread submits or counts
    only what was already past its wait. *)
Lemma run_step_while_paused (s s' : state) :
  run_step s s' -> _is_paused (worker s) = false ->
  (length (futures s') + past_submit_wait (at_pc s')
   <= length (futures s) + past_submit_wait (at_pc s))%nat /\
  _processed_count (worker s') + past_result_wait (at_pc s')
  <= _processed_count (worker s) + past_result_wait (at_pc s).
Proof.
  intros Hstep Hpaused.
  destruct Hstep as
    [s Hpc|s Hpc|s e Hpc|s i Hpc Hi Hc|s i Hpc Hi Hc|s i Hpc Hi|s i Hpc Hp|s i Hpc
    |s f Hpc Hin Hnot|s Hpc Hall|s f Hpc Hc|s f Hpc Hc|s f Hpc Hp
    |s f elapsed r w' Hpc Hres|s Hpc Ha Hb|s e Hpc Hz|s Hpc|s e Hpc
    |s elapsed w' Hpc Hres|s elapsed e Hpc Hres];
    try solve [simpl; rewrite Hpc; simpl; split; lia];
    try congruence.
  - simpl. rewrite Hpc. simpl. rewrite length_app. simpl. split; lia.
  - destruct (handle_result_spec elapsed r (worker s))
      as (w1 & extra & Hw1 & Ep & _).
    rewrite Hres in Hw1. injection Hw1 as <-.
    simpl. rewrite Hpc, Ep. simpl. split; lia.
  - apply emit_final_statistics_shape in Hres as (st & ->).
    simpl. rewrite Hpc. simpl. split; lia.
Qed.

Lemma while_paused (s s' : state) :
  rtc step_paused s s' -> _is_paused (worker s) = false ->
  _is_paused (worker s') = false /\
  (length (futures s') + past_submit_wait (at_pc s')
   <= length (futures s) + past_submit_wait (at_pc s))%nat /\
  _processed_count (worker s') + past_result_wait (at_pc s')
  <= _processed_count (worker s) + past_result_wait (at_pc s).
Proof.
  induction 1 as [s|s s1 s' Hstep _ IH]; intros Hp; [repeat split; [exact Hp | lia..]|].
  destruct Hstep as [s s1 Hrun|s].
  - destruct (run_step_effect s s1 Hrun) as (_ & Ep & _).
    destruct (run_step_while_paused s s1 Hrun Hp) as (Hq & Hr).
    destruct IH as (IH1 & IH2 & IH3); [now rewrite Ep|].
    repeat split; [exact IH1 | lia | lia].
  - destruct IH as (IH1 & IH2 & IH3); [reflexivity|].
    simpl in IH2, IH3. repeat split; [exact IH1 | lia | lia].
Qed.

Lemma blocked_at_wait (s s' : state) :
  _is_paused (worker s) = false -> run_step s s' ->
  (forall i, at_pc s <> SubmitWait i) /\ (forall f, at_pc s <> ResultWait f).
Proof.
  intros Hp Hstep. destruct Hstep; split; intros j Hj; congruence.
Qed.

End Paused.

(** X15 (worker.py, [pause], [run] lines 100-133).  After [pause()], and
    as long as neither [resume()] nor [cancel()] is called: [is_paused]
    stays true; the worker submits at most the one task, and counts at
    most the one result, that had passed its wait before the call; and at
    either wait (lines 106 and 121) its thread cannot move. *)
Theorem pause_holds_the_worker (s s' : Worker.state) :
  rtc WorkerRuns.step_paused (Worker.apply_control Worker.Pause s) s' ->
  Worker.is_paused (Worker.worker s') = true /\
  (length (Worker.futures s')
   <= length (Worker.futures s) + WorkerRuns.past_submit_wait (Worker.at_pc s))%nat /\
  Worker._processed_count (Worker.worker s')
  <= Worker._processed_count (Worker.worker s)
     + WorkerRuns.past_result_wait (Worker.at_pc s) /\
  (forall s'', Worker.run_step s' s'' ->
               (forall i, Worker.at_pc s' <> Worker.SubmitWait i) /\
               (forall f, Worker.at_pc s' <> Worker.ResultWait f)).
Proof.
  intros Hsteps.
  destruct (while_paused _ s' Hsteps eq_refl) as (Hp & Hq & Hr).
  simpl in Hq, Hr.
  assert (0 <= WorkerRuns.past_result_wait (Worker.at_pc s'))
    by (destruct (Worker.at_pc s'); simpl; lia).
  split; [unfold Worker.is_paused; now rewrite Hp|].
  split; [lia|]. split; [lia|].
  intros s'' Hrun. now apply (blocked_at_wait s' s'').
Qed.

Lemma pause_holds_the_worker_witness :
  let s := {| Worker.worker := Worker.emit Worker.Started
                                 (Worker.init [Samples.one_task] false 50 100);
              Worker.at_pc := Worker.SubmitTask 0;
              Worker.futures := []; Worker.yielded := [] |} in
  exists s',
    rtc WorkerRuns.step_paused (Worker.apply_control Worker.Pause s) s' /\
    Worker.at_pc s' = Worker.ResultWait 0 /\
    Worker.futures s' = [0%nat] /\
    Worker.is_paused (Worker.worker s') = true /\
    Worker._processed_count (Worker.worker s') <= 0 /\
    (forall s'', Worker.run_step s' s'' ->
                 (forall f, Worker.at_pc s' <> Worker.ResultWait f)).
Proof.
  cbv zeta. eexists.
  assert (Hrun : rtc WorkerRuns.step_paused
            (Worker.apply_control Worker.Pause
               {| Worker.worker := Worker.emit Worker.Started
                                     (Worker.init [Samples.one_task] false 50 100);
                  Worker.at_pc := Worker.SubmitTask 0;
                  Worker.futures := []; Worker.yielded := [] |})
            {| Worker.worker := Worker.pause
                                  (Worker.emit Worker.Started
                                     (Worker.init [Samples.one_task] false 50 100));
               Worker.at_pc := Worker.ResultWait 0;
               Worker.futures := [0%nat]; Worker.yielded := [0%nat] |}).
  { eapply rtc_l; [apply WorkerRuns.sp_run, (Worker.step_submit_task _ 0%nat);
                   reflexivity|].
    eapply rtc_l; [apply WorkerRuns.sp_run, (Worker.step_submit_exhausted _ 1%nat);
                   [reflexivity | simpl; lia]|].
    eapply rtc_l; [apply WorkerRuns.sp_run, (Worker.step_next_future _ 0%nat);
                   [reflexivity | simpl; left | simpl; inversion 1]|].
    eapply rtc_l; [apply WorkerRuns.sp_run, (Worker.step_result_continue _ 0%nat);
                   reflexivity|].
    apply rtc_refl. }
  split; [exact Hrun|]. split; [reflexivity|]. split; [reflexivity|].
  destruct (pause_holds_the_worker _ _ Hrun) as (Hp & _ & Hr & Hblocked).
  split; [exact Hp|]. split; [exact Hr|].
  intros s'' Hstep. exact (proj2 (Hblocked s'' Hstep)).
Defined.

(** ** worker.py: the order of the signals *)

Section Protocol.
Import Worker WorkerRuns PyNum.

Variable n : nat.

Lemma filter_snoc {A} (f : A -> bool) (l : list A) (x : A) :
  List.filter f (l ++ [x]) = List.filter f l ++ (if f x then [x] else []).
Proof. rewrite List.filter_app. reflexivity. Qed.

Lemma protocol_goto (p : pc) (s : state) :
  at_pc s <> AtStart -> at_pc s <> Done -> at_pc s <> Finally ->
  p <> AtStart -> p <> Done ->
  signal_protocol s -> signal_protocol (goto p s).
Proof.
  unfold signal_protocol. simpl. intros H1 H2 H3 H4 H5 (Hsig & Hcount & Herr).
  assert (Hord : exists pre, signals (worker s) = Started :: pre /\
                             forallb is_middle pre = true).
  { destruct (at_pc s); try contradiction; exact Hsig. }
  assert (Hnone : List.filter is_error (signals (worker s)) = []).
  { destruct (at_pc s); try contradiction; exact Herr. }
  split; [|split; [exact Hcount|]].
  - destruct p; try contradiction; exact Hord.
  - rewrite Hnone. destruct p; simpl; first [reflexivity | lia].
Qed.

Lemma protocol_handle (s : state) (f : nat) (elapsed : float)
    (r : ProcessingResult) (w' : ProcessingWorker) :
  at_pc s = ResultHandle f ->
  _handle_result elapsed r (worker s) = Ok w' ->
  0 <= _processed_count (worker s) ->
  signal_protocol s -> signal_protocol (with_worker w' AfterHandle s).
Proof.
  unfold signal_protocol. simpl. intros Hpc Hres Hnn (Hsig & Hcount & Herr).
  rewrite Hpc in Hsig, Herr.
  destruct (handle_result_spec elapsed r (worker s))
    as (w1 & extra & Hw1 & Ep & _ & _ & _ & _ & _ & _ & _ & _ & Esig & Hextra).
  rewrite Hres in Hw1. injection Hw1 as <-.
  destruct Hsig as (pre & Hpre & Hmid).
  assert (Hx : forallb is_middle extra = true /\
               List.filter is_file_processed extra = [] /\
               List.filter is_error extra = []).
  { destruct Hextra as [->|(st & -> & _)]; now repeat split. }
  destruct Hx as (Hx1 & Hx2 & Hx3).
  rewrite Esig, Ep. split; [|split].
  - exists (pre ++ [FileProcessed (filename r) (success r) (message r);
                    Progress (_processed_count (worker s) + 1) (_total_files (worker s))
                      (filename r)] ++ extra).
    split; [now rewrite Hpre|].
    rewrite !forallb_app, Hmid, Hx1. reflexivity.
  - rewrite !List.filter_app, !length_app, Hcount, Hx2. simpl. lia.
  - rewrite !List.filter_app, Herr, Hx3. reflexivity.
Qed.

Lemma protocol_run_step (s s' : state) :
  run_invariant n s -> signal_protocol s -> run_step s s' -> signal_protocol s'.
Proof.
  intros Hinv Hprot Hstep.
  pose proof (counted_at_most_tasks n s Hinv) as Hcount.
  pose proof Hinv as (_ & Htot & _ & Hnn & _).
  destruct Hstep as
    [s Hpc|s Hpc|s e Hpc|s i Hpc Hi Hc|s i Hpc Hi Hc|s i Hpc Hi|s i Hpc Hp|s i Hpc
    |s f Hpc Hin Hnot|s Hpc Hall|s f Hpc Hc|s f Hpc Hc|s f Hpc Hp
    |s f elapsed r w' Hpc Hres|s Hpc Ha Hb|s e Hpc Hz|s Hpc|s e Hpc
    |s elapsed w' Hpc Hres|s elapsed e Hpc Hres];
    try solve [apply protocol_goto; [rewrite Hpc; discriminate.. | discriminate
                                     | discriminate | exact Hprot]].
  - (* started *)
    unfold signal_protocol in *. simpl. rewrite Hpc in Hprot.
    destruct Hprot as (-> & Hc & _). simpl in *.
    split; [now exists []|]. split; [exact Hc | reflexivity].
  - now apply (protocol_handle s f elapsed r w').
  - (* the critical error *)
    unfold signal_protocol in *. simpl. rewrite Hpc in Hprot.
    destruct Hprot as ((pre & Hpre & Hmid) & Hc & Herr).
    rewrite !filter_snoc. cbn [is_file_processed is_error].
    rewrite app_nil_r, Herr. simpl.
    split; [|split; [exact Hc | lia]].
    eexists. split; [rewrite Hpre; reflexivity|].
    rewrite forallb_app, Hmid. reflexivity.
  - (* the final statistics and finished *)
    apply emit_final_statistics_shape in Hres as (st & ->).
    unfold signal_protocol in *. simpl. rewrite Hpc in Hprot.
    destruct Hprot as ((pre & Hpre & Hmid) & Hc & Herr).
    rewrite <- app_assoc. simpl.
    rewrite !List.filter_app. simpl. rewrite !app_nil_r.
    split; [|split; [exact Hc | exact Herr]].
    exists pre, st. split; [now rewrite Hpre | exact Hmid].
  - (* the final statistics cannot raise *)
    exfalso. rewrite Hpc in Hcount. simpl in Hcount.
    destruct (emit_final_statistics_spec elapsed (worker s)) as (st & Hok & _);
      [lia | congruence].
Qed.

Lemma protocol_reachable (s0 s : state) :
  run_invariant n s0 -> signal_protocol s0 -> rtc step s0 s -> signal_protocol s.
Proof.
  intros H0 Hp0 Hsteps.
  induction Hsteps as [|s1 s2 s3 Hstep _ IH]; [exact Hp0|].
  destruct Hstep as [s1 s2 Hrun|c s1].
  - apply IH.
    + now apply (invariant_run_step n s1 s2).
    + now apply (protocol_run_step s1 s2).
  - apply IH; [now apply invariant_control|]. destruct c; exact Hp0.
Qed.

End Protocol.

(** X16 (worker.py, [run], [_handle_result], [_emit_final_statistics]).
    The signals of a run come in a fixed order.  Nothing is emitted before
    [started], which is emitted once; [finished] is emitted only as the
    very last signal, right after the final statistics, and the run that
    is done has emitted it; every [file_processed] stands for one counted
    result; the critical [error] is emitted at most once, and only on the
    way out. *)
Theorem signals_follow_protocol (tasks : list Worker.ProcessingTask) (callback : bool)
    (batch_size auto_save_interval : Z) (s : Worker.state) :
  rtc Worker.step
      (Worker.initial (Worker.init tasks callback batch_size auto_save_interval)) s ->
  WorkerRuns.signal_protocol s /\
  (Worker.Finished ∈ Worker.signals (Worker.worker s) ->
   Worker.at_pc s = Worker.Done) /\
  (Worker.at_pc s = Worker.Done ->
   head (Worker.signals (Worker.worker s)) = Some Worker.Started /\
   last (Worker.signals (Worker.worker s)) = Some Worker.Finished).
Proof.
  intros Hrun.
  assert (Hprot : WorkerRuns.signal_protocol s).
  { eapply (protocol_reachable (length tasks)); [| |exact Hrun].
    - now apply invariant_initial.
    - unfold WorkerRuns.signal_protocol. simpl. now repeat split. }
  split; [exact Hprot|].
  destruct Hprot as (Hsig & _). split.
  - intros Hfin.
    destruct (Worker.at_pc s) eqn:Hpc; try reflexivity; exfalso;
      try (destruct Hsig as (pre & Hpre & Hmid); rewrite Hpre in Hfin;
           apply elem_of_cons in Hfin as [Hfin|Hfin]; [discriminate|];
           rewrite forallb_forall in Hmid;
           apply list_elem_of_In, Hmid in Hfin; discriminate).
    rewrite Hsig in Hfin. inversion Hfin.
  - intros Hdone. rewrite Hdone in Hsig.
    destruct Hsig as (pre & st & -> & _). split; [reflexivity|].
    replace (Worker.Started :: pre ++ [Worker.Statistics st; Worker.Finished])
      with ((Worker.Started :: pre ++ [Worker.Statistics st]) ++ [Worker.Finished])
      by (simpl; now rewrite <- app_assoc).
    apply last_snoc.
Qed.

Lemma signals_follow_protocol_witness :
  exists s,
    rtc Worker.step
        (Worker.initial (Worker.init [Samples.one_task] false 50 100)) s /\
    Worker.at_pc s = Worker.Done /\
    WorkerRuns.signal_protocol s /\
    head (Worker.signals (Worker.worker s)) = Some Worker.Started /\
    last (Worker.signals (Worker.worker s)) = Some Worker.Finished.
Proof.
  destruct run_of_one_task as (s & Hrun & Hdone & _).
  exists s. split; [exact Hrun|]. split; [exact Hdone|].
  destruct (signals_follow_protocol [Samples.one_task] false 50 100 s Hrun)
    as (Hprot & _ & Hends).
  split; [exact Hprot | exact (Hends Hdone)].
Defined.

(** ** worker.py: the run that nobody cancels *)

Section Undisturbed.
Import Worker WorkerRuns PyNum.

Variable n : nat.

(** A step of the thread only adds signals. *)
Lemma run_step_signals (s s' : state) :
  run_step s s' -> exists extra, signals (worker s') = signals (worker s) ++ extra.
Proof.
  intros Hstep.
  destruct Hstep as
    [s Hpc|s Hpc|s e Hpc|s i Hpc Hi Hc|s i Hpc Hi Hc|s i Hpc Hi|s i Hpc Hp|s i Hpc
    |s f Hpc Hin Hnot|s Hpc Hall|s f Hpc Hc|s f Hpc Hc|s f Hpc Hp
    |s f elapsed r w' Hpc Hres|s Hpc Ha Hb|s e Hpc Hz|s Hpc|s e Hpc
    |s elapsed w' Hpc Hres|s elapsed e Hpc Hres];
    try solve [exists []; simpl; now rewrite app_nil_r];
    try solve [eexists; simpl; reflexivity].
  - destruct (handle_result_spec elapsed r (worker s))
      as (w1 & extra & Hw1 & _ & _ & _ & _ & _ & _ & _ & _ & _ & Esig & _).
    rewrite Hres in Hw1. injection Hw1 as <-. simpl. rewrite Esig. eauto.
  - apply emit_final_statistics_shape in Hres as (st & ->).
    simpl. rewrite <- app_assoc. eauto.
Qed.

Lemma undisturbed_before (s s' : state) :
  run_step s s' -> undisturbed (worker s') -> undisturbed (worker s).
Proof.
  intros Hstep [Hc He].
  destruct (run_step_effect s s' Hstep) as (Ec & _).
  destruct (run_step_signals s s' Hstep) as (extra & Esig).
  split; [congruence|].
  rewrite Esig, List.filter_app in He. now apply app_eq_nil in He.
Qed.

Lemma all_yielded (futs yld : list nat) :
  futs = seq 0 n -> NoDup yld -> (forall f, f ∈ yld -> f ∈ futs) ->
  (forall f, f ∈ futs -> f ∈ yld) -> length yld = n.
Proof.
  intros -> Hnd Hsub Hsup.
  assert (H1 : (length yld <= n)%nat).
  { apply distinct_indices_bounded; [exact Hnd|].
    intros f Hf. apply Hsub, elem_of_seq in Hf. lia. }
  assert (H2 : seq 0 n ⊆+ yld).
  { apply NoDup_submseteq; [apply NoDup_seq | exact Hsup]. }
  apply submseteq_length in H2. rewrite length_seq in H2. lia.
Qed.

Lemma handled_run_step (s s' : state) :
  run_invariant n s -> run_step s s' ->
  undisturbed (worker s') ->
  all_handled_so_far n s -> all_handled_so_far n s'.
Proof.
  intros Hinv Hstep Hund' Hall.
  pose proof (undisturbed_before s s' Hstep Hund') as [Hnc _].
  destruct Hund' as [_ Hnoerr'].
  pose proof Hinv as (_ & _ & Htasks & _ & _ & Hnd & Hsub & _ & _ & Hidx & _).
  unfold all_handled_so_far in *.
  destruct Hstep as
    [s Hpc|s Hpc|s e Hpc|s i Hpc Hi Hc|s i Hpc Hi Hc|s i Hpc Hi|s i Hpc Hp|s i Hpc
    |s f Hpc Hin Hnot|s Hpc Hyld|s f Hpc Hc|s f Hpc Hc|s f Hpc Hp
    |s f elapsed r w' Hpc Hres|s Hpc Ha Hb|s e Hpc Hz|s Hpc|s e Hpc
    |s elapsed w' Hpc Hres|s elapsed e Hpc Hres];
    rewrite Hpc in Hall; simpl in *; try exact Hall; try exact I; try congruence.
  - (* the tasks are exhausted *)
    rewrite Hpc in Hidx. simpl in Hidx.
    destruct Hall as (Hf & Hy & Hp). rewrite Hf, Hy, Hp.
    replace i with n by lia. now split.
  - (* a task is submitted *)
    destruct Hall as (Hf & Hy & Hp). rewrite Hf.
    split; [exact (eq_sym (seq_S i 0)) | now split].
  - (* a future is handed out *)
    destruct Hall as (Hf & Hp). split; [exact Hf|]. simpl. lia.
  - (* no future is left *)
    destruct Hall as (Hf & Hp). split; [exact Hf|].
    rewrite Hp. f_equal. now apply (all_yielded (futures s)).
  - (* a result is counted *)
    destruct (handle_result_spec elapsed r (worker s))
      as (w1 & extra & Hw1 & Ep & _).
    rewrite Hres in Hw1. injection Hw1 as <-.
    destruct Hall as (Hf & Hp). split; [exact Hf|]. lia.
  - (* the critical error *)
    rewrite List.filter_app in Hnoerr'. apply app_eq_nil in Hnoerr' as [_ H].
    discriminate.
  - (* the final statistics *)
    apply emit_final_statistics_shape in Hres as (st & ->). exact Hall.
Qed.

Lemma handled_reachable (s0 s : state) :
  run_invariant n s0 -> all_handled_so_far n s0 -> rtc step s0 s ->
  undisturbed (worker s) -> all_handled_so_far n s.
Proof.
  intros H0 Ha0 Hsteps. induction Hsteps as [|s1 s2 s3 Hstep Hrest IH]; [now intros _|].
  intros Hund. specialize (fun Hi Ha => IH Hi Ha Hund).
  assert (Hund2 : rtc step s2 s3 -> undisturbed (worker s3) -> undisturbed (worker s2)).
  { clear. induction 1 as [|a b c Hstep _ IH]; [exact id|].
    intros Hc. specialize (IH Hc). destruct Hstep as [a b Hrun|ctl a].
    - now apply (undisturbed_before a b).
    - destruct IH as [Hcan Herr]. destruct ctl; simpl in *;
        first [discriminate | now split]. }
  specialize (Hund2 Hrest Hund).
  destruct Hstep as [s1 s2 Hrun|c s1].
  - apply IH.
    + now apply (invariant_run_step n s1 s2).
    + now apply (handled_run_step s1 s2).
  - apply IH; [now apply invariant_control|].
    destruct c; exact Ha0.
Qed.

End Undisturbed.

(** A run of one task that nobody cancels and in which nothing raises. *)
Lemma clean_run_of_one_task :
  exists s,
    rtc Worker.step
        (Worker.initial (Worker.init [Samples.one_task] false 50 100)) s /\
    Worker.at_pc s = Worker.Done /\ WorkerRuns.undisturbed (Worker.worker s).
Proof.
  eexists. split.
  - eapply rtc_l; [apply Worker.step_run, Worker.step_start; reflexivity|].
    eapply rtc_l; [apply Worker.step_run, Worker.step_setup; reflexivity|].
    eapply rtc_l; [apply Worker.step_run, (Worker.step_submit_continue _ 0%nat);
                   [reflexivity | simpl; lia | reflexivity]|].
    eapply rtc_l; [apply Worker.step_run, (Worker.step_submit_wait _ 0%nat);
                   reflexivity|].
    eapply rtc_l; [apply Worker.step_run, (Worker.step_submit_task _ 0%nat);
                   reflexivity|].
    eapply rtc_l; [apply Worker.step_run, (Worker.step_submit_exhausted _ 1%nat);
                   [reflexivity | simpl; lia]|].
    eapply rtc_l; [apply Worker.step_run, (Worker.step_next_future _ 0%nat);
                   [reflexivity | simpl; left | simpl; inversion 1]|].
    eapply rtc_l; [apply Worker.step_run, (Worker.step_result_continue _ 0%nat);
                   reflexivity|].
    eapply rtc_l; [apply Worker.step_run, (Worker.step_result_wait _ 0%nat);
                   reflexivity|].
    eapply rtc_l; [apply Worker.step_run,
                     (Worker.step_handle _ 0%nat 0.5%float Samples.ok_result);
                   [reflexivity|]|].
    { vm_compute. reflexivity. }
    eapply rtc_l; [apply Worker.step_run, Worker.step_after_handle;
                   [reflexivity | simpl; lia | simpl; lia]|].
    eapply rtc_l; [apply Worker.step_run, Worker.step_no_future; [reflexivity|]|].
    { simpl. intros f Hf. exact Hf. }
    eapply rtc_l; [apply Worker.step_run, Worker.step_shutdown; reflexivity|].
    eapply rtc_l; [apply Worker.step_run, (Worker.step_finally _ 0.75%float);
                   [reflexivity|]|].
    { vm_compute. reflexivity. }
    apply rtc_refl.
  - vm_compute. repeat split.
Qed.

(** X17 (worker.py, [run] lines 96-148).  A run that was not cancelled
    and met no critical error handles every task.  In every state of such
    a run the tasks submitted are the first ones, in order, and every
    future handed out by [as_completed] is counted; when the run is done
    all tasks were submitted, the processed count is the number of tasks,
    and success and failure counts add up to it. *)
Theorem undisturbed_run_handles_every_task (tasks : list Worker.ProcessingTask)
    (callback : bool) (batch_size auto_save_interval : Z) (s : Worker.state) :
  rtc Worker.step
      (Worker.initial (Worker.init tasks callback batch_size auto_save_interval)) s ->
  WorkerRuns.undisturbed (Worker.worker s) ->
  WorkerRuns.all_handled_so_far (length tasks) s /\
  (Worker.at_pc s = Worker.Done ->
   Worker.futures s = seq 0 (length tasks) /\
   Worker._processed_count (Worker.worker s) = Z.of_nat (length tasks) /\
   Worker._success_count (Worker.worker s) + Worker._failed_count (Worker.worker s)
   = Z.of_nat (length tasks)).
Proof.
  intros Hrun Hund.
  assert (Hinv : Worker.run_invariant (length tasks) s).
  { eapply invariant_reachable; [|exact Hrun]. now apply invariant_initial. }
  assert (Hall : WorkerRuns.all_handled_so_far (length tasks) s).
  { eapply (handled_reachable (length tasks)); [| |exact Hrun|exact Hund].
    - now apply invariant_initial.
    - unfold WorkerRuns.all_handled_so_far. simpl. now repeat split. }
  split; [exact Hall|]. intros Hdone.
  unfold WorkerRuns.all_handled_so_far in Hall. rewrite Hdone in Hall.
  destruct Hall as (Hf & Hp). destruct Hinv as (Hsum & _).
  repeat split; [exact Hf | exact Hp | lia].
Qed.

Lemma undisturbed_run_handles_every_task_witness :
  exists s,
    rtc Worker.step
        (Worker.initial (Worker.init [Samples.one_task] false 50 100)) s /\
    Worker.at_pc s = Worker.Done /\
    Worker.futures s = [0%nat] /\
    Worker._processed_count (Worker.worker s) = 1 /\
    Worker._success_count (Worker.worker s) + Worker._failed_count (Worker.worker s) = 1.
Proof.
  destruct clean_run_of_one_task as (s & Hrun & Hdone & Hund).
  exists s. split; [exact Hrun|]. split; [exact Hdone|].
  exact (proj2 (undisturbed_run_handles_every_task [Samples.one_task] false 50 100 s
                  Hrun Hund) Hdone).
Defined.

(** ** image_processor.py: the font cache *)

Section FontCache.
Import ImageProcessor Fonts.

Lemma load_first_cases (fs : FontSystem) (size : Z) (font_paths : list str) (f : Font) :
  load_first fs size font_paths = Ok f ->
  (exists tried font_path rest,
      font_paths = tried ++ font_path :: rest /\
      Forall (fun p => truetype fs p size = OsError) tried /\
      truetype fs font_path size = Loaded f) \/
  (Forall (fun p => truetype fs p size = OsError) font_paths /\ f = load_default fs).
Proof.
  induction font_paths as [|p rest IH]; simpl.
  - intros [= <-]. right. now split.
  - destruct (truetype fs p size) as [g| |msg] eqn:E; [| |discriminate].
    + intros [= <-]. left. exists [], p, rest. now repeat split.
    + intros H. destruct (IH H) as [(tried & q & rest' & -> & Htried & Hq)|[Hall ->]].
      * left. exists (p :: tried), q, rest'. repeat split; [|exact Hq].
        now constructor.
      * right. split; [now constructor | reflexivity].
Qed.

Lemma load_first_raises (fs : FontSystem) (size : Z) (font_paths : list str) (e : str) :
  load_first fs size font_paths = Raise e ->
  exists tried font_path rest,
    font_paths = tried ++ font_path :: rest /\
    Forall (fun p => truetype fs p size = OsError) tried /\
    truetype fs font_path size = OtherError e.
Proof.
  induction font_paths as [|p rest IH]; simpl; [discriminate|].
  destruct (truetype fs p size) as [g| |msg] eqn:E; [discriminate| |].
  - intros H. destruct (IH H) as (tried & q & rest' & -> & Htried & Hq).
    exists (p :: tried), q, rest'. repeat split; [|exact Hq]. now constructor.
  - intros [= <-]. exists [], p, rest. now repeat split.
Qed.

End FontCache.

(** X18 (image_processor.py, [_get_font]).  The font of a size is loaded
    once.  When [_get_font] returns a font, the cache holds it under the
    size and is otherwise unchanged, and every later call for that size
    returns the same font and leaves the cache alone, whatever the font
    files have become.  A font that was not cached is the one of the first
    path of the list that loads, the paths before it having failed with
    [OSError], or the built-in font when all nine fail so.  When the call
    raises, a path failed with another exception after the earlier ones
    failed with [OSError], and the cache is unchanged. *)
Theorem get_font_loads_once (fs fs' : Fonts.FontSystem)
    (cache cache' : gmap Z ImageProcessor.Font) (size : Z)
    (r : result ImageProcessor.Font) :
  Fonts._get_font fs cache size = (cache', r) ->
  match r with
  | Ok f =>
      cache' !! size = Some f /\
      (forall n, n <> size -> cache' !! n = cache !! n) /\
      Fonts._get_font fs' cache' size = (cache', Ok f) /\
      (cache !! size = None ->
       (exists tried font_path rest,
           Fonts.FONT_PATHS = tried ++ font_path :: rest /\
           Forall (fun p => Fonts.truetype fs p size = Fonts.OsError) tried /\
           Fonts.truetype fs font_path size = Fonts.Loaded f) \/
       (Forall (fun p => Fonts.truetype fs p size = Fonts.OsError) Fonts.FONT_PATHS /\
        f = Fonts.load_default fs))
  | Raise e =>
      cache' = cache /\ cache !! size = None /\
      exists tried font_path rest,
        Fonts.FONT_PATHS = tried ++ font_path :: rest /\
        Forall (fun p => Fonts.truetype fs p size = Fonts.OsError) tried /\
        Fonts.truetype fs font_path size = Fonts.OtherError e
  end.
Proof.
  unfold Fonts._get_font at 1.
  destruct (cache !! size) as [g|] eqn:Hc.
  - intros [= <- <-]. repeat split.
    + exact Hc.
    + unfold Fonts._get_font. now rewrite Hc.
    + discriminate.
  - destruct (Fonts.load_first fs size Fonts.FONT_PATHS) as [f|e] eqn:Hl.
    + intros [= <- <-]. repeat split.
      * apply lookup_insert_eq.
      * intros n Hn. now apply lookup_insert_ne.
      * unfold Fonts._get_font. now rewrite lookup_insert_eq.
      * intros _. now apply load_first_cases.
    + intros [= <- <-]. repeat split. now apply load_first_raises.
Qed.

Lemma get_font_loads_once_witness :
  let first := Fonts._get_font MoreSamples.linux_fonts ∅ 10 in
  snd first = Ok Samples.mono_font /\
  fst first !! 10 = Some Samples.mono_font /\
  Fonts._get_font MoreSamples.no_fonts (fst first) 10 = (fst first, Ok Samples.mono_font) /\
  snd (Fonts._get_font MoreSamples.no_fonts ∅ 10)
  = Ok (Fonts.load_default MoreSamples.no_fonts) /\
  Fonts._get_font MoreSamples.linux_fonts ∅ 0
  = (∅, Raise (lit "font size must be greater than 0")).
Proof.
  cbv zeta.
  assert (E : Fonts._get_font MoreSamples.linux_fonts ∅ 10
              = (<[10 := Samples.mono_font]> ∅, Ok Samples.mono_font))
    by reflexivity.
  pose proof (get_font_loads_once MoreSamples.linux_fonts MoreSamples.no_fonts
                ∅ _ 10 _ E) as (H1 & _ & H3 & _).
  rewrite E. cbn [fst snd].
  split; [reflexivity|]. split; [exact H1|]. split; [exact H3|].
  split; reflexivity.
Defined.

(** ** image_processor.py: the two previews *)

Section PreviewFacts.
Import ImageProcessor Preview.

Variable env : Env.

Lemma mbind_call_raise {B} (op : draw_op) (e : str) (k : unit -> M B) :
  perform env op = Raise e -> mbind (call env op) k = ([], Raise e).
Proof. intros H. unfold call. now rewrite H. Qed.

Lemma list_omap_app {A B} (f : A -> option B) (l k : list A) :
  list_omap A B f (l ++ k) = list_omap A B f l ++ list_omap A B f k.
Proof. apply omap_app. Qed.

Lemma dict_set_fresh {K V} `{EqDecision K} (k : K) (v : V) (d : list (K * V)) :
  k ∉ d.*1 -> dict_set k v d = d ++ [(k, v)].
Proof. intros H. unfold dict_set. now rewrite decide_False. Qed.

(** A key of the fields: none of the texts' keys, and not the stamp's. *)
Local Abbreviation field_key :=
  (fun k : position_key =>
     k = KInn \/ k = KKpp \/ k = KSupplierLabel \/ k = KSupplierValue).

Lemma preview_fields_agree (s : Settings) (excel_data : gmap str str)
    (fs text_x line_height text_y y : Z) :
  snd (draw_preview_fields env s excel_data text_x line_height text_y) = Ok y ->
  exists d,
    place_preview_fields s excel_data fs text_x line_height [] text_y = (d, y) /\
    omap text_placed d
    = omap text_drawn (fst (draw_preview_fields env s excel_data text_x line_height text_y)) /\
    omap stamp_placed d = [] /\
    omap stamp_drawn (fst (draw_preview_fields env s excel_data text_x line_height text_y))
    = [] /\
    Forall field_key d.*1 /\ NoDup d.*1 /\
    Forall (fun e => at_x (snd e) = text_x /\
                     (0 <= line_height ->
                      text_y <= at_y (snd e) /\ at_y (snd e) + line_height <= y)) d /\
    (0 <= line_height -> text_y <= y).
Proof.
  unfold draw_preview_fields, place_preview_fields, call.
  destruct (inn_enabled s && has_field excel_data (lit "inn"));
    destruct (kpp_enabled s && has_field excel_data (lit "kpp"));
    destruct (supplier_enabled s && has_field excel_data (lit "supplier"));
    simpl;
    repeat match goal with
           | |- context [perform env ?op] =>
               destruct (perform env op) as [[]|?]; simpl; try discriminate
           end;
    simpl; intros Hy; injection Hy as Hy; subst y; eexists; (split; [reflexivity|]);
    simpl; repeat split; try reflexivity;
    repeat (first [apply Forall_cons; split | apply Forall_nil
                   | apply NoDup_cons; split | apply NoDup_nil]);
    simpl; try tauto; try lia; try (split; [reflexivity | intros; lia]);
    try (intros H; repeat (apply elem_of_cons in H as [H|H]; [discriminate|]);
         inversion H).
Qed.

Lemma preview_texts_agree (fs text_x line_height : Z) (fixed_texts : list str) :
  forall (idx : nat) (d : list (position_key * placed)) (text_y y : Z),
    (forall j, (idx <= j)%nat -> KText (j + 1) ∉ d.*1) ->
    snd (draw_preview_texts env text_x line_height fixed_texts text_y) = Ok y ->
    exists added,
      place_preview_texts fs text_x line_height idx fixed_texts d text_y
      = (d ++ added, y) /\
      omap text_placed added
      = omap text_drawn (fst (draw_preview_texts env text_x line_height fixed_texts text_y)) /\
      omap stamp_placed added = [] /\
      omap stamp_drawn (fst (draw_preview_texts env text_x line_height fixed_texts text_y))
      = [] /\
      Forall (fun k => exists j, (idx <= j)%nat /\ k = KText (j + 1)) added.*1 /\
      NoDup added.*1 /\
      Forall (fun e => at_x (snd e) = text_x /\
                       (0 <= line_height ->
                        text_y <= at_y (snd e) /\ at_y (snd e) + line_height <= y))
             added /\
      (0 <= line_height -> text_y <= y).
Proof.
  induction fixed_texts as [|text rest IH]; intros idx d text_y y Hfresh Hy.
  - simpl in *. injection Hy as <-. exists []. rewrite app_nil_r.
    repeat split; try constructor. lia.
  - destruct text as [|c text].
    + simpl in *. destruct (IH (S idx) d text_y y) as (added & Hp & Ht & Hs & Hd & Hk & Hnd & Hpos & Hle).
      { intros j Hj. apply Hfresh. lia. }
      { exact Hy. }
      exists added. repeat split; try assumption.
      eapply Forall_impl; [exact Hk|]. intros k (j & Hj & ->). exists j. split; [lia|reflexivity].
    + cbn [draw_preview_texts place_preview_texts] in *.
      unfold call in *.
      destruct (perform env (DrawText text_x text_y (shorten 35 (c :: text))))
        as [[]|e] eqn:Hperf; [|discriminate].
      rewrite mbind_ok in Hy |- *. cbn [fst snd] in Hy |- *.
      rewrite dict_set_fresh by (apply Hfresh; lia).
      destruct (IH (S idx)
                  (d ++ [(KText (idx + 1),
                          {| at_x := text_x; at_y := text_y;
                             shown := Some (shorten 35 (c :: text));
                             shown_size := Some fs |})])
                  (text_y + line_height) y)
        as (added & Hp & Ht & Hs & Hd & Hk & Hnd & Hpos & Hle).
      { intros j Hj. rewrite fmap_app. apply not_elem_of_app. split.
        - apply Hfresh. lia.
        - simpl. intros H. apply elem_of_cons in H as [H|H]; [|inversion H].
          injection H as H. lia. }
      { exact Hy. }
      eexists (_ :: added). split; [rewrite Hp, <- app_assoc; reflexivity|].
      simpl.
      split; [f_equal; exact Ht|]. split; [exact Hs|]. split; [exact Hd|].
      repeat split.
      * constructor; [exists idx; split; [lia | reflexivity]|].
        eapply Forall_impl; [exact Hk|]. intros k (j & Hj & ->). exists j.
        split; [lia | reflexivity].
      * constructor; [|exact Hnd].
        intros Hin. rewrite Forall_forall in Hk.
        apply Hk in Hin as (j & Hj & Heq).
        injection Heq as Heq. lia.
      * constructor.
        -- simpl. split; [reflexivity|]. intros Hlh. specialize (Hle Hlh). lia.
        -- eapply Forall_impl; [exact Hpos|]. intros e0 [Hx Hyy].
           split; [exact Hx|]. intros Hlh. specialize (Hyy Hlh). lia.
      * intros Hlh. specialize (Hle Hlh). lia.
Qed.

End PreviewFacts.

Section PreviewAgreement.
Import ImageProcessor Preview.

Variable env : Env.
Variable thumbnail : Image -> Z * Z -> result Image.
Variable s : Settings.
Variable stamp_image : option Image.
Variable image_path : str.
Variable excel_data : gmap str str.
Variable fixed_texts : list str.
Variable max_size : Z * Z.

Local Abbreviation drawing :=
  (generate_preview_body env thumbnail s stamp_image image_path excel_data
     fixed_texts max_size).
Local Abbreviation placing :=
  (generate_preview_with_positions_body env thumbnail s stamp_image image_path
     excel_data fixed_texts max_size).

Ltac lift_stage r a e :=
  destruct r as [a|e];
  [ rewrite !(mbind_lift_ok (Ok a) a _ eq_refl)
  | rewrite !(mbind_lift_raise (Raise e) e _ eq_refl); simpl; discriminate ].

Ltac call_stage op H :=
  let e := fresh "e" in
  destruct (perform env op) as [[]|e] eqn:H;
  [ rewrite !(mbind_call_ok env op _ H)
  | rewrite !(mbind_call_raise env op e _ H); simpl; discriminate ].

Lemma bodies_agree (image : Z * Z) :
  snd drawing = Ok image ->
  exists element_positions,
    snd placing = Ok (image, element_positions) /\
    omap text_placed element_positions = omap text_drawn (fst drawing) /\
    omap stamp_placed element_positions = omap stamp_drawn (fst drawing) /\
    NoDup element_positions.*1.
Proof.
  unfold generate_preview_body, generate_preview_with_positions_body.
  lift_stage (image_open env image_path) original e.
  lift_stage (thumbnail original max_size) small e.
  lift_stage (get_font env (preview_font_size s)) font e.
  lift_stage (preview_layout s stamp_image small excel_data fixed_texts
                (preview_panel_width s max_size) (preview_font_size s + 4)) lay e.
  call_stage (NewImage (new_width lay) (new_height lay) (background_color s)) Hnew.
  call_stage (PasteOriginal (fst (paste_at lay)) (snd (paste_at lay))) Hpaste.
  cbn [fst snd].
  destruct (panel_area lay) as [[[x0 y0] x1] y1].
  destruct (draw_preview_fields env s excel_data (x0 + 5) (preview_font_size s + 4)
              (y0 + 5)) as [l1 [ty1|e]] eqn:Hf; [|simpl; discriminate].
  destruct (preview_fields_agree env s excel_data (preview_font_size s) (x0 + 5)
              (preview_font_size s + 4) (y0 + 5) ty1)
    as (d & Hplace & Ht1 & Hs1 & Hd1 & Hkeys & Hnd1 & _); [now rewrite Hf|].
  rewrite Hf in Ht1, Hd1. cbn [fst] in Ht1, Hd1.
  rewrite Hplace, mbind_ok. cbn [fst snd].
  destruct (draw_preview_texts env (x0 + 5) (preview_font_size s + 4) fixed_texts
              (ty1 + 5)) as [l2 [ty2|e]] eqn:Hx; [|simpl; discriminate].
  destruct (preview_texts_agree env (preview_font_size s) (x0 + 5)
              (preview_font_size s + 4) fixed_texts 0 d (ty1 + 5) ty2)
    as (added & Hplace2 & Ht2 & Hs2 & Hd2 & Hkeys2 & Hnd2 & _).
  { intros j _ Hin. rewrite Forall_forall in Hkeys.
    destruct (Hkeys _ Hin) as [H|[H|[H|H]]]; discriminate. }
  { now rewrite Hx. }
  rewrite Hx in Ht2, Hd2. cbn [fst] in Ht2, Hd2.
  rewrite Hplace2, mbind_ok. cbn [fst snd].
  assert (Hall : NoDup (d ++ added).*1 /\ KStamp ∉ (d ++ added).*1).
  { rewrite fmap_app. split.
    - apply NoDup_app. split; [exact Hnd1|]. split; [|exact Hnd2].
      intros k Hk1 Hk2. rewrite Forall_forall in Hkeys, Hkeys2.
      destruct (Hkeys2 _ Hk2) as (j & _ & ->).
      destruct (Hkeys _ Hk1) as [H|[H|[H|H]]]; discriminate.
    - intros Hin. apply elem_of_app in Hin as [Hin|Hin].
      + rewrite Forall_forall in Hkeys.
        destruct (Hkeys _ Hin) as [H|[H|[H|H]]]; discriminate.
      + rewrite Forall_forall in Hkeys2.
        destruct (Hkeys2 _ Hin) as (j & _ & H). discriminate. }
  destruct Hall as [Hnd Hfresh].
  assert (Hquiet :
    omap text_placed (d ++ added) = omap text_drawn (l1 ++ l2) /\
    omap stamp_placed (d ++ added) = [] /\ omap stamp_drawn (l1 ++ l2) = []).
  { rewrite !omap_app, Ht1, Ht2, Hs1, Hs2, Hd1, Hd2. now repeat split. }
  destruct Hquiet as (Ht & Hs & Hd).
  destruct stamp_image as [stamp|]; [destruct (stamp_enabled s)|].
  - lift_stage (preview_stamp_size s (preview_panel_width s max_size) stamp) sz e.
    destruct sz as [sw sh].
    call_stage (ResizeStamp sw sh) Hresize.
    unfold call.
    destruct (perform env (PasteStamp sw sh (x0 + 5) (ty2 + 20))) as [[]|e];
      [|simpl; discriminate].
    simpl. intros [= <-]. eexists. split; [reflexivity|].
    rewrite (dict_set_fresh _ _ _ Hfresh).
    rewrite (app_assoc l1 l2).
    split; [|split].
    + rewrite omap_app, Ht, (list_omap_app text_drawn (l1 ++ l2)). reflexivity.
    + rewrite omap_app, Hs, (list_omap_app stamp_drawn (l1 ++ l2)).
      change (list_omap draw_op (Z * Z)%type stamp_drawn (l1 ++ l2))
        with (omap stamp_drawn (l1 ++ l2)).
      rewrite Hd. reflexivity.
    + rewrite fmap_app.
      apply NoDup_app. split; [exact Hnd|]. split; [|apply NoDup_singleton].
      intros k Hk Hk'. apply list_elem_of_singleton in Hk' as ->. contradiction.
  - simpl. intros [= <-]. eexists. split; [reflexivity|].
    rewrite !app_nil_r.
    repeat split; [exact Ht | rewrite Hs; symmetry; exact Hd | exact Hnd].
  - simpl. intros [= <-]. eexists. split; [reflexivity|].
    rewrite !app_nil_r.
    repeat split; [exact Ht | rewrite Hs; symmetry; exact Hd | exact Hnd].
Qed.

End PreviewAgreement.

(** X19 (image_processor.py, [generate_preview] and
    [generate_preview_with_positions]).  The two previews agree.  Whenever
    [generate_preview] returns an image, [generate_preview_with_positions]
    on the same inputs returns a background of the same size and a
    dictionary that places, in order, exactly the texts that
    [generate_preview] draws, at the same coordinates, and the stamp
    exactly where [generate_preview] pastes it; no key of the dictionary is
    assigned twice. *)
Theorem preview_positions_match_drawing (env : ImageProcessor.Env)
    (thumbnail : ImageProcessor.Image -> Z * Z -> result ImageProcessor.Image)
    (format : option str) (s : ImageProcessor.Settings)
    (stamp_image : option ImageProcessor.Image) (image_path : str)
    (excel_data : gmap str str) (fixed_texts : list str) (max_size : Z * Z)
    (image : Z * Z) :
  snd (Preview.generate_preview env thumbnail format s stamp_image image_path
         excel_data fixed_texts max_size) = Some image ->
  exists element_positions,
    snd (Preview.generate_preview_with_positions env thumbnail s stamp_image
           image_path excel_data fixed_texts max_size)
    = Some (image, element_positions) /\
    omap Preview.text_placed element_positions
    = omap Preview.text_drawn
        (fst (fst (Preview.generate_preview env thumbnail format s stamp_image
                     image_path excel_data fixed_texts max_size))) /\
    omap Preview.stamp_placed element_positions
    = omap Preview.stamp_drawn
        (fst (fst (Preview.generate_preview env thumbnail format s stamp_image
                     image_path excel_data fixed_texts max_size))) /\
    NoDup element_positions.*1.
Proof.
  unfold Preview.generate_preview, Preview.generate_preview_with_positions.
  intros H.
  destruct (bodies_agree env thumbnail s stamp_image image_path excel_data
              fixed_texts max_size image) as (ep & Hp & Ht & Hs & Hnd).
  { destruct (Preview.generate_preview_body _ _ _ _ _ _ _ _) as [calls [v|e]];
      simpl in *; congruence. }
  exists ep.
  destruct (Preview.generate_preview_body _ _ _ _ _ _ _ _) as [calls [v|e]];
    destruct (Preview.generate_preview_with_positions_body _ _ _ _ _ _ _ _)
      as [calls' [v'|e']]; simpl in *; try discriminate.
  injection Hp as <-. now repeat split.
Qed.

Lemma preview_positions_match_drawing_witness :
  exists element_positions,
    snd (Preview.generate_preview_with_positions Samples.sample_env
           MoreSamples.sample_thumbnail (Samples.sample_settings (lit "bottom"))
           (Some Samples.wide_stamp) (lit "1-1.png") Samples.sample_row
           [Samples.long_text; []; lit "short"] (800, 600))
    = Some (800, 677, element_positions) /\
    omap Preview.text_placed element_positions
    = omap Preview.text_drawn
        (fst (fst (Preview.generate_preview Samples.sample_env
                     MoreSamples.sample_thumbnail (Some (lit "pdf"))
                     (Samples.sample_settings (lit "bottom"))
                     (Some Samples.wide_stamp) (lit "1-1.png") Samples.sample_row
                     [Samples.long_text; []; lit "short"] (800, 600)))) /\
    omap Preview.stamp_placed element_positions
    = omap Preview.stamp_drawn
        (fst (fst (Preview.generate_preview Samples.sample_env
                     MoreSamples.sample_thumbnail (Some (lit "pdf"))
                     (Samples.sample_settings (lit "bottom"))
                     (Some Samples.wide_stamp) (lit "1-1.png") Samples.sample_row
                     [Samples.long_text; []; lit "short"] (800, 600)))) /\
    NoDup element_positions.*1.
Proof.
  apply (preview_positions_match_drawing Samples.sample_env
           MoreSamples.sample_thumbnail (Some (lit "pdf"))
           (Samples.sample_settings (lit "bottom")) (Some Samples.wide_stamp)
           (lit "1-1.png") Samples.sample_row [Samples.long_text; []; lit "short"]
           (800, 600) (800, 677)).
  vm_compute. reflexivity.
Defined.

(** ** image_processor.py: the bottom panel of the preview *)

Section PreviewPlacing.
Import ImageProcessor Preview PyNum.

Lemma dict_set_entries {K V} `{EqDecision K} (k : K) (v : V) (d : list (K * V))
    (e : K * V) :
  e ∈ dict_set k v d -> e ∈ d \/ e = (k, v).
Proof.
  unfold dict_set. destruct (decide (k ∈ d.*1)).
  - intros H0. apply list_elem_of_fmap in H0 as (kv & -> & Hkv).
    destruct (decide (kv.1 = k)); [now right | now left].
  - intros H0. apply elem_of_app in H0 as [H0|H0]; [now left|].
    apply list_elem_of_singleton in H0. now right.
Qed.

Variable s : Settings.
Variable excel_data : gmap str str.
Variable fs text_x line_height : Z.
Hypothesis line_height_nonneg : 0 <= line_height.

(** An entry placed between [lo] and [hi]. *)
Local Abbreviation within :=
  (fun (lo hi : Z) (e : position_key * placed) =>
     at_x (snd e) = text_x /\ is_Some (shown (snd e)) /\
     lo <= at_y (snd e) /\ at_y (snd e) + line_height <= hi).

Lemma place_fields_bounds (d : list (position_key * placed)) (text_y : Z) :
  let r := place_preview_fields s excel_data fs text_x line_height d text_y in
  snd r
  = text_y
    + (if inn_enabled s && has_field excel_data (lit "inn") then line_height else 0)
    + (if kpp_enabled s && has_field excel_data (lit "kpp") then line_height else 0)
    + (if supplier_enabled s && has_field excel_data (lit "supplier")
       then line_height * 2 else 0) /\
  forall e, e ∈ fst r -> e ∈ d \/ within text_y (snd r) e.
Proof.
  unfold place_preview_fields.
  destruct (inn_enabled s && has_field excel_data (lit "inn"));
    destruct (kpp_enabled s && has_field excel_data (lit "kpp"));
    destruct (supplier_enabled s && has_field excel_data (lit "supplier"));
    cbn [fst snd]; (split; [lia|]); intros e He;
    repeat match type of He with
           | _ ∈ dict_set _ _ _ =>
               apply dict_set_entries in He as [He | ->];
               [|right; simpl; repeat split; (eauto || lia)]
           end;
    now left.
Qed.

Lemma preview_texts_height_shift (fixed_texts : list str) :
  forall h, preview_texts_height line_height fixed_texts h
            = h + preview_texts_height line_height fixed_texts 0.
Proof.
  unfold preview_texts_height.
  induction fixed_texts as [|text rest IH]; intros h; simpl; [lia|].
  destruct text; [apply IH|]. rewrite IH. symmetry. rewrite IH. lia.
Qed.

Lemma preview_texts_height_grows (fixed_texts : list str) (h : Z) :
  h <= preview_texts_height line_height fixed_texts h.
Proof.
  revert h. unfold preview_texts_height.
  induction fixed_texts as [|text rest IH]; intros h; simpl; [lia|].
  destruct text; [apply IH|]. etransitivity; [|apply IH]. lia.
Qed.

Lemma place_texts_bounds (fixed_texts : list str) :
  forall (idx : nat) (d : list (position_key * placed)) (text_y : Z),
    let r := place_preview_texts fs text_x line_height idx fixed_texts d text_y in
    snd r = preview_texts_height line_height fixed_texts text_y /\
    forall e, e ∈ fst r -> e ∈ d \/ within text_y (snd r) e.
Proof.
  induction fixed_texts as [|text rest IH]; intros idx d text_y.
  - simpl. split; [reflexivity | now left].
  - destruct text as [|c text].
    + apply IH.
    + cbn [place_preview_texts].
      destruct (IH (S idx)
                  (dict_set (KText (idx + 1))
                     {| at_x := text_x; at_y := text_y;
                        shown := Some (shorten 35 (c :: text));
                        shown_size := Some fs |} d)
                  (text_y + line_height)) as [Hy Hin].
      cbv zeta in Hy, Hin. split; [exact Hy|].
      intros e He. rewrite Hy in *.
      pose proof (preview_texts_height_grows rest (text_y + line_height)) as Hg.
      destruct (Hin e He) as [Hd|(Hx & Hs & Hlo & Hhi)].
      * apply dict_set_entries in Hd as [Hd | ->]; [now left|].
        right. simpl. repeat split; [eauto | lia | lia].
      * right. repeat split; [exact Hx | exact Hs | lia | exact Hhi].
Qed.

End PreviewPlacing.

Section PreviewBottom.
Import ImageProcessor Preview PyNum.

(** The height the sizing reserves for the stamp is the height of the
    stamp placed, and 40. *)
Lemma reserve_of_preview_stamp (s : Settings) (panel_width : Z) (stamp : Image)
    (w h : Z) :
  stamp_enabled s = true ->
  preview_stamp_size s panel_width stamp = Ok (w, h) ->
  stamp_reserve s (Some stamp) (panel_width - 20) = Ok (h + 40).
Proof.
  intros Hen. unfold preview_stamp_size, stamp_reserve. rewrite Hen.
  destruct (py_int (PrimFloat.mul (float_of_Z (width stamp)) (stamp_scale s)))
    as [sw|e1]; simpl; [|discriminate].
  destruct (py_int (PrimFloat.mul (float_of_Z (height stamp)) (stamp_scale s)))
    as [sh|e2]; simpl; [|discriminate].
  destruct (panel_width - 20 <? sw).
  - destruct (py_truediv (panel_width - 20) sw) as [ratio|e3]; simpl; [|discriminate].
    destruct (py_int (PrimFloat.mul (float_of_Z sh) ratio)) as [h'|e4]; simpl;
      [|discriminate].
    now intros [= _ <-].
  - now intros [= _ <-].
Qed.

End PreviewBottom.

(** X20 (image_processor.py, [generate_preview_with_positions], lines
    562-645).  For a position other than "left" the preview's panel holds
    everything it places.  When the height reserved for the stamp is not
    negative and the call returns, every text of the dictionary is placed
    at x = 5, not above 5 pixels below the top of the panel, and its line
    ends at least 35 pixels above the bottom of the background; the stamp
    is placed at x = 5, below the texts, and ends exactly 55 pixels above
    the bottom. *)
Theorem preview_bottom_panel_holds_entries (env : ImageProcessor.Env)
    (thumbnail : ImageProcessor.Image -> Z * Z -> result ImageProcessor.Image)
    (s : ImageProcessor.Settings) (stamp_image : option ImageProcessor.Image)
    (image_path : str) (excel_data : gmap str str) (fixed_texts : list str)
    (max_size : Z * Z) (image : Z * Z)
    (element_positions : list (Preview.position_key * Preview.placed)) :
  ImageProcessor.position s <> lit "left" ->
  (forall reserve,
      ImageProcessor.stamp_reserve s stamp_image
        (Preview.preview_panel_width s max_size - 20) = Ok reserve ->
      0 <= reserve) ->
  snd (Preview.generate_preview_with_positions env thumbnail s stamp_image
         image_path excel_data fixed_texts max_size)
  = Some (image, element_positions) ->
  exists original small,
    ImageProcessor.image_open env image_path = Ok original /\
    thumbnail original max_size = Ok small /\
    fst image = ImageProcessor.width small /\
    Forall (fun e =>
              Preview.at_x (snd e) = 5 /\
              match Preview.shown (snd e) with
              | Some _ =>
                  ImageProcessor.height small + 5 <= Preview.at_y (snd e) /\
                  Preview.at_y (snd e) + (Preview.preview_font_size s + 4)
                  <= snd image - 35
              | None =>
                  fst e = Preview.KStamp /\
                  ImageProcessor.height small + 30 <= Preview.at_y (snd e) /\
                  forall stamp w h,
                    stamp_image = Some stamp ->
                    Preview.preview_stamp_size s
                      (Preview.preview_panel_width s max_size) stamp = Ok (w, h) ->
                    Preview.at_y (snd e) + h = snd image - 55
              end) element_positions.
Proof.
  intros Hbottom Hreserve.
  assert (Hlh : 0 <= Preview.preview_font_size s + 4)
    by (unfold Preview.preview_font_size; lia).
  unfold Preview.generate_preview_with_positions,
    Preview.generate_preview_with_positions_body.
  destruct (ImageProcessor.image_open env image_path) as [original|e];
    [rewrite !(mbind_lift_ok (Ok original) original _ eq_refl)
    |rewrite !(mbind_lift_raise (Raise e) e _ eq_refl); simpl; discriminate].
  destruct (thumbnail original max_size) as [small|e] eqn:Hthumb;
    [rewrite !(mbind_lift_ok (Ok small) small _ eq_refl)
    |rewrite !(mbind_lift_raise (Raise e) e _ eq_refl); simpl; discriminate].
  destruct (ImageProcessor.get_font env (Preview.preview_font_size s)) as [font|e];
    [rewrite !(mbind_lift_ok (Ok font) font _ eq_refl)
    |rewrite !(mbind_lift_raise (Raise e) e _ eq_refl); simpl; discriminate].
  unfold Preview.preview_layout. rewrite decide_False by exact Hbottom.
  destruct (ImageProcessor.stamp_reserve s stamp_image
              (Preview.preview_panel_width s max_size - 20)) as [reserve|e] eqn:Hres;
    [|simpl; discriminate].
  specialize (Hreserve reserve eq_refl).
  cbn [bind]. rewrite (mbind_lift_ok (Ok _) _ _ eq_refl).
  cbn [ImageProcessor.new_width ImageProcessor.new_height ImageProcessor.paste_at
       ImageProcessor.panel_area fst snd].
  match goal with
  | |- context [ImageProcessor.call env ?op] =>
      destruct (ImageProcessor.perform env op) as [[]|e] eqn:Hnew;
      [rewrite (mbind_call_ok env op _ Hnew)
      |rewrite (mbind_call_raise env op e _ Hnew); simpl; discriminate]
  end.
  match goal with
  | |- context [ImageProcessor.call env ?op] =>
      destruct (ImageProcessor.perform env op) as [[]|e] eqn:Hpaste;
      [rewrite (mbind_call_ok env op _ Hpaste)
      |rewrite (mbind_call_raise env op e _ Hpaste); simpl; discriminate]
  end.
  cbn [fst snd].
  pose proof (place_fields_bounds s excel_data (Preview.preview_font_size s) (0 + 5)
                (Preview.preview_font_size s + 4) Hlh []
                (ImageProcessor.height small + 5)) as [Hy1 Hin1].
  cbv zeta in Hy1, Hin1.
  destruct (Preview.place_preview_fields s excel_data (Preview.preview_font_size s)
              (0 + 5) (Preview.preview_font_size s + 4) []
              (ImageProcessor.height small + 5)) as [d1 y1].
  cbn [fst snd] in Hy1, Hin1.
  pose proof (place_texts_bounds (Preview.preview_font_size s) (0 + 5)
                (Preview.preview_font_size s + 4) Hlh fixed_texts 0 d1 (y1 + 5))
    as [Hy2 Hin2].
  cbv zeta in Hy2, Hin2.
  destruct (Preview.place_preview_texts (Preview.preview_font_size s) (0 + 5)
              (Preview.preview_font_size s + 4) 0 fixed_texts d1 (y1 + 5))
    as [d2 y2].
  cbn [fst snd] in Hy2, Hin2.
  set (F := (if ImageProcessor.inn_enabled s
                && ImageProcessor.has_field excel_data (lit "inn")
             then Preview.preview_font_size s + 4 else 0)
            + (if ImageProcessor.kpp_enabled s
                  && ImageProcessor.has_field excel_data (lit "kpp")
               then Preview.preview_font_size s + 4 else 0)
            + (if ImageProcessor.supplier_enabled s
                  && ImageProcessor.has_field excel_data (lit "supplier")
               then (Preview.preview_font_size s + 4) * 2 else 0)) in *.
  set (T := Preview.preview_texts_height (Preview.preview_font_size s + 4)
              fixed_texts 0) in *.
  assert (Hy2' : y2 = y1 + 5 + T).
  { rewrite Hy2. subst T. apply preview_texts_height_shift. }
  assert (HT : 0 <= T).
  { subst T. apply (preview_texts_height_grows _ Hlh fixed_texts 0). }
  assert (HF : 0 <= F).
  { subst F. destruct (_ && _), (_ && _), (_ && _); lia. }
  assert (Hnew_height :
    ImageProcessor.height small
    + (Preview.preview_texts_height (Preview.preview_font_size s + 4) fixed_texts
         ((if ImageProcessor.supplier_enabled s
              && ImageProcessor.has_field excel_data (lit "supplier")
           then (if ImageProcessor.kpp_enabled s
                    && ImageProcessor.has_field excel_data (lit "kpp")
                 then (if ImageProcessor.inn_enabled s
                          && ImageProcessor.has_field excel_data (lit "inn")
                       then 20 + (Preview.preview_font_size s + 4) else 20)
                      + (Preview.preview_font_size s + 4)
                 else (if ImageProcessor.inn_enabled s
                          && ImageProcessor.has_field excel_data (lit "inn")
                       then 20 + (Preview.preview_font_size s + 4) else 20))
                + (Preview.preview_font_size s + 4) * 2
           else (if ImageProcessor.kpp_enabled s
                    && ImageProcessor.has_field excel_data (lit "kpp")
                 then (if ImageProcessor.inn_enabled s
                          && ImageProcessor.has_field excel_data (lit "inn")
                       then 20 + (Preview.preview_font_size s + 4) else 20)
                      + (Preview.preview_font_size s + 4)
                 else (if ImageProcessor.inn_enabled s
                          && ImageProcessor.has_field excel_data (lit "inn")
                       then 20 + (Preview.preview_font_size s + 4) else 20))) + 5)
       + reserve + 20)
    = ImageProcessor.height small + 45 + F + T + reserve).
  { rewrite preview_texts_height_shift by exact Hlh. subst F T.
    destruct (_ && _), (_ && _), (_ && _); lia. }
  assert (Hentries : forall e, e ∈ d2 ->
            Preview.at_x (snd e) = 5 /\ is_Some (Preview.shown (snd e)) /\
            ImageProcessor.height small + 5 <= Preview.at_y (snd e) /\
            Preview.at_y (snd e) + (Preview.preview_font_size s + 4) <= y2).
  { intros e He. destruct (Hin2 e He) as [Hd|(Hx & Hs & Hlo & Hhi)].
    - destruct (Hin1 e Hd) as [Hd0|(Hx & Hs & Hlo & Hhi)]; [inversion Hd0|].
      repeat split; [exact Hx | exact Hs | exact Hlo | lia].
    - repeat split; [exact Hx | exact Hs | lia | exact Hhi]. }
  intros Hret. exists original, small.
  split; [reflexivity|]. split; [exact Hthumb|].
  destruct stamp_image as [stamp|]; [destruct (ImageProcessor.stamp_enabled s) eqn:Hen|].
  - destruct (Preview.preview_stamp_size s (Preview.preview_panel_width s max_size) stamp)
      as [[sw sh]|e] eqn:Hsz;
      [rewrite (mbind_lift_ok (Ok (sw, sh)) (sw, sh) _ eq_refl) in Hret
      |rewrite (mbind_lift_raise (Raise e) e _ eq_refl) in Hret; simpl in Hret;
       discriminate].
    pose proof (reserve_of_preview_stamp s _ stamp sw sh Hen Hsz) as Hr.
    rewrite Hres in Hr. injection Hr as ->.
    simpl in Hret. injection Hret as <- <-. cbn [fst snd].
    split; [reflexivity|]. rewrite Hnew_height.
    apply Forall_forall. intros e He.
    apply dict_set_entries in He as [He| ->].
    + destruct (Hentries e He) as (Hx & [t Hs] & Hlo & Hhi). rewrite Hs.
      split; [exact Hx|]. split; [exact Hlo | lia].
    + simpl. split; [reflexivity|]. split; [reflexivity|]. split; [lia|].
      intros stamp' w h [= <-] Hsz'. rewrite Hsz in Hsz'. injection Hsz' as _ <-. lia.
  - simpl in Hret. injection Hret as <- <-. cbn [fst snd].
    split; [reflexivity|]. rewrite Hnew_height.
    apply Forall_forall. intros e He.
    destruct (Hentries e He) as (Hx & [t Hs] & Hlo & Hhi). rewrite Hs.
    split; [exact Hx|]. split; [exact Hlo | lia].
  - simpl in Hret. injection Hret as <- <-. cbn [fst snd].
    split; [reflexivity|]. rewrite Hnew_height.
    apply Forall_forall. intros e He.
    destruct (Hentries e He) as (Hx & [t Hs] & Hlo & Hhi). rewrite Hs.
    split; [exact Hx|]. split; [exact Hlo | lia].
Qed.

Lemma preview_bottom_panel_holds_entries_witness :
  let r := Preview.generate_preview_with_positions Samples.sample_env
             MoreSamples.sample_thumbnail (Samples.sample_settings (lit "bottom"))
             (Some Samples.wide_stamp) (lit "1-1.png") Samples.sample_row
             [Samples.long_text; []; lit "short"] (800, 600) in
  exists element_positions,
    snd r = Some (800, 677, element_positions) /\
    element_positions.*1
    = [Preview.KInn; Preview.KSupplierLabel; Preview.KSupplierValue;
       Preview.KText 1; Preview.KText 3; Preview.KStamp] /\
    exists original small,
      ImageProcessor.image_open Samples.sample_env (lit "1-1.png") = Ok original /\
      MoreSamples.sample_thumbnail original (800, 600) = Ok small /\
      fst (800, 677) = ImageProcessor.width small /\
      Forall (fun e =>
                Preview.at_x (snd e) = 5 /\
                match Preview.shown (snd e) with
                | Some _ =>
                    ImageProcessor.height small + 5 <= Preview.at_y (snd e) /\
                    Preview.at_y (snd e)
                    + (Preview.preview_font_size (Samples.sample_settings (lit "bottom")) + 4)
                    <= snd (800, 677) - 35
                | None =>
                    fst e = Preview.KStamp /\
                    ImageProcessor.height small + 30 <= Preview.at_y (snd e) /\
                    forall stamp w h,
                      Some Samples.wide_stamp = Some stamp ->
                      Preview.preview_stamp_size (Samples.sample_settings (lit "bottom"))
                        (Preview.preview_panel_width
                           (Samples.sample_settings (lit "bottom")) (800, 600)) stamp
                      = Ok (w, h) ->
                      Preview.at_y (snd e) + h = snd (800, 677) - 55
                end) element_positions.
Proof.
  cbv zeta. eexists. split; [vm_compute; reflexivity|].
  split; [reflexivity|].
  apply (preview_bottom_panel_holds_entries Samples.sample_env
           MoreSamples.sample_thumbnail (Samples.sample_settings (lit "bottom"))
           (Some Samples.wide_stamp) (lit "1-1.png") Samples.sample_row
           [Samples.long_text; []; lit "short"] (800, 600) (800, 677)).
  - vm_compute. discriminate.
  - intros reserve H. vm_compute in H. injection H as <-. lia.
  - vm_compute. reflexivity.
Defined.

(** ** image_processor.py: [generate_preview] and the format setting *)

(** X21 (image_processor.py, [generate_preview] lines 376-516, with
    [process_image] lines 305-321).  [generate_preview] sets
    [settings["format"]] to "png" and restores it only when it returns an
    image.  After a preview that failed (it returned [None]) the entry is
    "png" whatever it was, so every later [process_image] of that
    processor that succeeds has written its output with the PNG save,
    under whatever name; after a preview that returned an image the entry
    is the former one, "png" if there was none. *)
Theorem failed_preview_leaves_png_format (env : ImageProcessor.Env)
    (thumbnail : ImageProcessor.Image -> Z * Z -> result ImageProcessor.Image)
    (format : option str) (s : ImageProcessor.Settings)
    (stamp_image : option ImageProcessor.Image) (image_path : str)
    (excel_data : gmap str str) (fixed_texts : list str) (max_size : Z * Z) :
  let r := Preview.generate_preview env thumbnail format s stamp_image image_path
             excel_data fixed_texts max_size in
  let format' := snd (fst r) in
  match snd r with
  | Some _ => format' = Some (default (lit "png") format)
  | None =>
      format' = Some (lit "png") /\
      forall env2 stamp2 image_path2 excel_data2 fixed_texts2 output_path,
        let run := ImageProcessor.process_image env2 (Preview.with_format format' s)
                     stamp2 image_path2 excel_data2 fixed_texts2 output_path in
        fst (snd run) = true ->
        last (fst run) = Some (ImageProcessor.SavePng output_path)
  end.
Proof.
  intros r format'. subst r format'. unfold Preview.generate_preview.
  destruct (Preview.generate_preview_body _ _ _ _ _ _ _ _) as [calls [v|e]];
    cbn [fst snd]; [reflexivity|].
  split; [reflexivity|].
  intros env2 stamp2 image_path2 excel_data2 fixed_texts2 output_path. cbv zeta.
  intros Hok.
  pose proof (body_saved_last env2 (Preview.with_format (Some (lit "png")) s)
                output_path stamp2 image_path2 excel_data2 fixed_texts2) as H.
  rewrite process_image_calls.
  unfold ImageProcessor.process_image in Hok.
  destruct (ImageProcessor.process_image_body _ _ _ _ _ _ _) as [calls2 [v2|e2]];
    cbn [fst snd] in *; [|discriminate].
  destruct H as (pre & -> & _).
  rewrite decide_False by (vm_compute; discriminate).
  rewrite decide_False by (vm_compute; intros [H|H]; discriminate).
  replace (pre ++ [ImageProcessor.MkdirParent output_path;
                   ImageProcessor.SavePng output_path])
    with ((pre ++ [ImageProcessor.MkdirParent output_path])
          ++ [ImageProcessor.SavePng output_path])
    by (now rewrite <- app_assoc).
  apply last_snoc.
Qed.

(** A preview of a file that cannot be opened, with the format "pdf": the
    entry is left at "png". *)
Example failed_preview_sample :
  Preview.generate_preview
    {| ImageProcessor.image_open := fun _ => Raise (lit "cannot identify image file");
       ImageProcessor.get_font := ImageProcessor.get_font Samples.sample_env;
       ImageProcessor.perform := ImageProcessor.perform Samples.sample_env |}
    MoreSamples.sample_thumbnail (Some (lit "pdf"))
    (Samples.sample_settings (lit "left")) None (lit "broken.png")
    Samples.sample_row [] (800, 600)
  = ([], Some (lit "png"), None).
Proof. reflexivity. Qed.

(** ** main_window.py: the tasks of a run *)

Section TasksBuilt.
Import MainWindow.

Variable value : Type.
Variable path_name : str -> str.
Variable path_join : str -> str -> str.
Variable rd : Excel.ExcelReader value.
Variable ui : Ui.

Local Abbreviation lookup := (Excel.get_data_for_file value path_name rd).
Local Abbreviation stem := (fun p : str => Excel.stem_of_name (path_name p)).
Local Abbreviation add := (add_task value path_name path_join rd ui).
Local Abbreviation build := (build_tasks value path_name path_join rd ui).

Lemma add_task_fold (image_files : list str) :
  forall tasks, fold_left add image_files tasks = tasks ++ build image_files.
Proof.
  unfold build_tasks.
  induction image_files as [|p rest IH]; intros tasks; simpl.
  - now rewrite app_nil_r.
  - rewrite IH. symmetry. rewrite IH. unfold add_task.
    destruct (no_data (lookup p)); simpl; [reflexivity|].
    now rewrite <- app_assoc.
Qed.

Lemma build_tasks_cons (p : str) (rest : list str) :
  build (p :: rest) = add [] p ++ build rest.
Proof. unfold build_tasks at 1. simpl. apply add_task_fold. Qed.

(** What a task says of its image. *)
Local Abbreviation of_the_sheet :=
  (fun t : Worker.ProcessingTask =>
     lookup (Worker.image_path t) = Some (Worker.excel_data t) /\
     Worker.excel_data t <> ∅ /\
     Worker.output_path t
     = path_join (output_folder_edit ui) (stem (Worker.image_path t) ++ output_ext ui) /\
     Worker.fixed_texts t = _get_fixed_texts ui).

Lemma build_tasks_paths (image_files : list str) :
  map Worker.image_path (build image_files)
  = List.filter (fun p => negb (no_data (lookup p))) image_files.
Proof.
  induction image_files as [|p rest IH]; [reflexivity|].
  rewrite build_tasks_cons, map_app, IH. unfold add_task. simpl.
  destruct (no_data (lookup p)); reflexivity.
Qed.

Lemma build_tasks_of_the_sheet (image_files : list str) :
  Forall of_the_sheet (build image_files).
Proof.
  induction image_files as [|p rest IH]; [constructor|].
  rewrite build_tasks_cons. apply Forall_app. split; [|exact IH].
  unfold add_task. destruct (lookup p) as [row|] eqn:E; simpl; [|constructor].
  destruct (bool_decide (row = ∅)) eqn:Hrow; simpl; constructor; [|constructor].
  simpl. rewrite E. apply bool_decide_eq_false in Hrow. now repeat split.
Qed.

End TasksBuilt.

(** X22 (main_window.py, [_start_processing] lines 1695-1710, with
    [ExcelReader.get_data_for_file]).  The tasks of a run are the images
    that have a row, in the order of the image list; each task carries the
    row found for its image, the fixed texts of the window, and the output
    path [output_folder / (stem + extension)].  So two images with the same
    stem (a.png and a.jpg) get the same row and the same output path, and
    when the stems of the images that have a row are all different (and
    the path join keeps different names apart) no two tasks write the same
    file. *)
Theorem tasks_follow_the_sheet (value : Type) (path_name : str -> str)
    (path_join : str -> str -> str) (rd : Excel.ExcelReader value)
    (ui : MainWindow.Ui) (image_files : list str) :
  let tasks := MainWindow.build_tasks value path_name path_join rd ui image_files in
  let stem := fun p => Excel.stem_of_name (path_name p) in
  map Worker.image_path tasks
  = List.filter (fun p => negb (MainWindow.no_data
                                  (Excel.get_data_for_file value path_name rd p)))
                image_files /\
  Forall (fun t =>
            Excel.get_data_for_file value path_name rd (Worker.image_path t)
            = Some (Worker.excel_data t) /\
            Worker.excel_data t <> ∅ /\
            Worker.output_path t
            = path_join (MainWindow.output_folder_edit ui)
                        (stem (Worker.image_path t) ++ MainWindow.output_ext ui) /\
            Worker.fixed_texts t = MainWindow._get_fixed_texts ui) tasks /\
  (forall t1 t2, t1 ∈ tasks -> t2 ∈ tasks ->
                 stem (Worker.image_path t1) = stem (Worker.image_path t2) ->
                 Worker.output_path t1 = Worker.output_path t2 /\
                 Worker.excel_data t1 = Worker.excel_data t2) /\
  ((forall a b, path_join (MainWindow.output_folder_edit ui) a
                = path_join (MainWindow.output_folder_edit ui) b -> a = b) ->
   NoDup (map stem (map Worker.image_path tasks)) ->
   NoDup (map Worker.output_path tasks)).
Proof.
  intros tasks stem.
  pose proof (build_tasks_of_the_sheet value path_name path_join rd ui image_files)
    as Hall.
  fold tasks in Hall.
  split; [apply build_tasks_paths|]. split; [exact Hall|]. split.
  - intros t1 t2 H1 H2 Hstem. rewrite Forall_forall in Hall.
    destruct (Hall t1 H1) as (Hd1 & _ & Ho1 & _).
    destruct (Hall t2 H2) as (Hd2 & _ & Ho2 & _).
    split.
    + rewrite Ho1, Ho2. subst stem. simpl in Hstem. now rewrite Hstem.
    + unfold Excel.get_data_for_file in Hd1, Hd2. subst stem. simpl in Hstem.
      rewrite Hstem in Hd1. congruence.
  - intros Hinj. clearbody tasks. induction Hall as [|t rest Ht Hrest IH].
    + constructor.
    + simpl. intros Hnd. apply NoDup_cons in Hnd as [Hnew Hnd].
      apply NoDup_cons. split; [|now apply IH].
      intros Hin. apply Hnew.
      apply list_elem_of_fmap in Hin as (t' & Hout & Ht').
      rewrite Forall_forall in Hrest. destruct (Hrest t' Ht') as (_ & _ & Ho' & _).
      destruct Ht as (_ & _ & Ho & _).
      rewrite Ho, Ho' in Hout. apply Hinj in Hout.
      apply app_inv_tail in Hout.
      apply list_elem_of_fmap. exists (Worker.image_path t').
      split; [exact Hout|]. apply list_elem_of_fmap. now exists t'.
Qed.

(** Three images, of which the first two share the stem 1-1 and the third
    has no row: two tasks, and both write out/1-1.pdf. *)
Example tasks_collide_on_equal_stems :
  map (fun t => (Worker.image_path t, Worker.output_path t))
      (MainWindow.build_tasks str Excel.posix_name MoreSamples.posix_join
         Samples.parsed_reader MoreSamples.sample_ui
         [lit "in/1-1.jpg"; lit "in/1-1.png"; lit "in/9-9.png"])
  = [(lit "in/1-1.jpg", lit "out/1-1.pdf"); (lit "in/1-1.png", lit "out/1-1.pdf")].
Proof. vm_compute. reflexivity. Qed.

(** ** main_window.py: the format and the extension *)

(** X23 (main_window.py, [_get_processor_settings] and [_start_processing]
    lines 1688-1693, with [process_image] lines 305-321).  The file is
    saved in the format its extension names.  For every task the window
    builds, a [process_image] that succeeds with the window's settings
    ends with the save of the task's output path, and that save is the PNG
    one when the extension chosen is ".png", the JPEG one for ".jpg" and
    the PDF one for ".pdf"; these are the only extensions. *)
Theorem saved_in_the_format_of_the_extension
    (value : Type) (path_name : str -> str) (path_join : str -> str -> str)
    (rd : Excel.ExcelReader value) (ui : MainWindow.Ui) (image_files : list str)
    (env : ImageProcessor.Env) (stamp_image : option ImageProcessor.Image)
    (t : Worker.ProcessingTask) :
  t ∈ MainWindow.build_tasks value path_name path_join rd ui image_files ->
  fst (snd (ImageProcessor.process_image env (MainWindow._get_processor_settings ui)
              stamp_image (Worker.image_path t) (Worker.excel_data t)
              (Worker.fixed_texts t) (Worker.output_path t))) = true ->
  exists base op,
    Worker.output_path t
    = path_join (MainWindow.output_folder_edit ui) (base ++ MainWindow.output_ext ui) /\
    last (fst (ImageProcessor.process_image env (MainWindow._get_processor_settings ui)
                 stamp_image (Worker.image_path t) (Worker.excel_data t)
                 (Worker.fixed_texts t) (Worker.output_path t))) = Some op /\
    ((MainWindow.output_ext ui = lit ".png" /\
      op = ImageProcessor.SavePng (Worker.output_path t)) \/
     (MainWindow.output_ext ui = lit ".jpg" /\
      op = ImageProcessor.SaveJpeg (Worker.output_path t)) \/
     (MainWindow.output_ext ui = lit ".pdf" /\
      op = ImageProcessor.SavePdf (Worker.output_path t))).
Proof.
  intros Hin Hok.
  pose proof (build_tasks_of_the_sheet value path_name path_join rd ui image_files)
    as Hall.
  rewrite Forall_forall in Hall. destruct (Hall t Hin) as (_ & _ & Hout & _).
  exists (Excel.stem_of_name (path_name (Worker.image_path t))).
  pose proof (body_saved_last env (MainWindow._get_processor_settings ui)
                (Worker.output_path t) stamp_image (Worker.image_path t)
                (Worker.excel_data t) (Worker.fixed_texts t)) as H.
  rewrite process_image_calls.
  unfold ImageProcessor.process_image in Hok.
  destruct (ImageProcessor.process_image_body _ _ _ _ _ _ _) as [calls [v|e]];
    cbn [fst snd] in *; [|discriminate].
  destruct H as (pre & -> & _).
  unfold MainWindow.output_ext in *.
  cbn [MainWindow._get_processor_settings ImageProcessor.output_format].
  assert (Hlast : forall a b c : ImageProcessor.draw_op,
             last (pre ++ [a; b; c]) = Some c /\ last (pre ++ [a; c]) = Some c).
  { intros a b c. split.
    - replace (pre ++ [a; b; c]) with ((pre ++ [a; b]) ++ [c])
        by (now rewrite <- app_assoc).
      apply last_snoc.
    - replace (pre ++ [a; c]) with ((pre ++ [a]) ++ [c])
        by (now rewrite <- app_assoc).
      apply last_snoc. }
  destruct (MainWindow.format_png ui); [|destruct (MainWindow.format_jpg ui)].
  - rewrite decide_False by discriminate.
    rewrite decide_False by (intros [H|H]; discriminate).
    exists (ImageProcessor.SavePng (Worker.output_path t)).
    split; [exact Hout|]. split; [apply (proj2 (Hlast _ ImageProcessor.ConvertRGB _))|].
    left. now split.
  - rewrite decide_False by discriminate.
    rewrite decide_True by (now left).
    exists (ImageProcessor.SaveJpeg (Worker.output_path t)).
    split; [exact Hout|]. split; [apply (proj1 (Hlast _ _ _))|].
    right; left. now split.
  - rewrite decide_True by reflexivity.
    exists (ImageProcessor.SavePdf (Worker.output_path t)).
    split; [exact Hout|]. split; [apply (proj1 (Hlast _ _ _))|].
    right; right. now split.
Qed.

Lemma saved_in_the_format_of_the_extension_witness :
  let t := {| Worker.image_path := lit "in/1-1.png";
              Worker.output_path := lit "out/1-1.pdf";
              Worker.excel_data :=
                default ∅ (Excel.get_data_for_file str Excel.posix_name
                             Samples.parsed_reader (lit "in/1-1.png"));
              Worker.fixed_texts := [lit "first"; lit "third"] |} in
  exists base op,
    Worker.output_path t
    = MoreSamples.posix_join (MainWindow.output_folder_edit MoreSamples.sample_ui)
        (base ++ MainWindow.output_ext MoreSamples.sample_ui) /\
    last (fst (ImageProcessor.process_image Samples.sample_env
                 (MainWindow._get_processor_settings MoreSamples.sample_ui)
                 None (Worker.image_path t) (Worker.excel_data t)
                 (Worker.fixed_texts t) (Worker.output_path t))) = Some op /\
    ((MainWindow.output_ext MoreSamples.sample_ui = lit ".png" /\
      op = ImageProcessor.SavePng (Worker.output_path t)) \/
     (MainWindow.output_ext MoreSamples.sample_ui = lit ".jpg" /\
      op = ImageProcessor.SaveJpeg (Worker.output_path t)) \/
     (MainWindow.output_ext MoreSamples.sample_ui = lit ".pdf" /\
      op = ImageProcessor.SavePdf (Worker.output_path t))).
Proof.
  cbv zeta.
  apply (saved_in_the_format_of_the_extension str Excel.posix_name
           MoreSamples.posix_join Samples.parsed_reader MoreSamples.sample_ui
           [lit "in/1-1.png"] Samples.sample_env None).
  - apply list_elem_of_In. vm_compute. left. reflexivity.
  - vm_compute. reflexivity.
Defined.

(** ** main_window.py: how a run started by the window can end *)

Section WindowRuns.
Import Worker WorkerRuns PyNum.

Variable n : nat.

Lemma handle_result_callback (elapsed : float) (r : ProcessingResult)
    (w w' : ProcessingWorker) :
  _handle_result elapsed r w = Ok w' ->
  has_checkpoint_callback w' = has_checkpoint_callback w.
Proof.
  unfold _handle_result.
  set (w1 := emit _ (emit _ (count_result (success r) w))).
  destruct (_processed_count w1 mod 10 =? 0).
  - destruct (emit_statistics_spec elapsed w1) as (st & -> & _).
    now intros [= <-].
  - now intros [= <-].
Qed.

Lemma plain_config_run_step (s s' : state) :
  run_step s s' -> plain_config (worker s) -> plain_config (worker s').
Proof.
  intros Hstep Hcfg.
  destruct Hstep as
    [s Hpc|s Hpc|s e Hpc|s i Hpc Hi Hc|s i Hpc Hi Hc|s i Hpc Hi|s i Hpc Hp|s i Hpc
    |s f Hpc Hin Hnot|s Hpc Hyld|s f Hpc Hc|s f Hpc Hc|s f Hpc Hp
    |s f elapsed r w' Hpc Hres|s Hpc Ha Hb|s e Hpc Hz|s Hpc|s e Hpc
    |s elapsed w' Hpc Hres|s elapsed e Hpc Hres];
    try exact Hcfg.
  - pose proof (handle_result_callback elapsed r (worker s) w' Hres) as Hcb.
    destruct (handle_result_spec elapsed r (worker s))
      as (w1 & extra & Hw1 & _ & _ & _ & _ & _ & _ & _ & Eb & Ea & _).
    rewrite Hres in Hw1. injection Hw1 as <-.
    unfold plain_config in *. simpl. now rewrite Hcb, Eb, Ea.
  - apply emit_final_statistics_shape in Hres as (st & ->). exact Hcfg.
Qed.

Lemma setup_run_step (s s' : state) :
  plain_config (worker s) -> signal_protocol s -> run_step s s' ->
  error_only_from_setup s -> error_only_from_setup s'.
Proof.
  intros (Hcb & Hbs & Hasi) (_ & _ & Herr) Hstep Hset.
  unfold error_only_from_setup in *.
  destruct Hstep as
    [s Hpc|s Hpc|s e Hpc|s i Hpc Hi Hc|s i Hpc Hi Hc|s i Hpc Hi|s i Hpc Hp|s i Hpc
    |s f Hpc Hin Hnot|s Hpc Hyld|s f Hpc Hc|s f Hpc Hc|s f Hpc Hp
    |s f elapsed r w' Hpc Hres|s Hpc Ha Hb|s e Hpc Hz|s Hpc|s e Hpc
    |s elapsed w' Hpc Hres|s elapsed e Hpc Hres];
    rewrite Hpc in Hset, Herr; simpl in *; try exact Hset; try exact I.
  - (* lines 136-142 cannot raise *)
    exfalso. destruct Hz as [H|[H|[H _]]]; congruence.
  - (* leaving the with block: no error so far *)
    intros H. now rewrite Herr in H.
  - intros _. exact Hset.
  - apply emit_final_statistics_shape in Hres as (st & ->). simpl.
    rewrite <- app_assoc, List.filter_app. simpl. now rewrite app_nil_r.
Qed.

Lemma setup_reachable (s0 s : state) :
  run_invariant n s0 -> signal_protocol s0 -> plain_config (worker s0) ->
  error_only_from_setup s0 -> rtc step s0 s ->
  error_only_from_setup s.
Proof.
  intros H0 Hp0 Hc0 He0 Hsteps.
  induction Hsteps as [|s1 s2 s3 Hstep _ IH]; [exact He0|].
  destruct Hstep as [s1 s2 Hrun|c s1].
  - apply IH.
    + now apply (invariant_run_step n s1 s2).
    + now apply (protocol_run_step n s1 s2).
    + now apply (plain_config_run_step s1 s2).
    + now apply (setup_run_step s1 s2).
  - apply IH; [now apply invariant_control | destruct c; exact Hp0
              | destruct c; exact Hc0 | destruct c; exact He0].
Qed.

End WindowRuns.



(** ** settings.py *)

Section SettingsFacts.
Import SettingsStore.

Lemma dict_get_set_eq (k : str) (v : json) (d : list (str * json)) :
  dict_get k (Preview.dict_set k v d) = Some v.
Proof.
  unfold Preview.dict_set. destruct (decide (k ∈ d.*1)) as [Hin|Hin].
  - induction d as [|[k' v'] d IH]; [inversion Hin|].
    simpl. destruct (decide (k' = k)) as [->|Hne]; simpl.
    + now rewrite decide_True.
    + rewrite decide_False by exact Hne. apply IH.
      simpl in Hin. apply elem_of_cons in Hin as [Hin|Hin]; [congruence | exact Hin].
  - induction d as [|[k' v'] d IH]; simpl.
    + now rewrite decide_True.
    + simpl in Hin. apply not_elem_of_cons in Hin as [Hne Hin].
      rewrite decide_False by congruence. now apply IH.
Qed.

Lemma dict_get_set_ne (k k0 : str) (v : json) (d : list (str * json)) :
  k0 <> k -> dict_get k0 (Preview.dict_set k v d) = dict_get k0 d.
Proof.
  intros Hne. unfold Preview.dict_set. destruct (decide (k ∈ d.*1)) as [Hin|Hin].
  - clear Hin. induction d as [|[k' v'] d IH]; [reflexivity|].
    simpl. destruct (decide (k' = k)) as [->|Hk]; simpl.
    + rewrite !decide_False by congruence. exact IH.
    + destruct (decide (k' = k0)); [reflexivity | exact IH].
  - clear Hin. induction d as [|[k' v'] d IH]; simpl.
    + now rewrite decide_False by congruence.
    + destruct (decide (k' = k0)); [reflexivity | exact IH].
Qed.

Lemma dict_get_none (k : str) (d : list (str * json)) :
  k ∉ d.*1 -> dict_get k d = None.
Proof.
  induction d as [|[k' v'] d IH]; [reflexivity|]. simpl. intros Hin.
  apply not_elem_of_cons in Hin as [Hne Hin].
  rewrite decide_False by congruence. now apply IH.
Qed.

(** A copy is equal to the original. *)
Lemma deep_copy_equal : forall obj : json, _deep_copy obj = obj.
Proof.
  fix IH 1. intros [a|items|entries]; simpl.
  - reflexivity.
  - f_equal. induction items as [|x items IHl]; [reflexivity|].
    simpl. now rewrite IH, IHl.
  - f_equal. induction entries as [|[k v] entries IHl]; [reflexivity|].
    simpl. now rewrite IH, IHl.
Qed.

Lemma copy_entries (entries : list (str * json)) :
  map (fun kv => (fst kv, _deep_copy (snd kv))) entries = entries.
Proof.
  induction entries as [|[k v] entries IH]; [reflexivity|].
  simpl. now rewrite deep_copy_equal, IH.
Qed.

(** The inner loop of [merge_value] is the loop of [_deep_merge]. *)
Lemma merge_value_dict (base updates : list (str * json)) :
  merge_value (Some (JDict base)) (JDict updates) = JDict (_deep_merge base updates).
Proof.
  unfold _deep_merge, merge_loop. simpl. f_equal.
  generalize (map (fun kv => (fst kv, _deep_copy (snd kv))) base) as result.
  induction updates as [|[key value] rest IH]; intros result; [reflexivity|].
  simpl. apply IH.
Qed.

Lemma merge_loop_lookup (k : str) (updates : list (str * json)) :
  NoDup (map fst updates) ->
  forall result,
    dict_get k (merge_loop result updates)
    = match dict_get k updates with
      | Some v => Some (merge_value (dict_get k result) v)
      | None => dict_get k result
      end.
Proof.
  unfold merge_loop.
  induction updates as [|[key value] rest IH]; intros Hnd result; [reflexivity|].
  simpl in Hnd. apply NoDup_cons in Hnd as [Hnew Hnd].
  simpl. rewrite IH by exact Hnd.
  destruct (decide (key = k)) as [->|Hne].
  - rewrite (dict_get_none k rest) by exact Hnew. apply dict_get_set_eq.
  - rewrite dict_get_set_ne by congruence. reflexivity.
Qed.

Lemma dict_set_keys (k : str) (v : json) (d : list (str * json)) :
  (Preview.dict_set k v d).*1 = if decide (k ∈ d.*1) then d.*1 else d.*1 ++ [k].
Proof.
  unfold Preview.dict_set. destruct (decide (k ∈ d.*1)) as [Hin|Hin].
  - clear Hin. induction d as [|[k' v'] d IH]; [reflexivity|].
    simpl. destruct (decide (k' = k)) as [->|Hne]; simpl; f_equal; exact IH.
  - now rewrite fmap_app.
Qed.

Lemma merge_loop_keys (updates : list (str * json)) :
  forall result,
    NoDup result.*1 ->
    NoDup (merge_loop result updates).*1 /\
    forall k, k ∈ (merge_loop result updates).*1 <-> k ∈ result.*1 \/ k ∈ updates.*1.
Proof.
  unfold merge_loop.
  induction updates as [|[key value] rest IH]; intros result Hnd; simpl.
  - split; [exact Hnd|]. intros k. split; [now left | intros [H|H]; [exact H | inversion H]].
  - destruct (IH (Preview.dict_set key (merge_value (dict_get key result) value) result))
      as [Hnd' Hkeys].
    { rewrite dict_set_keys. destruct (decide (key ∈ result.*1)); [exact Hnd|].
      apply NoDup_app. split; [exact Hnd|]. split; [|apply NoDup_singleton].
      intros x Hx Hx'. apply list_elem_of_singleton in Hx' as ->. contradiction. }
    split; [exact Hnd'|]. intros k. rewrite Hkeys, dict_set_keys.
    destruct (decide (key ∈ result.*1)) as [Hin|Hin].
    + rewrite elem_of_cons. split; [tauto|].
      intros [H|[->|H]]; [now left | now left | now right].
    + rewrite elem_of_app, list_elem_of_singleton, elem_of_cons. tauto.
Qed.

Lemma set_along_get (init : list str) (last_key : str) (value : json) :
  forall current settings' dflt,
    set_along current init last_key value = Ok settings' ->
    get settings' (init ++ [last_key]) dflt = value.
Proof.
  induction init as [|key rest IH]; intros current settings' dflt.
  - destruct current as [a|items|entries]; simpl; try discriminate.
    intros [= <-]. simpl. now rewrite dict_get_set_eq.
  - destruct current as [a|items|entries]; simpl; try discriminate.
    destruct (set_along _ rest last_key value) as [child|e] eqn:Hc; simpl;
      [|discriminate].
    intros [= <-]. simpl. rewrite dict_get_set_eq. now apply (IH _ _ dflt) in Hc.
Qed.

Lemma set_along_frame (common : list str) :
  forall (a b : str) (r1 r2 : list str) (last_key : str) (value : json)
         (current settings' dflt : json) (init : list str),
    a <> b ->
    init ++ [last_key] = common ++ a :: r1 ->
    set_along current init last_key value = Ok settings' ->
    get settings' (common ++ b :: r2) dflt = get current (common ++ b :: r2) dflt.
Proof.
  induction common as [|c common IH];
    intros a b r1 r2 last_key value current settings' dflt init Hab Hkeys Hset.
  - simpl in Hkeys. destruct current as [x|items|entries]; [destruct init; discriminate..|].
    destruct init as [|key rest]; simpl in Hset, Hkeys.
    + injection Hkeys as -> _. injection Hset as <-. simpl.
      now rewrite dict_get_set_ne by congruence.
    + injection Hkeys as -> _.
      destruct (set_along _ rest last_key value) as [child|e]; simpl in Hset;
        [|discriminate].
      injection Hset as <-. simpl. rewrite dict_get_set_ne by congruence.
      destruct (dict_get a entries); [reflexivity|].
      now rewrite dict_get_set_ne by congruence.
  - destruct current as [x|items|entries]; [destruct init; discriminate..|].
    destruct init as [|key rest]; simpl in Hset, Hkeys.
    + destruct common; discriminate.
    + injection Hkeys as -> Hkeys.
      destruct (set_along _ rest last_key value) as [child|e] eqn:Hc; simpl in Hset;
        [|discriminate].
      injection Hset as <-. simpl. rewrite dict_get_set_eq.
      rewrite (IH a b r1 r2 last_key value _ child dflt rest Hab Hkeys Hc).
      destruct (dict_get c entries) as [v|] eqn:Hv; simpl.
      * rewrite Hv. reflexivity.
      * rewrite dict_get_set_eq. simpl.
        destruct common; reflexivity.
Qed.

End SettingsFacts.

(** X25 (settings.py, [Settings.set] and [Settings.get]).  What [set]
    stores, [get] returns.  When [set] is given at least one key and does
    not raise, [get] with the same keys returns the value stored, whatever
    the default; and [get] with keys that part from those of the [set] at
    some position returns what it returned before. *)
Theorem settings_get_after_set (settings settings' : SettingsStore.json)
    (keys : list str) (value : SettingsStore.json) :
  keys <> [] ->
  SettingsStore.set settings keys value = Ok settings' ->
  (forall dflt, SettingsStore.get settings' keys dflt = value) /\
  (forall common a b r1 r2 dflt,
      a <> b -> keys = common ++ a :: r1 ->
      SettingsStore.get settings' (common ++ b :: r2) dflt
      = SettingsStore.get settings (common ++ b :: r2) dflt).
Proof.
  intros Hne Hset. unfold SettingsStore.set in Hset.
  destruct keys as [|first others]; [contradiction|].
  assert (Hkeys : first :: others
                  = removelast (first :: others) ++ [List.last (first :: others) first]).
  { apply app_removelast_last. discriminate. }
  split.
  - intros dflt. rewrite Hkeys.
    apply (set_along_get _ _ _ settings settings' dflt Hset).
  - intros common a b r1 r2 dflt Hab Hsplit.
    apply (set_along_frame common a b r1 r2 (List.last (first :: others) first)
             value settings settings' dflt (removelast (first :: others)) Hab);
      [|exact Hset].
    now rewrite <- Hkeys.
Qed.

Lemma settings_get_after_set_witness :
  let settings := SettingsStore.JDict MoreSamples.default_settings in
  exists settings',
    SettingsStore.set settings [lit "element_offsets"; lit "inn"]
      (SettingsStore.JAtom (SettingsStore.AInt 7)) = Ok settings' /\
    SettingsStore.get settings' [lit "element_offsets"; lit "inn"]
      (SettingsStore.JAtom SettingsStore.ANone)
    = SettingsStore.JAtom (SettingsStore.AInt 7) /\
    SettingsStore.get settings' [lit "output"; lit "format"]
      (SettingsStore.JAtom SettingsStore.ANone)
    = SettingsStore.JAtom (SettingsStore.AStr (lit "pdf")) /\
    SettingsStore.set settings [lit "output"; lit "format"; lit "x"]
      (SettingsStore.JAtom (SettingsStore.AInt 7)) = Raise SettingsStore.TYPE_ERROR.
Proof.
  cbv zeta. eexists.
  assert (Hset : SettingsStore.set (SettingsStore.JDict MoreSamples.default_settings)
                   [lit "element_offsets"; lit "inn"]
                   (SettingsStore.JAtom (SettingsStore.AInt 7)) = Ok _)
    by (vm_compute; reflexivity).
  split; [exact Hset|].
  destruct (settings_get_after_set _ _ [lit "element_offsets"; lit "inn"] _
              ltac:(discriminate) Hset) as [Hget Hframe].
  split; [apply Hget|]. split; [|vm_compute; reflexivity].
  rewrite (Hframe [] (lit "element_offsets") (lit "output") [lit "inn"] [lit "format"]
             _ ltac:(vm_compute; discriminate) eq_refl).
  vm_compute. reflexivity.
Defined.

(** X26 (settings.py, [_deep_copy], [_deep_merge]).  The merge that [load]
    applies works key by key.  A deep copy is equal to
    its original, and merging nothing gives the base.  For updates that
    name each key once: a key of the updates holds, after the merge, the
    merge of the two values when both are dictionaries and the update's
    value otherwise; a key the updates do not name keeps the base's
    value; and the keys of the result are those of the base and of the
    updates, each once. *)
Theorem deep_merge_key_by_key (base updates : list (str * SettingsStore.json))
    (k : str) :
  NoDup base.*1 -> NoDup updates.*1 ->
  SettingsStore.dict_get k (SettingsStore._deep_merge base updates)
  = match SettingsStore.dict_get k updates with
    | Some v =>
        Some (match SettingsStore.dict_get k base, v with
              | Some (SettingsStore.JDict b), SettingsStore.JDict u =>
                  SettingsStore.JDict (SettingsStore._deep_merge b u)
              | _, _ => v
              end)
    | None => SettingsStore.dict_get k base
    end /\
  NoDup (SettingsStore._deep_merge base updates).*1 /\
  (k ∈ (SettingsStore._deep_merge base updates).*1 <-> k ∈ base.*1 \/ k ∈ updates.*1) /\
  SettingsStore._deep_merge base [] = base /\
  (forall obj, SettingsStore._deep_copy obj = obj).
Proof.
  intros Hb Hu. unfold SettingsStore._deep_merge. rewrite !copy_entries.
  split; [|split; [|split; [|split]]].
  - rewrite merge_loop_lookup by exact Hu.
    destruct (SettingsStore.dict_get k updates) as [v|]; [|reflexivity].
    f_equal.
    destruct (SettingsStore.dict_get k base) as [[a|items|b]|];
      destruct v as [a'|items'|u];
      first [ rewrite merge_value_dict; reflexivity
            | exact (deep_copy_equal _) ].
  - apply merge_loop_keys. exact Hb.
  - apply merge_loop_keys. exact Hb.
  - reflexivity.
  - apply deep_copy_equal.
Qed.

Lemma deep_merge_key_by_key_witness :
  SettingsStore.dict_get (lit "output")
    (SettingsStore._deep_merge MoreSamples.default_settings MoreSamples.loaded_settings)
  = Some (SettingsStore.JDict
            [(lit "format", SettingsStore.JAtom (SettingsStore.AStr (lit "png")));
             (lit "panel_width", SettingsStore.JAtom (SettingsStore.AInt 300))]) /\
  (SettingsStore._deep_merge MoreSamples.default_settings MoreSamples.loaded_settings).*1
  = [lit "output"; lit "ui"; lit "element_offsets"].
Proof.
  split; [|vm_compute; reflexivity].
  rewrite (proj1 (deep_merge_key_by_key MoreSamples.default_settings
                    MoreSamples.loaded_settings (lit "output")
                    ltac:(apply (bool_decide_unpack _); vm_compute; reflexivity)
                    ltac:(apply (bool_decide_unpack _); vm_compute; reflexivity))).
  vm_compute. reflexivity.
Defined.
